(** * The workflow execution engine of backend/executor.js

    A shallow embedding of the executor (path resolver, template
    interpolator, row normaliser, transform library, HTTP node runner and
    the node loop of [executePipeline]), of the [/run] handler of the
    server and of the two planners of backend/planner.js, followed by the
    vocabulary of the properties, the data of the
    examples, and the properties of the written specification that were
    checked against the embedding.

    Conventions of the embedding.
    - JavaScript values are the JSON-shaped values of [value]; objects are
      association lists in insertion order and functions, prototypes and
      getters are not represented.
    - A JavaScript number is an element of a type [num] carrying the
      operations of [JsNumber].  The instance [ieee] is IEEE-754 binary64
      (the primitive floats of the kernel), the arithmetic the program
      really runs on; the instance [exact] is the real numbers, the
      arithmetic the written specification reasons in.
    - Counters that the source only increments or compares with literals
      (attempt counts, fan-out positions, retry budgets, delays in
      milliseconds) are integers.
    - Strings are byte strings.
    - The network ([axios]), [JSONPath], the conversions between strings
      and numbers, [process.env] and the canned mock payloads form the
      record [platform], which every run takes as an argument.
    - Exceptions are values of [outcome]; published events, delays and
      requests are returned as traces.  Wall-clock readings ([now()],
      [latency_ms], [duration_ms]) are left out. *)

From Stdlib Require Import ZArith List String Ascii Bool Lia Arith.
From Stdlib Require Import Sorting.Sorted Sorting.Permutation.
From Stdlib Require Import Reals Lra.
From Stdlib Require Import Floats.
Import ListNotations.

Local Open Scope string_scope.
Local Open Scope list_scope.

(* ================================================================== *)
(** ** Numbers *)

Class JsNumber (num : Type) : Type := {
  NaN    : num;
  of_Z   : Z -> num;
  add    : num -> num -> num;
  sub    : num -> num -> num;
  mul    : num -> num -> num;
  div    : num -> num -> num;
  sqrt   : num -> num;
  ltb    : num -> num -> bool;   (* a < b  *)
  eqb    : num -> num -> bool;   (* a === b on two numbers *)
  isNaN  : num -> bool;
  trunc  : num -> Z              (* ToIntegerOrInfinity *)
}.

Declare Scope js_scope.
Delimit Scope js_scope with js.
Infix "+" := add : js_scope.
Infix "-" := sub : js_scope.
Infix "*" := mul : js_scope.
Infix "/" := div : js_scope.
Infix "<?" := ltb : js_scope.
Infix "=?" := eqb : js_scope.

(** [float_of_Z] is the double nearest to an integer, as an integer literal
    denotes it. *)
Definition float_of_Z (z : Z) : float :=
  SF2Prim (binary_normalize prec emax z 0 false).

(** Truncation towards zero; NaN gives 0 and an infinity a bound no
    array length reaches. *)
Definition float_trunc (x : float) : Z :=
  match Prim2SF x with
  | S754_zero _ | S754_nan => 0
  | S754_infinity s => if s then - 2 ^ 1024 else 2 ^ 1024
  | S754_finite s m e =>
      let a := if (0 <=? e)%Z then Zpos m * 2 ^ e else Zpos m / 2 ^ (- e) in
      if s then - a else a
  end%Z.

#[export] Instance ieee : JsNumber float := {
  NaN := PrimFloat.nan;
  of_Z := float_of_Z;
  add := PrimFloat.add;
  sub := PrimFloat.sub;
  mul := PrimFloat.mul;
  div := PrimFloat.div;
  sqrt := PrimFloat.sqrt;
  ltb := PrimFloat.ltb;
  eqb := PrimFloat.eqb;
  isNaN := PrimFloat.is_nan;
  trunc := float_trunc
}.

Definition Rltb (a b : R) : bool := if Rlt_dec a b then true else false.
Definition Reqb (a b : R) : bool := if Req_dec_T a b then true else false.
Definition Rtrunc (a : R) : Z :=
  if Rlt_dec a 0 then (- Int_part (- a))%Z else Int_part a.

(** Exact arithmetic: no rounding, no overflow, no NaN ([NaN] is never
    produced by an operation and [isNaN] is constantly false). *)
#[export] Instance exact : JsNumber R := {
  NaN := 0%R;
  of_Z := IZR;
  add := Rplus;
  sub := Rminus;
  mul := Rmult;
  div := Rdiv;
  sqrt := R_sqrt.sqrt;
  ltb := Rltb;
  eqb := Reqb;
  isNaN := fun _ => false;
  trunc := Rtrunc
}.

Section Literals.
Context {num : Type} `{JsNumber num}.

(** The decimal literal [m]e-[k], e.g. [dec 35 1] for [3.5] and
    [dec 1 6] for [1e-6].  On binary64 the division of two exactly
    represented integers is correctly rounded, which is the value the
    literal denotes. *)
Definition dec (m : Z) (k : nat) : num := (of_Z m / of_Z (10 ^ Z.of_nat k))%js.

(** [Math.min(a, b)] *)
Definition Math_min (a b : num) : num :=
  if isNaN a || isNaN b then NaN else if (b <? a)%js then b else a.
End Literals.

(* ================================================================== *)
(** ** Strings *)

Definition is_space (c : ascii) : bool :=
  let n := nat_of_ascii c in
  (n =? 32)%nat || ((9 <=? n)%nat && (n <=? 13)%nat).

Fixpoint chars (s : string) : list ascii :=
  match s with EmptyString => [] | String c s' => c :: chars s' end.

Fixpoint of_chars (l : list ascii) : string :=
  match l with [] => EmptyString | c :: l' => String c (of_chars l') end.

Fixpoint drop_spaces (l : list ascii) : list ascii :=
  match l with
  | c :: l' => if is_space c then drop_spaces l' else l
  | [] => []
  end.

(** [s.trim()] *)
Definition trim_chars (l : list ascii) : list ascii :=
  rev (drop_spaces (rev (drop_spaces l))).
Definition trim (s : string) : string := of_chars (trim_chars (chars s)).

Definition lower_char (c : ascii) : ascii :=
  let n := nat_of_ascii c in
  if (65 <=? n)%nat && (n <=? 90)%nat then ascii_of_nat (n + 32) else c.

(** [s.toLowerCase()] *)
Fixpoint toLowerCase (s : string) : string :=
  match s with
  | EmptyString => EmptyString
  | String c s' => String (lower_char c) (toLowerCase s')
  end.

Definition upper_char (c : ascii) : ascii :=
  let n := nat_of_ascii c in
  if (97 <=? n)%nat && (n <=? 122)%nat then ascii_of_nat (n - 32) else c.

(** [s.toUpperCase()] *)
Fixpoint toUpperCase (s : string) : string :=
  match s with
  | EmptyString => EmptyString
  | String c s' => String (upper_char c) (toUpperCase s')
  end.

(** [/needle/i.test(s)] for a literal, lower-case [needle] *)
Fixpoint contains_ci (needle s : string) : bool :=
  String.prefix needle (toLowerCase s)
  || match s with
     | EmptyString => false
     | String _ s' => contains_ci needle s'
     end.

(** [s.startsWith(p)] *)
Definition startsWith (p s : string) : bool := String.prefix p s.

(** [s.split(sep)] for a one-character separator *)
Fixpoint split_chars (sep : ascii) (cur : list ascii) (l : list ascii) : list string :=
  match l with
  | [] => [of_chars (rev cur)]
  | c :: l' =>
      if Ascii.eqb c sep then of_chars (rev cur) :: split_chars sep [] l'
      else split_chars sep (c :: cur) l'
  end.
Definition split (sep : ascii) (s : string) : list string :=
  split_chars sep [] (chars s).

(** [parts.join(sep)] on strings *)
Fixpoint join (sep : string) (parts : list string) : string :=
  match parts with
  | [] => ""
  | [p] => p
  | p :: rest => p ++ sep ++ join sep rest
  end.

Definition digit (n : nat) : ascii := ascii_of_nat (48 + n).

Fixpoint digits_fuel (fuel : nat) (n : nat) (acc : list ascii) : list ascii :=
  match fuel with
  | O => acc
  | S f =>
      let acc' := digit (n mod 10) :: acc in
      if (n <? 10)%nat then acc' else digits_fuel f (n / 10) acc'
  end.

(** Decimal rendering of a counter, as a template literal prints it. *)
Definition show_nat (n : nat) : string := of_chars (digits_fuel (S n) n []).
Definition show_Z (z : Z) : string :=
  match z with
  | Zneg _ => "-" ++ show_nat (Z.abs_nat z)
  | _ => show_nat (Z.abs_nat z)
  end.

(** The canonical array index a property name denotes, if any. *)
Fixpoint index_digits (l : list ascii) (acc : nat) : option nat :=
  match l with
  | [] => Some acc
  | c :: l' =>
      let n := nat_of_ascii c in
      if (48 <=? n)%nat && (n <=? 57)%nat
      then index_digits l' (10 * acc + (n - 48))
      else None
  end.
Definition parse_index (p : string) : option nat :=
  match chars p with
  | [] => None
  | [c] => index_digits [c] 0
  | c :: l => if Ascii.eqb c "0"%char then None else index_digits (c :: l) 0
  end.

(* ================================================================== *)
(** ** Values *)

#[warnings="-register-all"] Inductive value {num : Type} : Type :=
| VUndefined
| VNull
| VBool (b : bool)
| VNum (x : num)
| VStr (s : string)
| VArr (items : list value)
| VObj (fields : list (string * value)).
Arguments value : clear implicits.

(** What a thrown exception carries to the handlers of this program: its
    message. *)
Inductive outcome (A : Type) : Type :=
| Return (a : A)
| Throw (message : string).
Arguments Return {A} a.
Arguments Throw {A} message.

Definition bind {A B} (m : outcome A) (k : A -> outcome B) : outcome B :=
  match m with Return a => k a | Throw e => Throw e end.

Notation "x <- m ;; k" := (bind m (fun x => k))
  (at level 61, m at next level, right associativity).

(** The request handed to [axios] and what comes back. *)
Record request {num : Type} : Type := {
  req_method  : string;
  req_url     : string;
  req_headers : option (list (string * string));
  req_params  : option (list (string * string));
  req_data    : value num;
  req_timeout : Z
}.
Arguments request : clear implicits.

(** One network call is identified by the position of its node, the
    fan-out position when there is one, and the attempt number. *)
Record call_id : Type := {
  call_node : nat;
  call_item : option nat;
  call_attempt : nat
}.

(** The environment of a run.  [axios] answers a request with the response
    body (a 2xx status) or throws (anything else: [validateStatus], a
    timeout, a network error).  [JSONPath wrap path json] is the
    jsonpath-plus query, [None] when it throws.  [URLSearchParams] is the
    form encoding of a body, [mockFor] the canned payload of a node id. *)
Record platform {num : Type} : Type := {
  StringToNumber : string -> num;
  NumberToString : num -> string;
  JSONPath : bool -> string -> value num -> option (value num);
  axios : call_id -> request num -> outcome (value num);
  URLSearchParams : list (string * string) -> string;
  process_env : list (string * value num);
  mockFor : string -> value num
}.
Arguments platform : clear implicits.

Section Values.
Context {num : Type} `{JsNumber num}.
Variable pf : platform num.

(** Own-property lookup in an object literal. *)
Fixpoint lookup (k : string) (fields : list (string * value num)) : option (value num) :=
  match fields with
  | [] => None
  | (k', v) :: rest => if String.eqb k k' then Some v else lookup k rest
  end.

(** [obj[k] = v]: overwrite in place, or append. *)
Fixpoint set_field (k : string) (v : value num) (fields : list (string * value num))
  : list (string * value num) :=
  match fields with
  | [] => [(k, v)]
  | (k', v') :: rest =>
      if String.eqb k k' then (k, v) :: rest else (k', v') :: set_field k v rest
  end.

Definition has_field (k : string) (fields : list (string * value num)) : bool :=
  match lookup k fields with Some _ => true | None => false end.

(** [v == null] *)
Definition is_nullish (v : value num) : bool :=
  match v with VUndefined | VNull => true | _ => false end.

(** [a ?? b] *)
Definition nullish_or (a b : value num) : value num := if is_nullish a then b else a.

(** Truthiness. *)
Definition truthy (v : value num) : bool :=
  match v with
  | VUndefined | VNull => false
  | VBool b => b
  | VNum x => negb (isNaN x || (x =? of_Z 0)%js)
  | VStr s => negb (String.eqb s "")
  | VArr _ | VObj _ => true
  end.

(** [a || b] *)
Definition or_else (a b : value num) : value num := if truthy a then a else b.

Definition isArray (v : value num) : bool :=
  match v with VArr _ => true | _ => false end.

(** [isObj]: truthy, of type object, not an array. *)
Definition isObj (v : value num) : bool :=
  match v with VObj _ => true | _ => false end.

Definition items_of (v : value num) : list (value num) :=
  match v with VArr l => l | _ => [] end.

Definition fields_of (v : value num) : list (string * value num) :=
  match v with VObj kv => kv | _ => [] end.

(** [String(v)], and the conversion a template literal applies. *)
Fixpoint String_ (v : value num) : string :=
  match v with
  | VUndefined => "undefined"
  | VNull => "null"
  | VBool true => "true"
  | VBool false => "false"
  | VNum x => NumberToString pf x
  | VStr s => s
  | VArr l =>
      join "," (map (fun e => match e with
                              | VUndefined | VNull => ""
                              | _ => String_ e
                              end) l)
  | VObj _ => "[object Object]"
  end.

(** [Number(v)] *)
Definition Number (v : value num) : num :=
  match v with
  | VUndefined => NaN
  | VNull => of_Z 0
  | VBool true => of_Z 1
  | VBool false => of_Z 0
  | VNum x => x
  | VStr s => StringToNumber pf s
  | VArr _ => StringToNumber pf (String_ v)
  | VObj _ => NaN
  end.

(** [Number(v) || 0] *)
Definition number_or_zero (v : value num) : num :=
  let x := Number v in
  if isNaN x || (x =? of_Z 0)%js then of_Z 0 else x.

(** [cur[p]] for a property name [p]; the caller has excluded
    [null] and [undefined]. *)
Definition get (cur : value num) (p : string) : value num :=
  match cur with
  | VObj kv => match lookup p kv with Some v => v | None => VUndefined end
  | VArr l =>
      if String.eqb p "length" then VNum (of_Z (Z.of_nat (List.length l)))
      else match parse_index p with
           | Some i => nth i l VUndefined
           | None => VUndefined
           end
  | VStr s =>
      if String.eqb p "length" then VNum (of_Z (Z.of_nat (String.length s)))
      else match parse_index p with
           | Some i => match String.get i s with
                       | Some c => VStr (String c EmptyString)
                       | None => VUndefined
                       end
           | None => VUndefined
           end
  | _ => VUndefined
  end.

(** [v?.[p]] *)
Definition get_opt (v : value num) (p : string) : value num :=
  if is_nullish v then VUndefined else get v p.

(** The walk shared by [resolveExpr] and [resolvePathLike]. *)
Fixpoint walk (cur : value num) (parts : list string) : value num :=
  match parts with
  | [] => cur
  | p :: rest => if is_nullish cur then VUndefined else walk (get cur p) rest
  end.

Definition resolvePathLike (scope : value num) (expr : value num) : value num :=
  match expr with
  | VStr e =>
      if startsWith "$." e || startsWith "$[" e then
        match JSONPath pf true e scope with
        | Some r => r
        | None => VUndefined
        end
      else walk scope (split "." e)
  | _ => expr
  end.

(** [{...v}]: the own enumerable properties of [v]. *)
Definition indexed (l : list (value num)) : list (string * value num) :=
  combine (map show_nat (seq 0 (List.length l))) l.

Definition spread (v : value num) : list (string * value num) :=
  match v with
  | VObj kv => kv
  | VArr l => indexed l
  | VStr s => indexed (map (fun c => VStr (String c EmptyString)) (chars s))
  | _ => []
  end.

(** [{...a, ...b}] on property lists *)
Definition assign (a b : list (string * value num)) : list (string * value num) :=
  fold_left (fun acc kv => set_field (fst kv) (snd kv) acc) b a.

(** [applyMap(json, map)] *)
Definition applyMap (json : value num) (map_ : value num) : value num :=
  match map_ with
  | VObj m =>
      VObj (fold_left
              (fun out kjp =>
                 let r :=
                   match snd kjp with
                   | VStr jp =>
                       match JSONPath pf false jp json with
                       | Some VUndefined | None => VNull
                       | Some r => r
                       end
                   | _ => VNull
                   end in
                 set_field (fst kjp) r out)
              m [])
  | _ => json
  end.

(** [asRows(input)] *)
Definition column_length (v : value num) : nat := List.length (items_of v).

Definition row_at (cols : list (string * value num)) (i : nat) : value num :=
  VObj (fold_left
          (fun row kc => set_field (fst kc) (nth i (items_of (snd kc)) VUndefined) row)
          cols []).

Definition asRows (input : value num) : list (value num) :=
  match input with
  | VArr l => l
  | VObj cols =>
      if forallb (fun kc => isArray (snd kc)) cols then
        match cols with
        | [] => []
        | (_, first) :: _ =>
            let len := column_length first in
            if forallb (fun kc => (column_length (snd kc) =? len)%nat) cols
            then map (row_at cols) (seq 0 len)
            else
              let minLen :=
                fold_left (fun m kc => Nat.min m (column_length (snd kc)))
                          cols len in
              map (row_at cols) (seq 0 minLen)
        end
      else []
  | _ => []
  end.

End Values.

(* ================================================================== *)
(** ** Transforms *)

Section Transforms.
Context {num : Type} `{JsNumber num}.
Variable pf : platform num.

(** [rows.map((row, i) => f(row, i))] *)
Definition mapi {A B} (f : A -> nat -> B) (l : list A) : list B :=
  map (fun xi => f (fst xi) (snd xi)) (combine l (seq 0 (List.length l))).

Definition t_join_on_index (left : value num) (rightArrays : list (value num))
  (rightKeys : value num) : list (value num) :=
  let leftRows := asRows left in
  let validRightArrays := map items_of rightArrays in
  mapi (fun row i =>
          let extra :=
            fold_left
              (fun extra arr_idx =>
                 let key := get_opt rightKeys (show_nat (snd arr_idx)) in
                 if truthy key
                 then set_field (String_ pf key) (nth i (fst arr_idx) VUndefined) extra
                 else extra)
              (combine validRightArrays (seq 0 (List.length validRightArrays)))
              [] in
          VObj (assign (spread row) extra))
       leftRows.

(** [yes(v)]: [String(v || "").toLowerCase() === "yes"] *)
Definition yes (v : value num) : bool :=
  String.eqb (toLowerCase (String_ pf (or_else v (VStr "")))) "yes".

(** [row?.[f.key ?? dflt]] *)
Definition tag (f row : value num) (key : string) : value num :=
  get_opt row (String_ pf (nullish_or (get f key) (VStr key))).

Definition t_compute_osm_quality (arr fields : value num) : list (value num) :=
  let rows := asRows arr in
  let f := or_else fields (VObj []) in
  map (fun row =>
         let q := dec 35 1 in
         let q := if truthy (tag f row "cuisine") then (q + dec 6 1)%js else q in
         let q := if truthy (tag f row "opening_hours") then (q + dec 4 1)%js else q in
         let q := if yes (tag f row "outdoor_seating") then (q + dec 2 1)%js else q in
         let q := if yes (tag f row "wheelchair") then (q + dec 2 1)%js else q in
         let q := if (of_Z 5 <? q)%js then of_Z 5 else q in
         VObj (set_field "quality" (VNum q) (spread row)))
      rows.

Definition t_compute_score (arr : value num) (ratingKey etaKey precipKey : value num)
  : list (value num) :=
  let rows := asRows arr in
  map (fun row =>
         let scaledEta :=
           (number_or_zero pf (get_opt row (String_ pf etaKey)) / of_Z 600)%js in
         let precipValue := number_or_zero pf (get_opt row (String_ pf precipKey)) in
         let rain := Math_min (of_Z 1) (precipValue * dec 1 1)%js in
         let rating := number_or_zero pf (get_opt row (String_ pf ratingKey)) in
         VObj (set_field "score" (VNum (rating - scaledEta - rain)%js) (spread row)))
      rows.

(** *** [Array.prototype.sort] and [slice]

    [SortCompare] of ECMAScript: [undefined] elements go last without the
    comparator being asked, and a NaN answer counts as [+0].  The standard
    requires the sort to be stable, so for a consistent comparator the result
    is the one of the stable insertion sort below: an element is placed
    behind every element already there that the comparator does not order
    strictly after it. *)
Definition is_undefined (v : value num) : bool :=
  match v with VUndefined => true | _ => false end.

Definition positive (v : num) : bool := (of_Z 0 <? v)%js.

Fixpoint insert_sorted (cmp : value num -> value num -> num) (x : value num)
  (sorted : list (value num)) : list (value num) :=
  match sorted with
  | [] => [x]
  | y :: rest =>
      if positive (cmp y x) then x :: y :: rest
      else y :: insert_sorted cmp x rest
  end.

Definition js_sort (cmp : value num -> value num -> num) (l : list (value num))
  : list (value num) :=
  fold_left (fun sorted x => insert_sorted cmp x sorted)
            (filter (fun v => negb (is_undefined v)) l) []
  ++ filter is_undefined l.

(** [a.slice(0, n)] for an integer [n] *)
Definition slice0 {A} (n : Z) (a : list A) : list A :=
  let len := Z.of_nat (List.length a) in
  let stop := if (n <? 0)%Z then Z.max (len + n) 0 else Z.min n len in
  firstn (Z.to_nat stop) a.

(** The comparator of [t_top_n]. *)
Definition sort_key (by_ : value num) (row : value num) : num :=
  number_or_zero pf (get_opt row (String_ pf by_)).

Definition top_n_compare (by_ : value num) (desc : bool) (a b : value num) : num :=
  let valA := sort_key by_ a in
  let valB := sort_key by_ b in
  if desc then (valB - valA)%js else (valA - valB)%js.

Definition t_top_n (arr : value num) (n : Z) (by_ : value num) (desc : bool)
  : list (value num) :=
  let rows := asRows arr in
  let s := js_sort (top_n_compare by_ desc) rows in
  slice0 n s.

(** *** Correlation *)

(** [xs.map(Number).filter(n => !isNaN(n))], or [[]] when [xs] is no array *)
Definition numeric (xs : value num) : list num :=
  match xs with
  | VArr l => filter (fun x => negb (isNaN x)) (map (Number pf) l)
  | _ => []
  end.

(** [a.reduce((s, x) => s + x, 0)] *)
Definition sum (a : list num) : num := fold_left add a (of_Z 0).

(** The accumulators [num], [dx], [dy] after the loop over [0 .. n-1]. *)
Definition moments (X Y : list num) (n : nat) (mx my : num) : num * num * num :=
  fold_left
    (fun acc i =>
       let '(num_, dx, dy) := acc in
       let vx := (nth i X (of_Z 0) - mx)%js in
       let vy := (nth i Y (of_Z 0) - my)%js in
       ((num_ + vx * vy)%js, (dx + vx * vx)%js, (dy + vy * vy)%js))
    (seq 0 n) (of_Z 0, of_Z 0, of_Z 0).

(** The body of [t_correlation] once [X] and [Y] are computed. *)
Definition pearson (X Y : list num) : num :=
  let n := Nat.min (List.length X) (List.length Y) in
  if (n <? 2)%nat then of_Z 0
  else
    let mean := fun a => (sum a / of_Z (Z.of_nat n))%js in
    let mx := mean (firstn n X) in
    let my := mean (firstn n Y) in
    let '(num_, dx, dy) := moments X Y n mx my in
    let den := sqrt (dx * dy)%js in
    if (dec 1 6 <? den)%js then (num_ / den)%js else of_Z 0.

Definition t_correlation (xs ys : value num) : num :=
  pearson (numeric xs) (numeric ys).

End Transforms.

(* ================================================================== *)
(** ** Template interpolation *)

Fixpoint span {A} (p : A -> bool) (l : list A) : list A * list A :=
  match l with
  | x :: l' => if p x then let (a, b) := span p l' in (x :: a, b) else ([], l)
  | [] => ([], [])
  end.

Fixpoint strip_prefix (p l : list ascii) : option (list ascii) :=
  match p, l with
  | [], _ => Some l
  | c :: p', d :: l' => if Ascii.eqb c d then strip_prefix p' l' else None
  | _ :: _, [] => None
  end.

Definition is_not (c : ascii) (d : ascii) : bool := negb (Ascii.eqb d c).

(** [call.match(/^join_coords\(([^,]+),\s*([^)]+)\)\s*$/)]: the two
    groups.  Both groups are greedy, so the first runs to the first comma
    and the second to the first closing parenthesis; when nothing but
    white space precedes that parenthesis, backtracking hands the last
    blank of [\s*] to the second group. *)
Definition match_join_coords (call : string) : option (string * string) :=
  match strip_prefix (chars "join_coords(") (chars call) with
  | None => None
  | Some r =>
      let (g1, r1) := span (is_not ",") r in
      match g1, r1 with
      | _ :: _, _comma :: r2 =>
          let (ws, r3) := span is_space r2 in
          let (run, r4) := span (is_not ")") r3 in
          let g2 := match run with
                    | [] => match rev ws with c :: _ => [c] | [] => [] end
                    | _ => run
                    end in
          match g2, r4 with
          | _ :: _, _paren :: r5 =>
              if forallb is_space r5 then Some (of_chars g1, of_chars g2) else None
          | _, _ => None
          end
      | _, _ => None
      end
  end.

(** One match of [/\{\{([^}]+)\}\}/] at the head of [l]: the group and the
    length of the match. *)
Definition placeholder_at (l : list ascii) : option (list ascii * nat) :=
  match strip_prefix (chars "{{") l with
  | None => None
  | Some r =>
      let (code, r1) := span (is_not "}") r in
      match code, strip_prefix (chars "}}") r1 with
      | _ :: _, Some _ => Some (code, 2 + List.length code + 2)
      | _, _ => None
      end
  end.

(** [template.replace(/\{\{([^}]+)\}\}/g, f)]: matches are taken from left
    to right and do not overlap; [skip] counts the characters of the
    current match still to be passed over. *)
Fixpoint replace_placeholders (f : string -> string) (skip : nat) (l : list ascii)
  : list ascii :=
  match l with
  | [] => []
  | c :: l' =>
      match skip with
      | S k => replace_placeholders f k l'
      | O =>
          match placeholder_at l with
          | Some (code, len) =>
              chars (f (of_chars code)) ++ replace_placeholders f (len - 1) l'
          | None => c :: replace_placeholders f 0 l'
          end
      end
  end.

Section Interpolate.
Context {num : Type} `{JsNumber num}.
Variable pf : platform num.

(** The origin that [join_coords] puts first: [scope._origin] when it has
    both coordinates, else the ["lat,lon"] text of [scope.context.origin]. *)
Definition origin_coords (scope : value num) : string :=
  let o := get_opt scope "_origin" in
  if truthy o && negb (is_nullish (get o "lon")) && negb (is_nullish (get o "lat"))
  then String_ pf (get o "lon") ++ "," ++ String_ pf (get o "lat")
  else
    let c := get_opt (get_opt scope "context") "origin" in
    if truthy c then
      match split "," (String_ pf c) with
      | lat :: lon :: _ =>
          if negb (String.eqb lat "") && negb (String.eqb lon "")
          then trim lon ++ "," ++ trim lat
          else ""
      | _ => ""
      end
    else "".

(** The pairs pushed by the loop over [0 .. min(lats.length, lons.length) - 1]. *)
Fixpoint coord_pairs (lats lons : list (value num)) : list string :=
  match lats, lons with
  | lat :: lats', lon :: lons' =>
      if negb (is_nullish lon) && negb (is_nullish lat)
      then (String_ pf lon ++ "," ++ String_ pf lat)%string :: coord_pairs lats' lons'
      else coord_pairs lats' lons'
  | _, _ => []
  end.

(** The branch of the callback taken when [joinMatch] is not null. *)
Definition join_coords (scope : value num) (latPath lonPath : string) : string :=
  let lats := resolvePathLike pf scope (VStr latPath) in
  let lons := resolvePathLike pf scope (VStr lonPath) in
  match lats, lons with
  | VArr lats, VArr lons =>
      let originCoords := origin_coords scope in
      let pairs := if String.eqb originCoords "" then [] else [originCoords] in
      join ";" (pairs ++ coord_pairs lats lons)
  | _, _ => ""
  end.

(** The callback of [replace]. *)
Definition expand (scope : value num) (code : string) : string :=
  let call := trim code in
  match match_join_coords call with
  | Some (g1, g2) => join_coords scope (trim g1) (trim g2)
  | None =>
      let val := resolvePathLike pf scope (VStr call) in
      if is_nullish val then "" else String_ pf val
  end.

(** [interpolate(template, scope)] on a string template; an empty template
    is returned as it is. *)
Definition interpolate (template : string) (scope : value num) : string :=
  if String.eqb template "" then template
  else of_chars (replace_placeholders (expand scope) 0 (chars template)).

End Interpolate.

(** *** The interpolator of the earlier revision

    src/unnamed/part_001 is an earlier revision of the executor.  Its
    [resolvePathLike] is the one above; its [interpolate] differs in the
    [join_coords] branch, which reads the origin from [scope._origin] only
    and slices it off again before the pairs are joined. *)
Module Part_001.
Section Interpolate.
Context {num : Type} `{JsNumber num}.
Variable pf : platform num.

Definition join_coords (scope : value num) (latPath lonPath : string) : string :=
  let lats := resolvePathLike pf scope (VStr latPath) in
  let lons := resolvePathLike pf scope (VStr lonPath) in
  match lats, lons with
  | VArr lats, VArr lons =>
      let o := get_opt scope "_origin" in
      let originCoords :=
        if truthy o && negb (is_nullish (get o "lon")) && negb (is_nullish (get o "lat"))
        then (String_ pf (get o "lon") ++ "," ++ String_ pf (get o "lat"))%string
        else "" in
      let pairs := (if String.eqb originCoords "" then [] else [originCoords])
                   ++ coord_pairs pf lats lons in
      let destCoords := skipn (if String.eqb originCoords "" then 0 else 1) pairs in
      join ";" destCoords
  | _, _ => ""
  end.

Definition expand (scope : value num) (code : string) : string :=
  let call := trim code in
  match match_join_coords call with
  | Some (g1, g2) => join_coords scope (trim g1) (trim g2)
  | None =>
      let val := resolvePathLike pf scope (VStr call) in
      if is_nullish val then "" else String_ pf val
  end.

Definition interpolate (template : string) (scope : value num) : string :=
  if String.eqb template "" then template
  else of_chars (replace_placeholders (expand scope) 0 (chars template)).

End Interpolate.
End Part_001.

(* ================================================================== *)
(** ** The specification a run executes *)

Inductive status : Type := pending | running | completed | failed.

Record retry_policy : Type := {
  times : option Z;
  backoff_ms : option Z
}.

Record fanout_spec : Type := {
  over : string;                      (* path of the collection *)
  max : option Z;                     (* cap on the calls *)
  mapping : list (string * string)    (* scope variable -> field of the item *)
}.

Record node {num : Type} : Type := {
  id : string;
  type : string;                      (* 'http', 'transform', ... *)
  method : option string;
  url : string;
  headers : option (list (string * value num));
  params : option (list (string * value num));
  body : option (list (string * value num));
  compose : option (list (string * value num));
  map_ : value num;                   (* [node.map] *)
  retry : option retry_policy;
  timeout_ms : option Z;
  fanout : option fanout_spec;
  fallback : bool;                    (* is [node.fallback] truthy *)
  fn : string;
  args : value num
}.
Arguments node : clear implicits.

Record edge : Type := {
  from : string;
  to : string;
  edge_status : status
}.

(** A property that should hold an array: absent, something else, or the
    array. *)
Inductive field (A : Type) : Type :=
| Absent
| NotArray
| Items (l : list A).
Arguments Absent {A}.
Arguments NotArray {A}.
Arguments Items {A} l.

Record spec {num : Type} : Type := {
  spec_nodes : field (node num);
  spec_edges : field edge;
  _origin : value num
}.
Arguments spec : clear implicits.

(* ================================================================== *)
(** ** HTTP runner *)

Inductive effect {num : Type} : Type :=
| Sleep (ms : Z)                       (* [sleep(ms)] *)
| SleepJitter                          (* [sleep(50 + Math.random() * 50)] *)
| Request (c : call_id) (r : request num).
Arguments effect : clear implicits.

Record http_result {num : Type} : Type := {
  data : value num;
  attempts : Z;
  fallbackUsed : bool
}.
Arguments http_result : clear implicits.

(** [node.retry?.times ?? 0] and [node.retry?.backoff_ms ?? 100] *)
Definition retry_times {num : Type} (n : node num) : Z :=
  match retry n with
  | Some {| times := Some t |} => t
  | _ => 0%Z
  end.

Definition retry_backoff {num : Type} (n : node num) : Z :=
  match retry n with
  | Some {| backoff_ms := Some b |} => b
  | _ => 100%Z
  end.

Section HttpRunner.
Context {num : Type} `{JsNumber num}.
Variable pf : platform num.

Definition interpolate_entries (scope : value num) (entries : list (string * value num))
  : list (string * string) :=
  map (fun kv => (fst kv, interpolate pf (String_ pf (snd kv)) scope)) entries.

Definition strings (entries : list (string * string)) : list (string * value num) :=
  map (fun kv => (fst kv, VStr (snd kv))) entries.

(** The body of the [try] block up to the call of [axios]. *)
Definition compile_request (n : node num) (scope : value num) (spec_origin : value num)
  : request num :=
  let currentScope :=
    set_field "context" (get scope "context")
      (set_field "_origin" spec_origin (spread scope)) in
  let currentScope :=
    match compose n with
    | Some c =>
        set_field "compose" (VObj (strings (interpolate_entries (VObj currentScope) c)))
                  currentScope
    | None => currentScope
    end in
  let url_ := interpolate pf (url n) (VObj currentScope) in
  let params_ := option_map (interpolate_entries (VObj currentScope)) (params n) in
  let headers_ :=
    option_map (interpolate_entries (VObj (assign currentScope (process_env pf))))
               (headers n) in
  let body_ := option_map (interpolate_entries (VObj currentScope)) (body n) in
  let method_ := toUpperCase (match method n with
                              | Some m => if String.eqb m "" then "GET" else m
                              | None => "GET"
                              end) in
  let timeout := match timeout_ms n with
                 | Some t => if (t =? 0)%Z then 9000%Z else t
                 | None => 9000%Z
                 end in
  let data_ :=
    if String.eqb method_ "POST" then
      let form :=
        match headers_ with
        | Some h =>
            contains_ci "application/x-www-form-urlencoded"
              (match List.find (fun kv => String.eqb (fst kv) "Content-Type") h with
               | Some kv => snd kv
               | None => ""
               end)
        | None => false
        end in
      if form then VStr (URLSearchParams pf (match body_ with Some b => b | None => [] end))
      else match body_ with Some b => VObj (strings b) | None => VUndefined end
    else VUndefined in
  {| req_method := method_; req_url := url_; req_headers := headers_;
     req_params := params_; req_data := data_; req_timeout := timeout |}.

(** The [while (attempts <= maxRetries)] loop.  [left] is the number of
    iterations the guard still admits, [maxRetries + 1 - attempts]; with
    none left the statement after the loop throws. *)
Fixpoint http_attempts (n : node num) (scope spec_origin : value num)
  (site : nat * option nat) (maxRetries backoff : Z) (left : nat) (attempts : nat)
  : list (effect num) * outcome (http_result num) :=
  match left with
  | O => ([], Throw ("Node " ++ id n ++ " failed unexpectedly after all retries."))
  | S left' =>
      let attempts := S attempts in
      let c := {| call_node := fst site; call_item := snd site;
                  call_attempt := attempts |} in
      let r := compile_request n scope spec_origin in
      match axios pf c r with
      | Return resp =>
          ([Request c r],
           Return {| data := applyMap pf resp (map_ n);
                     attempts := Z.of_nat attempts; fallbackUsed := false |})
      | Throw message =>
          if (maxRetries <? Z.of_nat attempts)%Z then
            ([Request c r],
             if fallback n
             then Throw ("Node " ++ id n ++ " failed after " ++ show_nat attempts
                         ++ " attempts: " ++ message)
             else Throw message)
          else
            let (trace, res) :=
              http_attempts n scope spec_origin site maxRetries backoff left' attempts in
            (Request c r :: Sleep (backoff * 2 ^ (Z.of_nat attempts - 1)) :: trace, res)
      end
  end.

Definition runHttpNode (n : node num) (scope : value num) (useMocks : bool)
  (spec_origin : value num) (site : nat * option nat)
  : list (effect num) * outcome (http_result num) :=
  if useMocks then
    ([SleepJitter],
     Return {| data := mockFor pf (id n); attempts := 1; fallbackUsed := false |})
  else
    let maxRetries := retry_times n in
    let backoff := retry_backoff n in
    http_attempts n scope spec_origin site maxRetries backoff
                  (Z.to_nat (maxRetries + 1)) 0.

End HttpRunner.

(* ================================================================== *)
(** ** Transform runner *)

Section TransformRunner.
Context {num : Type} `{JsNumber num}.
Variable pf : platform num.

(** [resolvePathLike({ outputs }, p)] *)
Definition from_outputs (outputs : list (string * value num)) (p : value num)
  : value num :=
  resolvePathLike pf (VObj [("outputs", VObj outputs)]) p.

(** [node.args?.key] *)
Definition arg (n : node num) (key : string) : value num := get_opt (args n) key.

Definition runTransformNode (n : node num) (outputs : list (string * value num))
  : outcome (value num) :=
  let fn_ := fn n in
  if String.eqb fn_ "join_on_index" then
    let left := nullish_or (from_outputs outputs (arg n "left")) (VArr []) in
    match or_else (arg n "rightArrays") (VArr []) with
    | VArr paths =>
        let rightArrays := map (from_outputs outputs) paths in
        let rightKeys := or_else (arg n "rightKeys") (VArr []) in
        Return (VArr (t_join_on_index pf left rightArrays rightKeys))
    | _ => Throw "(node.args?.rightArrays || []).map is not a function"
    end
  else if String.eqb fn_ "compute_osm_quality" then
    let arr := nullish_or (from_outputs outputs
                             (or_else (arg n "from") (VStr "outputs.t1_join")))
                          (VArr []) in
    Return (VArr (t_compute_osm_quality pf arr (arg n "fields")))
  else if String.eqb fn_ "compute_score" then
    let arr := nullish_or (from_outputs outputs
                             (or_else (arg n "from") (VStr "outputs.t_osm_quality")))
                          (VArr []) in
    Return (VArr (t_compute_score pf arr
                    (or_else (arg n "ratingKey") (VStr "quality"))
                    (or_else (arg n "etaKey") (VStr "eta_seconds"))
                    (or_else (arg n "precipKey") (VStr "precip"))))
  else if String.eqb fn_ "top_n" then
    let arr := nullish_or (from_outputs outputs
                             (or_else (arg n "from") (VStr "outputs.t2_score")))
                          (VArr []) in
    Return (VArr (t_top_n pf arr
                    (trunc (Number pf (nullish_or (arg n "n") (VNum (of_Z 5)))))
                    (or_else (arg n "by") (VStr "score"))
                    (match arg n "desc" with VBool false => false | _ => true end)))
  else if String.eqb fn_ "correlation" then
    let xs := from_outputs outputs (arg n "xFrom") in
    let ys := from_outputs outputs (arg n "yFrom") in
    Return (VNum (t_correlation pf xs ys))
  else
    (* "Unknown function ..., returning input." *)
    Return (nullish_or (from_outputs outputs (arg n "from")) VNull).

End TransformRunner.

(* ================================================================== *)
(** ** Main runner *)

Record node_state {num : Type} : Type := {
  the_node : node num;
  node_status : status;
  error_message : option string
}.
Arguments node_state : clear implicits.

Record log_entry : Type := {
  log_node_id : string;
  log_status : string;               (* 'ok' | 'error' *)
  log_attempts : Z;
  log_fallback_used : option bool;
  log_error : option string
}.

Record error_entry : Type := {
  err_node_id : string;
  err_error : string
}.

(** A published event with the state its payload shows.  [publish] is
    handed the live [nodes] and [edges] arrays and the server serialises
    them before it returns, so the event records their contents at the
    time of the call. *)
Record event {num : Type} : Type := {
  ev_name : string;                  (* 'node_start' | 'node_complete' | 'node_fail' *)
  ev_nodeId : string;
  ev_error : option string;
  ev_nodes : list (node_state num);
  ev_edges : list edge
}.
Arguments event : clear implicits.

(** One invocation of [runHttpNode] by the engine, with what it did. *)
Record dispatch {num : Type} : Type := {
  site_node : nat;
  site_item : option nat;
  trace : list (effect num)
}.
Arguments dispatch : clear implicits.

Record run_state {num : Type} : Type := {
  nodes : list (node_state num);
  edges : list edge;
  outputs : list (string * value num);
  runLog : list log_entry;
  errors : list error_entry;
  apiCalls : Z;
  events : list (event num);
  network : list (dispatch num)
}.
Arguments run_state : clear implicits.

Record run_record {num : Type} : Type := {
  rec_outputs : list (string * value num);   (* [finalOutputs] *)
  rec_log : list log_entry;
  rec_errors : list error_entry;
  rec_apiCalls : Z;
  final : run_state num                      (* the locals when the loop ends *)
}.
Arguments run_record : clear implicits.

Section MainRunner.
Context {num : Type} `{JsNumber num}.
Variable pf : platform num.
Variable useMocks : bool.
Variable ctx_context : value num.        (* [ctx.context] *)

(** [l[i] = x] for [i < l.length] *)
Fixpoint replace_nth {A} (i : nat) (x : A) (l : list A) : list A :=
  match l, i with
  | [], _ => []
  | _ :: l', O => x :: l'
  | y :: l', S i' => y :: replace_nth i' x l'
  end.

Definition set_status (i : nat) (s : status) (msg : option string)
  (ns : list (node_state num)) : list (node_state num) :=
  match nth_error ns i with
  | Some n =>
      replace_nth i {| the_node := the_node n; node_status := s;
                       error_message := match msg with
                                        | Some m => Some m
                                        | None => error_message n
                                        end |} ns
  | None => ns
  end.

(** [edges.forEach(edge => { if (p(edge)) edge.status = s; })] *)
Definition mark_edges (p : edge -> bool) (s : status) (es : list edge) : list edge :=
  map (fun e => if p e then {| from := from e; to := to e; edge_status := s |} else e) es.

(** [e?.message || String(e)] for an [Error] *)
Definition error_text (message : string) : string :=
  if String.eqb message "" then "Error" else message.

(** *** Fan-out *)

Record fan_acc : Type := {
  merged : list (string * value num);
  fan_errors : list error_entry;
  maxAttempts : Z;
  anyFallback : bool
}.

(** [if (!merged[k]) merged[k] = new Array(cap).fill(null); merged[k][j] = x] *)
Definition put_cell (cap : nat) (k : string) (j : nat) (x : value num)
  (m : list (string * value num)) : list (string * value num) :=
  let column := match lookup k m with
                | Some (VArr col) => col
                | _ => repeat VNull cap
                end in
  set_field k (VArr (replace_nth j x column)) m.

Definition merge_call (n : node num) (cap : nat) (acc : fan_acc)
  (js : nat * outcome (http_result num)) : fan_acc :=
  let j := fst js in
  match snd js with
  | Return r =>
      {| merged :=
           fold_left
             (fun m kv =>
                let val := snd kv in
                put_cell cap (fst kv) j
                         (match val with VArr l => nth 0 l VUndefined | _ => val end) m)
             (spread (or_else (data r) (VObj []))) (merged acc);
         fan_errors := fan_errors acc;
         maxAttempts := Z.max (maxAttempts acc) (attempts r);
         anyFallback := anyFallback acc || fallbackUsed r |}
  | Throw message =>
      {| merged :=
           fold_left (fun m kv => put_cell cap (fst kv) j VNull m)
                     (spread (or_else (map_ n) (VObj []))) (merged acc);
         fan_errors :=
           fan_errors acc ++
           [{| err_node_id := id n ++ "[" ++ show_nat j ++ "]";
               err_error := error_text message |}];
         maxAttempts := Z.max (maxAttempts acc) (retry_times n + 1);
         anyFallback := anyFallback acc |}
  end.

(** The number of calls a fan-out dispatches:
    [Math.min(node.fanout.max || baseArr.length, baseArr.length)]. *)
Definition fanout_cap (f : fanout_spec) (len : nat) : Z :=
  Z.min (match max f with
         | Some m => if (m =? 0)%Z then Z.of_nat len else m
         | None => Z.of_nat len
         end)
        (Z.of_nat len).

(** The scope of the call for [item]. *)
Definition subScope (scope : value num) (f : fanout_spec) (item : value num) : value num :=
  VObj (fold_left
          (fun sc km => set_field (fst km) (get_opt item (snd km)) sc)
          (mapping f)
          [("outputs", get scope "outputs"); ("context", get scope "context");
           ("_origin", get scope "_origin")]).

(** The calls of a fan-out, in dispatch order, each with its own trace and
    how it settled. *)
Definition fanout_base (f : fanout_spec) (scope : value num) : list (value num) :=
  asRows (or_else (resolvePathLike pf scope (VStr (over f))) (VArr [])).

Definition fanout_calls (i : nat) (n : node num) (f : fanout_spec) (scope : value num)
  (spec_origin : value num)
  : list (list (effect num) * outcome (http_result num)) :=
  let baseArr := fanout_base f scope in
  let cap := fanout_cap f (List.length baseArr) in
  map (fun j =>
         let item := nth j baseArr VUndefined in
         let (t, r) := runHttpNode pf n (subScope scope f item) useMocks spec_origin
                                   (i, Some j) in
         ((if useMocks then t else SleepJitter :: t), r))
      (seq 0 (Z.to_nat cap)).

Definition merge_calls (n : node num) (cap : nat)
  (settled : list (outcome (http_result num))) : fan_acc :=
  fold_left (merge_call n cap)
            (combine (seq 0 (List.length settled)) settled)
            {| merged := []; fan_errors := []; maxAttempts := 1; anyFallback := false |}.

(** *** One turn of the loop over the nodes *)

(** What the [try] block computes for a node: the calls it made, the
    scoped errors it pushed, whether it counted an API call, and
    [resultData], [attempts], [fallbackUsed], or the exception. *)
Definition node_body (i : nat) (n : node num) (st : run_state num)
  (spec_origin : value num)
  : list (dispatch num) * list error_entry * Z
    * outcome (value num * Z * bool) :=
  let scope := VObj [("outputs", VObj (outputs st));
                     ("context", or_else ctx_context (VObj []));
                     ("_origin", spec_origin)] in
  if String.eqb (type n) "http" then
    match fanout n with
    | Some f =>
        if negb (String.eqb (over f) "") then
          let calls := fanout_calls i n f scope spec_origin in
          let cap := Z.to_nat (fanout_cap f (List.length (fanout_base f scope))) in
          let acc := merge_calls n cap (map snd calls) in
          (map (fun jc => {| site_node := i; site_item := Some (fst jc);
                             trace := fst (snd jc) |})
               (combine (seq 0 (List.length calls)) calls),
           fan_errors acc, 1%Z,
           Return (VObj (merged acc), maxAttempts acc, anyFallback acc))
        else
          let (t, r) := runHttpNode pf n scope useMocks spec_origin (i, None) in
          ([{| site_node := i; site_item := None; trace := t |}], [], 1%Z,
           r <- r ;; Return (data r, attempts r, fallbackUsed r))
    | None =>
        let (t, r) := runHttpNode pf n scope useMocks spec_origin (i, None) in
        ([{| site_node := i; site_item := None; trace := t |}], [], 1%Z,
         r <- r ;; Return (data r, attempts r, fallbackUsed r))
    end
  else if String.eqb (type n) "transform" then
    ([], [], 0%Z,
     r <- runTransformNode pf n (outputs st) ;; Return (r, 1%Z, false))
  else ([], [], 0%Z, Return (VNull, 1%Z, false)).

Definition exec_node (spec_origin : value num) (st : run_state num) (i : nat)
  : run_state num :=
  match nth_error (nodes st) i with
  | None => st
  | Some ns =>
      let n := the_node ns in
      (* node.status = 'running'; incoming edges; publish('node_start') *)
      let nodes1 := set_status i running None (nodes st) in
      let edges1 := mark_edges (fun e => String.eqb (to e) (id n)) running (edges st) in
      let start := {| ev_name := "node_start"; ev_nodeId := id n; ev_error := None;
                      ev_nodes := nodes1; ev_edges := edges1 |} in
      let '(net, scoped, calls, result) := node_body i n st spec_origin in
      match result with
      | Return (resultData, attempts_, fallbackUsed_) =>
          let nodes2 := set_status i completed None nodes1 in
          let edges2 :=
            mark_edges (fun e => String.eqb (from e) (id n)) completed edges1 in
          {| nodes := nodes2;
             edges := edges2;
             outputs := set_field (id n) resultData (outputs st);
             runLog := runLog st ++
                       [{| log_node_id := id n; log_status := "ok";
                           log_attempts := attempts_;
                           log_fallback_used := Some fallbackUsed_;
                           log_error := None |}];
             errors := errors st ++ scoped;
             apiCalls := (apiCalls st + calls)%Z;
             events := events st ++
                       [start;
                        {| ev_name := "node_complete"; ev_nodeId := id n;
                           ev_error := None; ev_nodes := nodes2; ev_edges := edges2 |}];
             network := network st ++ net |}
      | Throw message =>
          let errorMsg := error_text message in
          let nodes2 := set_status i failed (Some errorMsg) nodes1 in
          let edges2 :=
            mark_edges (fun e => String.eqb (from e) (id n)) failed edges1 in
          {| nodes := nodes2;
             edges := edges2;
             outputs := outputs st;
             runLog := runLog st ++
                       [{| log_node_id := id n; log_status := "error";
                           log_attempts := 1;
                           log_fallback_used := None;
                           log_error := Some errorMsg |}];
             errors := errors st ++ scoped ++
                       [{| err_node_id := id n; err_error := errorMsg |}];
             apiCalls := (apiCalls st + calls)%Z;
             events := events st ++
                       [start;
                        {| ev_name := "node_fail"; ev_nodeId := id n;
                           ev_error := Some errorMsg;
                           ev_nodes := nodes2; ev_edges := edges2 |}];
             network := network st ++ net |}
      end
  end.

Definition initial_state (ns : list (node num)) (es : list edge) : run_state num :=
  {| nodes := map (fun n => {| the_node := n; node_status := pending;
                               error_message := None |}) ns;
     edges := map (fun e => {| from := from e; to := to e;
                               edge_status := pending |}) es;
     outputs := [];
     runLog := [];
     errors := [];
     apiCalls := 0;
     events := [];
     network := [] |}.

(** [{ ...outputs, ranked_list, correlation, count }] *)
Definition finalOutputs (outs : list (string * value num)) : list (string * value num) :=
  let out k := match lookup k outs with Some v => v | None => VUndefined end in
  let joined := get (or_else (out "t1_join") (VArr [])) "length" in
  set_field "count" joined
    (set_field "correlation"
       (VObj [("x", VStr "quality"); ("y", VStr "eta_seconds");
              ("pearson_r", nullish_or (out "t4_corr") (VNum (of_Z 0)));
              ("n", joined)])
       (set_field "ranked_list" (or_else (out "t3_top") (VArr [])) outs)).

(** [executePipeline(spec, ctx)].  The clones of [spec.nodes] and
    [spec.edges] are taken before the guard on the specification, so a
    specification without them ends in the [TypeError] of the property
    access. *)
Definition executePipeline (sp : option (spec num)) : outcome (run_record num) :=
  match sp with
  | None => Throw "Cannot read properties of undefined (reading 'nodes')"
  | Some sp =>
      match spec_nodes sp, spec_edges sp with
      | Absent, _ => Throw "Cannot read properties of undefined (reading 'map')"
      | NotArray, _ => Throw "spec.nodes.map is not a function"
      | Items _, Absent => Throw "Cannot read properties of undefined (reading 'map')"
      | Items _, NotArray => Throw "spec.edges.map is not a function"
      | Items ns, Items es =>
          let st := fold_left (exec_node (_origin sp))
                              (seq 0 (List.length ns))
                              (initial_state ns es) in
          Return {| rec_outputs := finalOutputs (outputs st);
                    rec_log := runLog st;
                    rec_errors := errors st;
                    rec_apiCalls := apiCalls st;
                    final := st |}
      end
  end.

End MainRunner.

(* ================================================================== *)
(** ** The [/run] handler of the server

    The handler of backend/planner.js (server part).  The planner is an
    input: what [plan] returned, or the exception it threw.  Of the
    response only the status code, the [status] field, the errors and the
    run log are kept; the summary text, the projection of the ranked rows
    and the health figures are formatting. *)

Inductive sse {num : Type} : Type :=
| planning_start
| planning_complete (ns : list (node num)) (es : field edge)
| execution_start
| published (e : event num)                  (* relayed from the engine *)
| pipeline_complete (ns : list (node_state num)) (es : list edge)
| error (message : string)
| pipeline_complete_error (message : string).
Arguments sse : clear implicits.

Inductive response : Type :=
| json (log : list log_entry) (errs : list error_entry)   (* 200, status 'ok' *)
| status_json (code : nat) (message : string).             (* status 'error' *)

Section Server.
Context {num : Type} `{JsNumber num}.
Variable pf : platform num.
Variable useMocks : bool.

(** [!spec || !Array.isArray(spec.nodes) || spec.nodes.length === 0] *)
Definition invalid_spec (sp : option (spec num)) : bool :=
  match sp with
  | None => true
  | Some sp =>
      match spec_nodes sp with
      | Items (_ :: _) => false
      | _ => true
      end
  end.

(** The final state the handler rebuilds from the log. *)
Definition finalNodes (ns : list (node num)) (log : list log_entry)
  (errs : list error_entry) : list (node_state num) :=
  map (fun n =>
         {| the_node := n;
            node_status :=
              match List.find (fun l => String.eqb (log_node_id l) (id n)) log with
              | Some l => if String.eqb (log_status l) "ok" then completed else failed
              | None => pending
              end;
            error_message :=
              option_map err_error
                (List.find (fun e => String.eqb (err_node_id e) (id n)) errs) |})
      ns.

Definition finalEdges (es : list edge) (fns : list (node_state num)) : list edge :=
  map (fun e =>
         {| from := from e; to := to e;
            edge_status :=
              match List.find (fun n => String.eqb (id (the_node n)) (from e)) fns with
              | Some n =>
                  match node_status n with
                  | completed => completed
                  | failed => failed
                  | _ => pending
                  end
              | None => pending
              end |})
      es.

Definition fail_run (emitted : list (sse num)) (message : string)
  : list (sse num) * response :=
  let errorMsg := error_text message in
  (emitted ++ [error errorMsg; pipeline_complete_error errorMsg],
   status_json 500 errorMsg).

Definition post_run (planned : outcome (option (spec num)))
  : list (sse num) * response :=
  let emitted := [planning_start] in
  match planned with
  | Throw message => fail_run emitted message
  | Return sp =>
      if invalid_spec sp then
        fail_run emitted "planner produced an empty or invalid spec"
      else
        match sp with
        | Some {| spec_nodes := Items ns; spec_edges := es |} =>
            let emitted := emitted ++ [planning_complete ns es; execution_start] in
            match executePipeline pf useMocks VUndefined sp with
            | Throw message => fail_run emitted message
            | Return r =>
                let emitted := emitted ++ map published (events (final r)) in
                let fns := finalNodes ns (rec_log r) (rec_errors r) in
                let fes := finalEdges (match es with Items l => l | _ => [] end) fns in
                (emitted ++ [pipeline_complete fns fes],
                 json (rec_log r) (rec_errors r))
            end
        | _ => fail_run emitted "planner produced an empty or invalid spec"
        end
  end.

End Server.

(* ================================================================== *)
(** ** The planner

    [plan] of backend/planner.js, on binary64.  [context] is an object;
    its [origin] and [radius_m] are the two values the planner reads.  Of
    the specification the fields the executor reads are kept ([name],
    [provider], [limits], [observability], [hints] and [_decision] are
    display data; [useMocks] only changes [hints]). *)

Definition double_quote : string := String (ascii_of_nat 34) EmptyString.
Definition newline : string := String (ascii_of_nat 10) EmptyString.

(** [Number.isFinite(x)] *)
Definition Number_isFinite (x : float) : bool := PrimFloat.is_finite x.

(** [s.includes(',')] *)
Definition includes_comma (s : string) : bool :=
  existsb (fun c => Ascii.eqb c ","%char) (chars s).

Definition planned_transform (id_ fn_ : string) (args_ : value float) : node float :=
  {| id := id_; type := "transform"; method := None; url := "";
     headers := None; params := None; body := None; compose := None;
     map_ := VUndefined; retry := None; timeout_ms := None; fanout := None;
     fallback := false; fn := fn_; args := args_ |}.

Definition planned_nodes (overpassData : string) : list (node float) :=
  [ {| id := "n1_overpass"; type := "http"; method := Some "POST";
       url := "https://overpass.kumi.systems/api/interpreter";
       headers := Some [("Content-Type", VStr "application/x-www-form-urlencoded")];
       params := None;
       body := Some [("data", VStr overpassData)];
       compose := None;
       map_ := VObj [("name", VStr "$.elements[*].tags.name");
                     ("lat", VStr "$.elements[*].lat");
                     ("lon", VStr "$.elements[*].lon");
                     ("cuisine", VStr "$.elements[*].tags.cuisine");
                     ("opening_hours", VStr "$.elements[*].tags.opening_hours");
                     ("outdoor_seating", VStr "$.elements[*].tags.outdoor_seating");
                     ("wheelchair", VStr "$.elements[*].tags.wheelchair");
                     ("address", VStr "$.elements[*].tags['addr:street']")];
       retry := Some {| times := Some 2%Z; backoff_ms := Some 300%Z |};
       timeout_ms := Some 9000%Z; fanout := None; fallback := false;
       fn := ""; args := VUndefined |};
    {| id := "n2_eta"; type := "http"; method := Some "GET";
       url := "https://router.project-osrm.org/table/v1/driving/{{compose.dest_coords_csv}}";
       headers := None;
       params := Some [("sources", VStr "0")];
       body := None;
       compose := Some [("dest_coords_csv",
                         VStr "{{join_coords(outputs.n1_overpass.lat, outputs.n1_overpass.lon)}}")];
       map_ := VObj [("eta_seconds", VStr "$.durations[0][*]")];
       retry := Some {| times := Some 2%Z; backoff_ms := Some 300%Z |};
       timeout_ms := Some 4000%Z; fanout := None; fallback := false;
       fn := ""; args := VUndefined |};
    {| id := "n3_weather"; type := "http"; method := Some "GET";
       url := "https://api.open-meteo.com/v1/forecast";
       headers := None;
       params := Some [("latitude", VStr "{{lat}}"); ("longitude", VStr "{{lon}}");
                       ("current", VStr "temperature_2m,precipitation")];
       body := None; compose := None;
       map_ := VObj [("temp_c", VStr "$.current.temperature_2m");
                     ("precip", VStr "$.current.precipitation")];
       retry := Some {| times := Some 1%Z; backoff_ms := Some 200%Z |};
       timeout_ms := Some 2500%Z;
       fanout := Some {| over := "outputs.n1_overpass"; max := Some 12%Z;
                         mapping := [("lat", "lat"); ("lon", "lon")] |};
       fallback := false; fn := ""; args := VUndefined |};
    planned_transform "t1_join" "join_on_index"
      (VObj [("left", VStr "outputs.n1_overpass");
             ("rightArrays", VArr [VStr "outputs.n2_eta.eta_seconds";
                                   VStr "outputs.n3_weather.precip";
                                   VStr "outputs.n3_weather.temp_c"]);
             ("rightKeys", VArr [VStr "eta_seconds"; VStr "precip"; VStr "temp_c"])]);
    planned_transform "t_osm_quality" "compute_osm_quality"
      (VObj [("from", VStr "outputs.t1_join");
             ("fields", VObj [("cuisine", VStr "cuisine");
                              ("opening_hours", VStr "opening_hours");
                              ("outdoor_seating", VStr "outdoor_seating");
                              ("wheelchair", VStr "wheelchair")])]);
    planned_transform "t2_score" "compute_score"
      (VObj [("from", VStr "outputs.t_osm_quality"); ("ratingKey", VStr "quality");
             ("etaKey", VStr "eta_seconds"); ("precipKey", VStr "precip")]);
    planned_transform "t3_top" "top_n"
      (VObj [("from", VStr "outputs.t2_score"); ("n", VNum (float_of_Z 5))]);
    planned_transform "t4_corr" "correlation"
      (VObj [("xFrom", VStr "outputs.t_osm_quality.quality[*]");
             ("yFrom", VStr "outputs.n2_eta.eta_seconds")]) ].

Definition planned_edges : list edge :=
  map (fun ft => {| from := fst ft; to := snd ft; edge_status := pending |})
      [("n1_overpass", "n2_eta"); ("n1_overpass", "n3_weather");
       ("n1_overpass", "t1_join"); ("n2_eta", "t1_join"); ("n3_weather", "t1_join");
       ("t1_join", "t_osm_quality"); ("t_osm_quality", "t2_score");
       ("t_osm_quality", "t4_corr"); ("n2_eta", "t4_corr"); ("t2_score", "t3_top")].

Definition plan (pf : platform float) (context_origin context_radius_m : value float)
  (useMocks : bool) : outcome (spec float) :=
  let originStr := trim (String_ pf (or_else context_origin (VStr ""))) in
  let radius := Number pf context_radius_m in
  let radius_m := if Number_isFinite radius then radius else float_of_Z 800 in
  let origin := if String.eqb originStr "" || negb (includes_comma originStr)
                then VStr "37.8715,-122.2730"
                else context_origin in
  match origin with
  | VStr s =>
      let parts := map trim (split "," s) in
      let latStr := nth 0 (map VStr parts) VUndefined in
      let lonStr := nth 1 (map VStr parts) VUndefined in
      let lat := Number pf latStr in
      let lon := Number pf lonStr in
      if negb (Number_isFinite lat) || negb (Number_isFinite lon)
      then Throw "planner: invalid context.origin coordinates"
      else
        let overpassData :=
          join newline
            ["[out:json][timeout:25];";
             ("node[" ++ double_quote ++ "amenity" ++ double_quote ++ "="
              ++ double_quote ++ "restaurant" ++ double_quote ++ "](around:"
              ++ NumberToString pf radius_m ++ "," ++ NumberToString pf lat ++ ","
              ++ NumberToString pf lon ++ ");")%string;
             "out;"] in
        Return {| spec_nodes := Items (planned_nodes overpassData);
                  spec_edges := Items planned_edges;
                  _origin := VObj [("lat", VNum lat); ("lon", VNum lon)] |}
  | _ => Throw "context.origin.split is not a function"
  end.

(** *** The fallback planner

    The second planner of backend/planner.js, which plans without a
    model.  Its [parseLatLon] replaces an origin it cannot read by the
    default coordinates instead of throwing, and the specification
    [buildDefaultSpec] returns has the nodes of the first planner (with
    [by] and [desc] written out for [t3_top]) and no [edges]. *)
Module Fallback.

Definition parseLatLon (pf : platform float) (originStr : value float) : value float :=
  let parts := map trim (split "," (String_ pf originStr)) in
  let lat := Number pf (nth 0 (map VStr parts) VUndefined) in
  let lon := Number pf (nth 1 (map VStr parts) VUndefined) in
  if Number_isFinite lat && Number_isFinite lon && Number_isFinite lon
  then VObj [("lat", VNum lat); ("lon", VNum lon)]
  else VObj [("lat", VNum (dec 378715 4)); ("lon", VNum (dec (-1222730) 4))].

Definition buildDefaultSpec (pf : platform float) (origin : value float)
  (radius_m : float) (useMocks : bool) : spec float :=
  let radius := Number pf (or_else (VNum radius_m) (VNum (float_of_Z 800))) in
  let overpassQL :=
    ("[out:json][timeout:25];" ++ newline
     ++ "node[" ++ double_quote ++ "amenity" ++ double_quote ++ "="
     ++ double_quote ++ "restaurant" ++ double_quote ++ "](around:"
     ++ String_ pf (VNum radius) ++ "," ++ String_ pf (get origin "lat") ++ ","
     ++ String_ pf (get origin "lon") ++ ");" ++ newline ++ "out;")%string in
  {| spec_nodes :=
       Items
         [ {| id := "n1_overpass"; type := "http"; method := Some "POST";
              url := "https://overpass.kumi.systems/api/interpreter";
              headers := Some [("Content-Type", VStr "application/x-www-form-urlencoded")];
              params := None;
              body := Some [("data", VStr overpassQL)];
              compose := None;
              map_ := VObj [("name", VStr "$.elements[*].tags.name");
                            ("lat", VStr "$.elements[*].lat");
                            ("lon", VStr "$.elements[*].lon");
                            ("cuisine", VStr "$.elements[*].tags.cuisine");
                            ("opening_hours", VStr "$.elements[*].tags.opening_hours");
                            ("outdoor_seating", VStr "$.elements[*].tags.outdoor_seating");
                            ("wheelchair", VStr "$.elements[*].tags.wheelchair");
                            ("address", VStr "$.elements[*].tags['addr:street']")];
              retry := Some {| times := Some 2%Z; backoff_ms := Some 300%Z |};
              timeout_ms := Some 9000%Z; fanout := None; fallback := false;
              fn := ""; args := VUndefined |};
           {| id := "n2_eta"; type := "http"; method := Some "GET";
              url := "https://router.project-osrm.org/table/v1/driving/{{compose.dest_coords_csv}}";
              headers := None;
              params := Some [("sources", VStr "0")];
              body := None;
              compose := Some [("dest_coords_csv",
                                VStr "{{join_coords(outputs.n1_overpass.lat, outputs.n1_overpass.lon)}}")];
              map_ := VObj [("eta_seconds", VStr "$.durations[0][*]")];
              retry := Some {| times := Some 2%Z; backoff_ms := Some 300%Z |};
              timeout_ms := Some 4000%Z; fanout := None; fallback := false;
              fn := ""; args := VUndefined |};
           {| id := "n3_weather"; type := "http"; method := Some "GET";
              url := "https://api.open-meteo.com/v1/forecast";
              headers := None;
              params := Some [("latitude", VStr "{{lat}}"); ("longitude", VStr "{{lon}}");
                              ("current", VStr "temperature_2m,precipitation")];
              body := None; compose := None;
              map_ := VObj [("temp_c", VStr "$.current.temperature_2m");
                            ("precip", VStr "$.current.precipitation")];
              retry := Some {| times := Some 1%Z; backoff_ms := Some 200%Z |};
              timeout_ms := Some 2500%Z;
              fanout := Some {| over := "outputs.n1_overpass"; max := Some 12%Z;
                                mapping := [("lat", "lat"); ("lon", "lon")] |};
              fallback := false; fn := ""; args := VUndefined |};
           planned_transform "t1_join" "join_on_index"
             (VObj [("left", VStr "outputs.n1_overpass");
                    ("rightArrays", VArr [VStr "outputs.n2_eta.eta_seconds";
                                          VStr "outputs.n3_weather.precip";
                                          VStr "outputs.n3_weather.temp_c"]);
                    ("rightKeys", VArr [VStr "eta_seconds"; VStr "precip"; VStr "temp_c"])]);
           planned_transform "t_osm_quality" "compute_osm_quality"
             (VObj [("from", VStr "outputs.t1_join");
                    ("fields", VObj [("cuisine", VStr "cuisine");
                                     ("opening_hours", VStr "opening_hours");
                                     ("outdoor_seating", VStr "outdoor_seating");
                                     ("wheelchair", VStr "wheelchair")])]);
           planned_transform "t2_score" "compute_score"
             (VObj [("from", VStr "outputs.t_osm_quality"); ("ratingKey", VStr "quality");
                    ("etaKey", VStr "eta_seconds"); ("precipKey", VStr "precip")]);
           planned_transform "t3_top" "top_n"
             (VObj [("from", VStr "outputs.t2_score"); ("n", VNum (float_of_Z 5));
                    ("by", VStr "score"); ("desc", VBool true)]);
           planned_transform "t4_corr" "correlation"
             (VObj [("xFrom", VStr "outputs.t_osm_quality.quality[*]");
                    ("yFrom", VStr "outputs.n2_eta.eta_seconds")]) ];
     spec_edges := Absent;
     _origin := origin |}.

Definition plan (pf : platform float) (context_origin context_radius_m : value float)
  (useMocks : bool) : spec float :=
  let origin := parseLatLon pf (or_else context_origin (VStr "37.8715,-122.2730")) in
  let radius := Number pf context_radius_m in
  let radius_m := if Number_isFinite radius then radius else float_of_Z 800 in
  buildDefaultSpec pf origin radius_m useMocks.

End Fallback.

(* ================================================================== *)
(** * The vocabulary of the properties *)

(** ** The node loop *)

Definition is_terminal (s : status) : Prop := s = completed \/ s = failed.

Definition statuses {num : Type} (ns : list (node_state num)) : list status :=
  map node_status ns.

(** What one turn of the loop does to the state: the node ends completed
    with its output stored, or failed with the store untouched, and two
    events are published in between. *)
Definition turn {num : Type} (st st' : run_state num) (i : nat) (n : node num)
  (t : status) : Prop :=
  map the_node (nodes st') = map the_node (nodes st)
  /\ statuses (nodes st') = replace_nth i t (statuses (nodes st))
  /\ exists e1 e2,
      events st' = events st ++ [e1; e2]
      /\ ev_name e1 = "node_start" /\ ev_nodeId e1 = id n
      /\ statuses (ev_nodes e1) = replace_nth i running (statuses (nodes st))
      /\ ev_nodeId e2 = id n
      /\ statuses (ev_nodes e2) = replace_nth i t (statuses (nodes st))
      /\ ((t = completed /\ ev_name e2 = "node_complete"
           /\ exists v, outputs st' = set_field (id n) v (outputs st))
          \/ (t = failed /\ ev_name e2 = "node_fail"
              /\ outputs st' = outputs st)).

(** What a subscriber sees of an event: its name, its node and the status
    of every node in its snapshot. *)
Definition observation : Type := string * string * list status.

Definition observe {num : Type} (e : event num) : observation :=
  (ev_name e, ev_nodeId e, statuses (ev_nodes e)).

Definition terminal_event (t : status) : string :=
  match t with completed => "node_complete" | _ => "node_fail" end.

(** The two events of turn [i] in a run over nodes [ids] that end in the
    states [ts]: at the start every earlier node is in its terminal state,
    node [i] is running and every later node is pending; at the end node
    [i] has reached its own terminal state. *)
Definition turn_observations (ids : list string) (ts : list status) (i : nat)
  : list observation :=
  let later := repeat pending (List.length ids - S i) in
  [("node_start", nth i ids "", firstn i ts ++ running :: later);
   (terminal_event (nth i ts pending), nth i ids "", firstn (S i) ts ++ later)].

(** The state after the first [k] turns. *)
Definition run_upto {num : Type} `{JsNumber num} (pf : platform num)
  (useMocks : bool) (ctx_context o : value num) (ns : list (node num))
  (es : list edge) (k : nat) : run_state num :=
  fold_left (exec_node pf useMocks ctx_context o) (seq 0 k) (initial_state ns es).

(** What holds between two turns: the first [k] nodes are terminal, the
    others pending, and the events so far are those of the first [k]
    turns. *)
Definition run_invariant {num : Type} (ns : list (node num)) (k : nat)
  (st : run_state num) : Prop :=
  map the_node (nodes st) = ns
  /\ exists ts,
      List.length ts = k
      /\ Forall is_terminal ts
      /\ statuses (nodes st) = ts ++ repeat pending (List.length ns - k)
      /\ map observe (events st)
         = flat_map (turn_observations (map id ns) ts) (seq 0 k).

(** The store holds a key exactly when a node with that id has completed. *)
Definition store_invariant {num : Type} (ns : list (node num)) (k : nat)
  (st : run_state num) : Prop :=
  forall key,
    has_field key (outputs st) = true
    <-> exists j, j < k /\ nth j (map id ns) "" = key
                  /\ nth j (statuses (nodes st)) pending = completed.

(** ** Transforms and specifications *)

Definition known_transforms : list string :=
  ["join_on_index"; "compute_osm_quality"; "compute_score"; "top_n"; "correlation"].

Definition invalid_spec_message : string := "planner produced an empty or invalid spec".

(** The message of the guard of [executePipeline]. *)
Definition engine_guard_message : string :=
  "executePipeline requires a spec with a nodes array.".

(** ** Retries *)

Definition attempt_call (site : nat * option nat) (a : nat) : call_id :=
  {| call_node := fst site; call_item := snd site; call_attempt := a |}.

(** The effects of [k] attempts numbered from [first]: every attempt but
    the last is followed by the delay [backoff * 2^(attempt - 1)]. *)
Definition backoff_trace {num : Type} (site : nat * option nat) (r : request num)
  (backoff : Z) (first k : nat) : list (effect num) :=
  flat_map (fun a => [Request (attempt_call site a) r;
                      Sleep (backoff * 2 ^ (Z.of_nat a - 1))])
           (seq first (k - 1))
  ++ [Request (attempt_call site (first + (k - 1))) r].

Definition exhausted_error {num : Type} (n : node num) (k : nat) (message : string)
  : string :=
  if fallback n
  then "Node " ++ id n ++ " failed after " ++ show_nat k ++ " attempts: " ++ message
  else message.

(** ** Fan-out *)

Definition is_request {num : Type} (e : effect num) : bool :=
  match e with Request _ _ => true | _ => false end.

(** The attempts a call made: the requests in its trace. *)
Definition requests_made {num : Type} (t : list (effect num)) : nat :=
  List.length (filter is_request t).

(** The attempt count the merge charges a settled call with. *)
Definition call_attempts {num : Type} (n : node num) (s : outcome (http_result num)) : Z :=
  match s with
  | Return r => attempts r
  | Throw _ => (retry_times n + 1)%Z
  end.

(** One entry scoped to [id[j]] for every rejected call, in position order. *)
Definition scoped_errors {num : Type} (n : node num)
  (settled : list (outcome (http_result num))) : list error_entry :=
  flat_map (fun js => match snd js with
                      | Throw m => [{| err_node_id := id n ++ "[" ++ show_nat (fst js) ++ "]";
                                       err_error := error_text m |}]
                      | Return _ => []
                      end)
           (combine (seq 0 (List.length settled)) settled).

(** Every column has [cap] cells, and the cells of the positions in [bad]
    hold [null]. *)
Definition columns_ok {num : Type} (cap : nat) (bad : nat -> Prop)
  (m : list (string * value num)) : Prop :=
  forall k col, lookup k m = Some col ->
    exists l, col = VArr l /\ List.length l = cap
              /\ forall j, bad j -> nth j l VUndefined = VNull.

(** ** Sorting and ranking *)

(** [after cmp y x]: the comparator orders [y] strictly after [x]. *)
Definition after {num : Type} `{JsNumber num} (cmp : value num -> value num -> num)
  (y x : value num) : bool :=
  positive (cmp y x).

Definition in_order {num : Type} `{JsNumber num} (cmp : value num -> value num -> num)
  (a b : value num) : Prop :=
  after cmp a b = false.

(** [same cmp r z]: the comparator orders neither of [r], [z] after the
    other. *)
Definition same {num : Type} `{JsNumber num} (cmp : value num -> value num -> num)
  (r z : value num) : bool :=
  negb (after cmp r z) && negb (after cmp z r).

(** The order laws [t_top_n] relies on: on numbers that are not NaN, [<] is
    a strict weak order and the sign of a difference tells the order of
    its operands (two infinities of one sign give NaN, which [sort] reads
    as a tie); [x || 0] is 0 for the value [NaN], and a number that [===]
    0 compares like 0 (the two zeros of binary64).  Both the reals and
    binary64 have them. *)
Class OrderLaws (num : Type) `{JsNumber num} : Prop := {
  zero_is_number : isNaN (of_Z 0) = false;
  nan_counts_as_zero : isNaN NaN || (NaN =? of_Z 0)%js = true;
  zero_ltb : forall a b, (a =? of_Z 0)%js = true ->
              (a <? b)%js = (of_Z 0 <? b)%js /\ (b <? a)%js = (b <? of_Z 0)%js;
  lt_asym : forall a b, isNaN a = false -> isNaN b = false ->
              (a <? b)%js = true -> (b <? a)%js = false;
  lt_negtrans : forall a b c,
              isNaN a = false -> isNaN b = false -> isNaN c = false ->
              (a <? b)%js = false -> (b <? c)%js = false -> (a <? c)%js = false;
  sub_sign : forall a b, isNaN a = false -> isNaN b = false ->
              (of_Z 0 <? b - a)%js = (a <? b)%js
}.




(** The place of a binary64 number in the order its comparison decides:
    by class and sign, then exponent, then mantissa. *)
Definition rank (x : spec_float) : Z * Z * Z :=
  match x with
  | S754_nan => (0, 0, 0)
  | S754_zero _ => (0, 0, 0)
  | S754_infinity s => (if s then -2 else 2, 0, 0)
  | S754_finite s m e => if s then (-1, - e, - Zpos m) else (1, e, Zpos m)
  end%Z.

Definition below (a b : Z * Z * Z) : Prop :=
  let '(a1, a2, a3) := a in
  let '(b1, b2, b3) := b in
  (a1 < b1 \/ (a1 = b1 /\ (a2 < b2 \/ (a2 = b2 /\ a3 < b3))))%Z.

(** ** Interpolation *)




(** ** Correlation *)

(** One step of the loop of [pearson] in exact arithmetic. *)
Definition exact_step (X Y : list R) (mx my : R) (acc : R * R * R) (i : nat)
  : R * R * R :=
  let '(num_, dx, dy) := acc in
  let vx := (nth i X 0 - mx)%R in
  let vy := (nth i Y 0 - my)%R in
  (num_ + vx * vy, dx + vx * vx, dy + vy * vy)%R.

(** The contract the written specification asks for, pair-then-filter: the
    values are paired by index and a pair is dropped when either member is
    not numeric; the coefficient is that of the pairs left. *)
Definition correlation_by_index {num : Type} `{JsNumber num} (pf : platform num)
  (xs ys : value num) : num :=
  let pairs :=
    filter (fun p => negb (isNaN (fst p)) && negb (isNaN (snd p)))
           (combine (map (Number pf) (items_of xs)) (map (Number pf) (items_of ys))) in
  pearson (map fst pairs) (map snd pairs).

(** ** Paths and templates *)

(** A path [resolvePathLike] walks part by part: it does not start like a
    JSONPath. *)
Definition dotted (e : string) : bool :=
  negb (startsWith "$." e || startsWith "$[" e).

Definition brace_free (s : string) : Prop :=
  forallb (is_not "{") (chars s) = true.

Definition dot_free (s : string) : Prop :=
  forallb (is_not ".") (chars s) = true.

(** ** Rows *)

(** One step of a loop that sets a field under a condition. *)
Definition put_if {num A : Type} (c : A -> bool) (key : A -> string)
  (val : A -> value num) (out : list (string * value num)) (x : A)
  : list (string * value num) :=
  if c x then set_field (key x) (val x) out else out.

(** The flags [t_compute_osm_quality] reads off a row. *)
Definition quality_flags {num : Type} `{JsNumber num} (pf : platform num)
  (fields row : value num) : list bool :=
  let f := or_else fields (VObj []) in
  [truthy (tag pf f row "cuisine"); truthy (tag pf f row "opening_hours");
   yes pf (tag pf f row "outdoor_seating"); yes pf (tag pf f row "wheelchair")].

(** An output that is missing or a list of rows. *)
Definition rows_or_nothing {num : Type} (v : option (value num)) : Prop :=
  v = None \/ exists l, v = Some (VArr l).

(** ** The log, the mocks and the edges of a run *)

(** The [status] of the log entry of a node that ended in a state. *)
Definition log_status_of (s : status) : string :=
  match s with completed => "ok" | _ => "error" end.

Definition is_http {num : Type} (n : node num) : bool := String.eqb (type n) "http".

(** What holds of the log and the call counter between two turns. *)
Definition log_invariant {num : Type} (ns : list (node num)) (k : nat)
  (st : run_state num) : Prop :=
  map log_node_id (runLog st) = firstn k (map id ns)
  /\ map log_status (runLog st) = map log_status_of (firstn k (statuses (nodes st)))
  /\ Forall (fun l => log_status l = "error" -> log_attempts l = 1%Z) (runLog st)
  /\ apiCalls st = Z.of_nat (List.length (filter is_http (firstn k ns)))
  /\ List.length (statuses (nodes st)) = List.length ns.

(** What holds of a run on mocks between two turns. *)
Definition mock_invariant {num : Type} (ns : list (node num)) (k : nat)
  (st : run_state num) : Prop :=
  Forall (fun d => trace d = [SleepJitter]) (network st)
  /\ (forall i n, i < k -> nth_error ns i = Some n -> is_http n = true ->
        nth i (statuses (nodes st)) pending = completed)
  /\ List.length (statuses (nodes st)) = List.length ns.

(** The position of a node id in the list of ids. *)
Fixpoint position (k : string) (ids : list string) : option nat :=
  match ids with
  | [] => None
  | x :: rest => if String.eqb k x then Some 0 else option_map S (position k rest)
  end.

(** The status of an edge once the first [k] nodes have run and ended in
    the states [ts]: [running] from the start of its target on, unless its
    source ended later than that; else the state its source ended in. *)
Definition edge_after (ids : list string) (k : nat) (ts : list status) (e : edge)
  : status :=
  match position (from e) ids, position (to e) ids with
  | Some p, Some q =>
      if (q <? k)%nat && ((k <=? p)%nat || (p <? q)%nat) then running
      else if (p <? k)%nat then nth p ts pending else pending
  | Some p, None => if (p <? k)%nat then nth p ts pending else pending
  | None, Some q => if (q <? k)%nat then running else pending
  | None, None => pending
  end.

(** What holds of the edges between two turns. *)
Definition edge_invariant {num : Type} (ns : list (node num)) (es : list edge)
  (k : nat) (st : run_state num) : Prop :=
  edges st
  = map (fun e => {| from := from e; to := to e;
                     edge_status := edge_after (map id ns) k (statuses (nodes st)) e |})
        es
  /\ List.length (statuses (nodes st)) = List.length ns.

(** ** The stream of the handler *)

(** The events that close a stream. *)
Definition is_closing {num : Type} (e : sse num) : bool :=
  match e with
  | pipeline_complete _ _ | pipeline_complete_error _ => true
  | _ => false
  end.

(* ================================================================== *)
(** * Example data

    The examples run on binary64.  The conversions between strings and
    numbers of the example platform cover integers, which is all the
    examples use; its [JSONPath] covers paths of the form [$.a.b]. *)

Definition parse_int (s : string) : option Z :=
  match chars s with
  | [] => Some 0%Z
  | c :: l =>
      if Ascii.eqb c "-"%char
      then option_map (fun n => (- Z.of_nat n)%Z)
                      (match l with [] => None | _ => index_digits l 0 end)
      else option_map Z.of_nat (index_digits (c :: l) 0)
  end.

Definition demo_platform (net : call_id -> request float -> outcome (value float))
  : platform float :=
  {| StringToNumber := fun s => match parse_int s with
                                | Some z => float_of_Z z
                                | None => PrimFloat.nan
                                end;
     NumberToString := fun x => if PrimFloat.is_nan x then "NaN"
                                else show_Z (float_trunc x);
     JSONPath := fun wrap path json =>
                   if startsWith "$." path then
                     let v := walk json (split "." (substring 2 (String.length path) path)) in
                     Some (if wrap
                           then match v with VUndefined => VArr [] | _ => VArr [v] end
                           else v)
                   else None;
     axios := net;
     URLSearchParams := fun kv => join "&" (map (fun p => (fst p ++ "=" ++ snd p)%string) kv);
     process_env := [];
     mockFor := fun _ => VObj [] |}.

(** No server answers. *)
Definition offline : platform float :=
  demo_platform (fun _ _ => Throw "connect ECONNREFUSED").

(** A decimal numeral as its digits and the number of digits behind the
    point. *)
Definition parse_decimal (s : string) : option (Z * nat) :=
  match split "." s with
  | [a] => option_map (fun z => (z, 0)) (parse_int a)
  | [a; b] => option_map (fun z => (z, String.length b)) (parse_int (a ++ b))
  | _ => None
  end.

(** [offline] with a [Number] that reads decimal numerals. *)
Definition offline_decimal : platform float :=
  {| StringToNumber := fun s => match parse_decimal s with
                                | Some (m, k) => dec m k
                                | None => PrimFloat.nan
                                end;
     NumberToString := NumberToString offline;
     JSONPath := JSONPath offline;
     axios := axios offline;
     URLSearchParams := URLSearchParams offline;
     process_env := process_env offline;
     mockFor := mockFor offline |}.

Definition http_node {num : Type} (id_ url_ : string) (retry_ : option retry_policy)
  (fanout_ : option fanout_spec) (map__ : value num) (fallback_ : bool) : node num :=
  {| id := id_; type := "http"; method := None; url := url_;
     headers := None; params := None; body := None; compose := None;
     map_ := map__; retry := retry_; timeout_ms := None; fanout := fanout_;
     fallback := fallback_; fn := ""; args := VUndefined |}.

Definition transform_node {num : Type} (id_ fn_ : string) (args_ : value num)
  : node num :=
  {| id := id_; type := "transform"; method := None; url := "";
     headers := None; params := None; body := None; compose := None;
     map_ := VUndefined; retry := None; timeout_ms := None; fanout := None;
     fallback := false; fn := fn_; args := args_ |}.

(** An HTTP node nobody answers, then a transform whose [fn] is no
    transform of the library. *)
Definition two_nodes : list (node float) :=
  [http_node "n1" "http://places.test/api" None None VUndefined false;
   transform_node "t9" "median" (VObj [("from", VStr "outputs.n1")])].

Definition two_nodes_spec : spec float :=
  {| spec_nodes := Items two_nodes;
     spec_edges := Items [{| from := "n1"; to := "t9"; edge_status := pending |}];
     _origin := VUndefined |}.

(** A node retried once, 10 ms apart; with and without a declared fallback. *)
Definition retried_node (fallback_ : bool) : node float :=
  http_node "n2_eta" "http://router.test/table"
            (Some {| times := Some 1%Z; backoff_ms := Some 10%Z |})
            None VUndefined fallback_.

Definition plain_request : request float :=
  {| req_method := "GET"; req_url := "http://router.test/table";
     req_headers := None; req_params := None; req_data := VUndefined;
     req_timeout := 9000 |}.

(** The fan-out scenario of the specification: five places, a weather node
    fanned out over them with the given cap, and a network in which the
    call for the second place times out. *)
Definition five_places : list (string * value float) :=
  [("n1", VObj [("lat", VArr (map (fun z => VNum (float_of_Z z)) [1; 2; 3; 4; 5]%Z));
                ("lon", VArr (map (fun z => VNum (float_of_Z z)) [10; 20; 30; 40; 50]%Z))])].

Definition weather_fanout (max_ : option Z) : fanout_spec :=
  {| over := "outputs.n1"; max := max_; mapping := [("lat", "lat"); ("lon", "lon")] |}.

Definition weather_node (max_ : option Z) : node float :=
  http_node "n3_weather" "http://weather.test/v1?latitude={{lat}}&longitude={{lon}}"
            None (Some (weather_fanout max_))
            (VObj [("temp_c", VStr "$.current.temp")]) false.

Definition second_times_out : platform float :=
  demo_platform
    (fun c _ =>
       match call_item c with
       | Some 1 => Throw "timeout of 9000ms exceeded"
       | Some j => Return (VObj [("current",
                                  VObj [("temp", VNum (float_of_Z (20 + Z.of_nat j)))])])
       | None => Throw "connect ECONNREFUSED"
       end).

Definition after_places : run_state float :=
  {| nodes := []; edges := []; outputs := five_places; runLog := []; errors := [];
     apiCalls := 1; events := []; network := [] |}.

Definition places_scope : value float :=
  VObj [("outputs", VObj five_places); ("context", VObj []); ("_origin", VUndefined)].

(** Rows with a name and a score. *)
Definition scored {num : Type} `{JsNumber num} (name : string) (score : Z) : value num :=
  VObj [("name", VStr name); ("score", VNum (of_Z score))].

Definition three_rows {num : Type} `{JsNumber num} : list (value num) :=
  [scored "a" 1; scored "b" 3; scored "c" 3].

(** The scope of the interpolation scenario of the specification. *)
Definition scenario_scope : value float :=
  VObj [("outputs",
         VObj [("a", VObj [("lat", VArr [VNum (float_of_Z 1); VNum (float_of_Z 2)]);
                           ("lon", VArr [VNum (float_of_Z 10); VNum (float_of_Z 20)])])]);
        ("_origin", VObj [("lat", VNum (float_of_Z 0)); ("lon", VNum (float_of_Z 0))])].

(** Two series of equal length whose non-numeric entries sit at different
    indices. *)
Definition shifted_xs : value float :=
  VArr [VNum (float_of_Z 1); VStr "n/a"; VNum (float_of_Z 2); VNum (float_of_Z 3)].

Definition shifted_ys : value float :=
  VArr [VNum (float_of_Z 1); VNum (float_of_Z 3); VStr "n/a"; VNum (float_of_Z 2)].

(* ================================================================== *)
(** * Properties *)

(** ** Lists updated in place *)

Lemma replace_nth_length {A} (i : nat) (x : A) (l : list A) :
  List.length (replace_nth i x l) = List.length l.
Proof.
  revert i; induction l as [|y l IH]; intros [|i]; simpl; auto.
Qed.

Lemma nth_replace_nth_eq {A} (i : nat) (x d : A) (l : list A) :
  i < List.length l -> nth i (replace_nth i x l) d = x.
Proof.
  revert i; induction l as [|y l IH]; intros [|i] Hi; simpl in *; try lia; auto.
  apply IH; lia.
Qed.

Lemma nth_replace_nth_ne {A} (i j : nat) (x d : A) (l : list A) :
  i <> j -> nth j (replace_nth i x l) d = nth j l d.
Proof.
  revert i j; induction l as [|y l IH]; intros [|i] [|j] Hij; simpl; auto; try lia.
Qed.

Lemma map_replace_nth {A B} (f : A -> B) (i : nat) (x : A) (l : list A) :
  map f (replace_nth i x l) = replace_nth i (f x) (map f l).
Proof.
  revert i; induction l as [|y l IH]; intros [|i]; simpl; auto.
  now rewrite IH.
Qed.

Lemma replace_nth_app_here {A} (x y : A) (l1 l2 : list A) :
  replace_nth (List.length l1) x (l1 ++ y :: l2) = l1 ++ x :: l2.
Proof.
  induction l1 as [|z l1 IH]; simpl; auto. now rewrite IH.
Qed.

Lemma replace_nth_same {A} (i : nat) (l : list A) (x : A) :
  nth_error l i = Some x -> replace_nth i x l = l.
Proof.
  revert i; induction l as [|y l IH]; intros [|i]; simpl; intros E; auto.
  - now inversion E.
  - now rewrite IH.
Qed.

Lemma replace_nth_twice {A} (i : nat) (x y : A) (l : list A) :
  replace_nth i y (replace_nth i x l) = replace_nth i y l.
Proof.
  revert i; induction l as [|z l IH]; intros [|i]; simpl; auto.
  now rewrite IH.
Qed.

Lemma nth_error_replace_nth_eq {A} (i : nat) (x : A) (l : list A) :
  i < List.length l -> nth_error (replace_nth i x l) i = Some x.
Proof.
  revert i; induction l as [|y l IH]; intros [|i] Hi; simpl in *; try lia; auto.
  apply IH; lia.
Qed.

(** ** The node loop *)

Section EngineFacts.
Context {num : Type} `{JsNumber num}.
Variable pf : platform num.
Variable useMocks : bool.
Variable ctx_context : value num.
Variable o : value num.                  (* [spec._origin] *)

Lemma set_status_statuses (i : nat) (s : status) (msg : option string)
  (ns : list (node_state num)) :
  statuses (set_status i s msg ns) = replace_nth i s (statuses ns).
Proof.
  unfold set_status, statuses.
  destruct (nth_error ns i) as [n|] eqn:E.
  - now rewrite map_replace_nth.
  - symmetry. apply nth_error_None in E.
    revert i E; induction ns as [|y l IH]; intros [|i] E; simpl in *; auto; try lia.
    f_equal. apply IH. lia.
Qed.

Lemma set_status_the_node (i : nat) (s : status) (msg : option string)
  (ns : list (node_state num)) :
  map the_node (set_status i s msg ns) = map the_node ns.
Proof.
  unfold set_status.
  destruct (nth_error ns i) as [n|] eqn:E; auto.
  rewrite map_replace_nth. simpl.
  apply replace_nth_same. now rewrite nth_error_map, E.
Qed.

Lemma exec_node_turn (st : run_state num) (i : nat) (ns : node_state num) :
  nth_error (nodes st) i = Some ns ->
  exists t, turn st (exec_node pf useMocks ctx_context o st i) i (the_node ns) t.
Proof.
  intros E. unfold exec_node. rewrite E.
  destruct (node_body pf useMocks ctx_context i (the_node ns) st o)
    as [[[net scoped] calls] [[[d a] f]|m]].
  - exists completed. unfold turn; simpl.
    rewrite !set_status_the_node, !set_status_statuses, replace_nth_twice.
    repeat split; auto.
    eexists; eexists; split; [reflexivity|]; simpl.
    rewrite !set_status_statuses, replace_nth_twice.
    repeat split; auto. left; repeat split; auto. now exists d.
  - exists failed. unfold turn; simpl.
    rewrite !set_status_the_node, !set_status_statuses, replace_nth_twice.
    repeat split; auto.
    eexists; eexists; split; [reflexivity|]; simpl.
    rewrite !set_status_statuses, replace_nth_twice.
    repeat split; auto.
Qed.

End EngineFacts.

Lemma turn_observations_prefix (ids : list string) (ts : list status) (t : status)
  (k : nat) :
  List.length ts = k ->
  flat_map (turn_observations ids (ts ++ [t])) (seq 0 k)
  = flat_map (turn_observations ids ts) (seq 0 k).
Proof.
  intros L.
  assert (E : forall i, In i (seq 0 k) ->
              turn_observations ids (ts ++ [t]) i = turn_observations ids ts i).
  { intros i Hi. apply in_seq in Hi. unfold turn_observations.
    rewrite !firstn_app, app_nth1 by lia.
    replace (i - List.length ts) with 0 by lia.
    replace (S i - List.length ts) with 0 by lia.
    simpl. now rewrite !app_nil_r. }
  induction (seq 0 k) as [|i l IH]; cbn [flat_map]; auto.
  rewrite E by (now left). f_equal. apply IH. intros j Hj. apply E. now right.
Qed.

Section RunFacts.
Context {num : Type} `{JsNumber num}.
Variable pf : platform num.
Variable useMocks : bool.
Variable ctx_context : value num.
Variable o : value num.
Variable ns : list (node num).
Variable es : list edge.

Lemma run_upto_S (k : nat) :
  run_upto pf useMocks ctx_context o ns es (S k) = exec_node pf useMocks ctx_context o (run_upto pf useMocks ctx_context o ns es k) k.
Proof.
  unfold run_upto. rewrite seq_S, fold_left_app. reflexivity.
Qed.

Lemma run_invariant_0 : run_invariant ns 0 (run_upto pf useMocks ctx_context o ns es 0).
Proof.
  unfold run_invariant, run_upto; simpl. split.
  - rewrite map_map; simpl. apply map_id.
  - exists []. repeat split; auto. simpl. unfold statuses.
    rewrite map_map; simpl. rewrite Nat.sub_0_r.
    clear. induction ns; simpl; congruence.
Qed.

Lemma run_invariant_step (k : nat) :
  k < List.length ns -> run_invariant ns k (run_upto pf useMocks ctx_context o ns es k) ->
  run_invariant ns (S k) (run_upto pf useMocks ctx_context o ns es (S k)).
Proof.
  intros Hk (Hn & ts & Lts & Tts & Hs & Hev).
  rewrite run_upto_S.
  destruct (nth_error (nodes (run_upto pf useMocks ctx_context o ns es k)) k) as [nk|] eqn:E.
  2:{ apply nth_error_None in E.
      rewrite <- (length_map the_node), Hn in E. lia. }
  assert (Hid : id (the_node nk) = nth k (map id ns) "").
  { rewrite <- Hn, map_map.
    apply (map_nth_error (fun x => id (the_node x))) in E.
    symmetry. now apply nth_error_nth. }
  destruct (exec_node_turn pf useMocks ctx_context o _ _ _ E)
    as (t & Hn' & Hs' & e1 & e2 & Hev' & N1 & I1 & S1 & I2 & S2 & Hterm).
  assert (Hrep : forall s, replace_nth k s (statuses (nodes (run_upto pf useMocks ctx_context o ns es k)))
                           = ts ++ s :: repeat pending (List.length ns - S k)).
  { intros s. rewrite Hs.
    replace (List.length ns - k) with (S (List.length ns - S k)) by lia.
    simpl. rewrite <- Lts. apply replace_nth_app_here. }
  assert (Ht : is_terminal t /\ ev_name e2 = terminal_event t).
  { destruct Hterm as [(-> & -> & _)|(-> & -> & _)]; split; auto;
      [now left | now right]. }
  split; [congruence|].
  exists (ts ++ [t]). repeat split.
  - rewrite length_app; simpl; lia.
  - apply Forall_app; split; auto. constructor; [apply Ht | constructor].
  - rewrite Hs', Hrep, <- app_assoc. reflexivity.
  - rewrite Hev', map_app, Hev, seq_S, flat_map_app.
    rewrite turn_observations_prefix by assumption.
    f_equal. cbn [flat_map map Nat.add]. rewrite app_nil_r.
    unfold turn_observations, observe.
    rewrite length_map, N1, I1, I2, S1, S2, !Hrep, <- Hid.
    destruct Ht as [_ ->].
    assert (F1 : firstn k (ts ++ [t]) = ts).
    { rewrite firstn_app, firstn_all2 by lia.
      replace (k - List.length ts) with 0 by lia. simpl. apply app_nil_r. }
    assert (F2 : firstn (S k) (ts ++ [t]) = ts ++ [t]).
    { apply firstn_all2. rewrite length_app; simpl; lia. }
    assert (F3 : nth k (ts ++ [t]) pending = t).
    { rewrite app_nth2 by lia.
      replace (k - List.length ts) with 0 by lia. reflexivity. }
    rewrite F1, F2, F3, <- app_assoc. reflexivity.
Qed.

Lemma run_invariant_upto (k : nat) :
  k <= List.length ns -> run_invariant ns k (run_upto pf useMocks ctx_context o ns es k).
Proof.
  induction k as [|k IH]; intros Hk.
  - apply run_invariant_0.
  - apply run_invariant_step; [lia | apply IH; lia].
Qed.

End RunFacts.

(** C5.  For every specification with a list of nodes and a list of edges
    the run returns, and its published events are, node after node in list
    order, a [node_start] and then the node's [node_complete] or
    [node_fail].  The snapshot of every [node_start] shows all earlier
    nodes in their terminal state (completed or failed), the node itself
    running and all later nodes pending, so no node is marked running
    before its predecessor is terminal; the closing event of every node is
    published whether earlier nodes failed or not, and each node keeps the
    one terminal state it reached until the end of the run. *)
Theorem executePipeline_runs_nodes_in_order
  {num : Type} `{JsNumber num} (pf : platform num) (useMocks : bool)
  (ctx_context : value num) (ns : list (node num)) (es : list edge) (o : value num) :
  match executePipeline pf useMocks ctx_context
          (Some {| spec_nodes := Items ns; spec_edges := Items es; _origin := o |})
  with
  | Return r =>
      let ts := statuses (nodes (final r)) in
      List.length ts = List.length ns
      /\ Forall is_terminal ts
      /\ map observe (events (final r))
         = flat_map (turn_observations (map id ns) ts) (seq 0 (List.length ns))
  | Throw _ => False
  end.
Proof.
  cbn [executePipeline spec_nodes spec_edges _origin final].
  destruct (run_invariant_upto pf useMocks ctx_context o ns es (List.length ns)
              (le_n _)) as (_ & ts & Lts & Tts & Hs & Hev).
  unfold run_upto in Hs, Hev.
  rewrite Nat.sub_diag in Hs. simpl in Hs. rewrite app_nil_r in Hs.
  rewrite Hs. auto.
Qed.

(** ** The output store *)

Section StoreFacts.
Context {num : Type}.

Lemma lookup_set_field (k k' : string) (v : value num) (m : list (string * value num)) :
  lookup k (set_field k' v m) = if String.eqb k k' then Some v else lookup k m.
Proof.
  induction m as [|[k0 v0] m IH]; simpl.
  - destruct (String.eqb k k'); reflexivity.
  - destruct (String.eqb k' k0) eqn:E0; simpl.
    + apply String.eqb_eq in E0; subst k0.
      destruct (String.eqb k k'); reflexivity.
    + rewrite IH. destruct (String.eqb k k') eqn:E, (String.eqb k k0) eqn:E1; auto.
      apply String.eqb_eq in E, E1; subst. rewrite String.eqb_refl in E0. discriminate.
Qed.

Lemma has_field_set_field (k k' : string) (v : value num) (m : list (string * value num)) :
  has_field k (set_field k' v m) = String.eqb k k' || has_field k m.
Proof.
  unfold has_field. rewrite lookup_set_field.
  destruct (String.eqb k k'); reflexivity.
Qed.

End StoreFacts.

Section StoreInvariant.
Context {num : Type} `{JsNumber num}.
Variable pf : platform num.
Variable useMocks : bool.
Variable ctx_context : value num.
Variable o : value num.
Variable ns : list (node num).
Variable es : list edge.

Lemma store_invariant_upto (k : nat) :
  k <= List.length ns ->
  store_invariant ns k (run_upto pf useMocks ctx_context o ns es k).
Proof.
  induction k as [|k IH]; intros Hk.
  - intros key; unfold run_upto; simpl. split; [discriminate|].
    intros (j & Hj & _); lia.
  - specialize (IH ltac:(lia)).
    pose proof (run_invariant_upto pf useMocks ctx_context o ns es k ltac:(lia))
      as (Hn & ts & Lts & _ & Hs & _).
    rewrite run_upto_S.
    set (st := run_upto pf useMocks ctx_context o ns es k) in *.
    destruct (nth_error (nodes st) k) as [nk|] eqn:E.
    2:{ apply nth_error_None in E.
        rewrite <- (length_map the_node), Hn in E. lia. }
    assert (Hid : id (the_node nk) = nth k (map id ns) "").
    { rewrite <- Hn, map_map.
      apply (map_nth_error (fun x => id (the_node x))) in E.
      symmetry. now apply nth_error_nth. }
    assert (Lst : List.length (statuses (nodes st)) = List.length ns).
    { unfold statuses. rewrite length_map, <- (length_map the_node), Hn. reflexivity. }
    destruct (exec_node_turn pf useMocks ctx_context o _ _ _ E)
      as (t & _ & Hs' & e1 & e2 & _ & _ & _ & _ & _ & _ & Hterm).
    intros key. rewrite Hs'.
    assert (Hold : forall j, j < k ->
              nth j (replace_nth k t (statuses (nodes st))) pending
              = nth j (statuses (nodes st)) pending).
    { intros j Hj. apply nth_replace_nth_ne. lia. }
    assert (Hnew : nth k (replace_nth k t (statuses (nodes st))) pending = t).
    { apply nth_replace_nth_eq. lia. }
    pose proof (IH key) as [IH1 IH2].
    destruct Hterm as [(Et & _ & v & Eo)|(Et & _ & Eo)]; subst t; rewrite Eo.
    + rewrite has_field_set_field, orb_true_iff, String.eqb_eq. split.
      * intros [->|Hf].
        -- exists k. repeat split; auto.
        -- destruct (IH1 Hf) as (j & Hj & Hk' & Hc).
           exists j. rewrite Hold by lia. repeat split; auto.
      * intros (j & Hj & Hk' & Hc).
        destruct (Nat.eq_dec j k) as [->|Hne].
        -- left. congruence.
        -- right. apply IH2. exists j. rewrite Hold in Hc by lia.
           repeat split; auto. lia.
    + split.
      * intros Hf. destruct (IH1 Hf) as (j & Hj & Hk' & Hc).
        exists j. rewrite Hold by lia. repeat split; auto.
      * intros (j & Hj & Hk' & Hc).
        destruct (Nat.eq_dec j k) as [->|Hne].
        -- rewrite Hnew in Hc. discriminate.
        -- apply IH2. exists j. rewrite Hold in Hc by lia.
           repeat split; auto. lia.
Qed.

End StoreInvariant.

(** ** Node failure and the output store *)

Lemma has_field_finalOutputs {num : Type} `{JsNumber num} (key : string)
  (outs : list (string * value num)) :
  has_field key (finalOutputs outs)
  = String.eqb key "count" || String.eqb key "correlation"
    || String.eqb key "ranked_list" || has_field key outs.
Proof.
  unfold finalOutputs. rewrite !has_field_set_field, !orb_assoc. reflexivity.
Qed.

(** C10.  A turn of the loop that leaves its node failed leaves the store
    as it was.  Hence, when the node ids are distinct, the store at the end
    of the run holds an entry for a node id exactly when that node
    completed; the same holds of the returned [outputs] for every id that
    is not one of the three aggregate keys added on return. *)
Theorem failed_node_writes_nothing
  {num : Type} `{JsNumber num} (pf : platform num) (useMocks : bool)
  (ctx_context : value num) (ns : list (node num)) (es : list edge) (o : value num) :
  NoDup (map id ns) ->
  (forall (st : run_state num) (i : nat) (n : node_state num),
      nth_error (nodes st) i = Some n ->
      let st' := exec_node pf useMocks ctx_context o st i in
      nth i (statuses (nodes st')) pending = failed ->
      outputs st' = outputs st)
  /\ match executePipeline pf useMocks ctx_context
             (Some {| spec_nodes := Items ns; spec_edges := Items es; _origin := o |})
     with
     | Return r =>
         forall n, In n (nodes (final r)) ->
           (has_field (id (the_node n)) (outputs (final r)) = true
            <-> node_status n = completed)
           /\ (~ In (id (the_node n)) ["count"; "correlation"; "ranked_list"] ->
               (has_field (id (the_node n)) (rec_outputs r) = true
                <-> node_status n = completed))
     | Throw _ => False
     end.
Proof.
  intros Hnd. split.
  - intros st i n E st' Hf. subst st'.
    destruct (exec_node_turn pf useMocks ctx_context o _ _ _ E)
      as (t & _ & Hs' & e1 & e2 & _ & _ & _ & _ & _ & _ & Hterm).
    rewrite Hs', nth_replace_nth_eq in Hf.
    + destruct Hterm as [(Et & _)|(_ & _ & Eo)]; [congruence | exact Eo].
    + unfold statuses. rewrite length_map.
      apply nth_error_Some. congruence.
  - cbn [executePipeline spec_nodes spec_edges _origin final rec_outputs].
    pose proof (run_invariant_upto pf useMocks ctx_context o ns es (List.length ns)
                  (le_n _)) as (Hn & _).
    pose proof (store_invariant_upto pf useMocks ctx_context o ns es (List.length ns)
                  (le_n _)) as Hstore.
    unfold run_upto in Hn, Hstore.
    set (st := fold_left _ _ _) in *.
    assert (Main : forall n, In n (nodes st) ->
              (has_field (id (the_node n)) (outputs st) = true
               <-> node_status n = completed)).
    { intros n Hin. apply In_nth_error in Hin as (i & Hi).
      assert (Li : i < List.length ns).
      { rewrite <- Hn, length_map. apply nth_error_Some. congruence. }
      assert (Hid : nth i (map id ns) "" = id (the_node n)).
      { rewrite <- Hn, map_map.
        apply (map_nth_error (fun x => id (the_node x))) in Hi.
        now apply nth_error_nth. }
      assert (Hst : nth i (statuses (nodes st)) pending = node_status n).
      { apply nth_error_nth. unfold statuses. now apply map_nth_error. }
      split.
      - intros Hf. apply Hstore in Hf as (j & Hj & Hk & Hc).
        assert (j = i).
        { apply (proj1 (NoDup_nth (map id ns) "") Hnd); rewrite ?length_map; auto.
          congruence. }
        subst j. congruence.
      - intros Hc. apply Hstore. exists i. repeat split; auto. congruence. }
    intros n Hin. split; [now apply Main|].
    intros Hnot. rewrite has_field_finalOutputs, <- (Main n Hin).
    destruct (String.eqb (id (the_node n)) "count") eqn:E1.
    { apply String.eqb_eq in E1. exfalso. apply Hnot. simpl. auto. }
    destruct (String.eqb (id (the_node n)) "correlation") eqn:E2.
    { apply String.eqb_eq in E2. exfalso. apply Hnot. simpl. auto. }
    destruct (String.eqb (id (the_node n)) "ranked_list") eqn:E3.
    { apply String.eqb_eq in E3. exfalso. apply Hnot. simpl. auto. }
    simpl. reflexivity.
Qed.

Lemma failed_node_writes_nothing_witness :
  NoDup (map id two_nodes)
  /\ match executePipeline offline false VUndefined (Some two_nodes_spec) with
     | Return r =>
         forall n, In n (nodes (final r)) ->
           (has_field (id (the_node n)) (outputs (final r)) = true
            <-> node_status n = completed)
           /\ (~ In (id (the_node n)) ["count"; "correlation"; "ranked_list"] ->
               (has_field (id (the_node n)) (rec_outputs r) = true
                <-> node_status n = completed))
     | Throw _ => False
     end.
Proof.
  assert (Hnd : NoDup (map id two_nodes)).
  { simpl. repeat constructor; simpl; intuition discriminate. }
  split; [exact Hnd|].
  exact (proj2 (failed_node_writes_nothing offline false VUndefined two_nodes
                  [{| from := "n1"; to := "t9"; edge_status := pending |}]
                  VUndefined Hnd)).
Defined.

(** ** Unknown transforms *)

Lemma not_in_eqb (s : string) (l : list string) (k : string) :
  ~ In s l -> In k l -> String.eqb s k = false.
Proof.
  intros Hn Hk. apply String.eqb_neq. intros ->. contradiction.
Qed.

(** C2 as stated fails: the transform [t9] of [two_nodes] names the unknown
    function [median]; the run leaves it completed and records no error
    for it. *)
Lemma unknown_transform_completes :
  match executePipeline offline false VUndefined (Some two_nodes_spec) with
  | Return r =>
      map (fun n => (id (the_node n), node_status n)) (nodes (final r))
      = [("n1", failed); ("t9", completed)]
      /\ map err_node_id (rec_errors r) = ["n1"]
  | Throw _ => False
  end.
Proof.
  vm_compute. split; reflexivity.
Qed.

(** C2, amended.  A transform node whose [fn] is none of the five known
    transforms does not fail: [runTransformNode] returns the value its
    [args.from] resolves to in the outputs ([null] when there is none), and
    the turn of the loop leaves the node completed with that value stored
    under its id, an [ok] entry in the log, a [node_complete] event, and the
    error list as it was. *)
Theorem unknown_transform_returns_input
  {num : Type} `{JsNumber num} (pf : platform num) (useMocks : bool)
  (ctx_context o : value num) (st : run_state num) (i : nat) (ns : node_state num) :
  nth_error (nodes st) i = Some ns ->
  type (the_node ns) = "transform" ->
  ~ In (fn (the_node ns)) known_transforms ->
  let n := the_node ns in
  let input := nullish_or (from_outputs pf (outputs st) (arg n "from")) VNull in
  let st' := exec_node pf useMocks ctx_context o st i in
  runTransformNode pf n (outputs st) = Return input
  /\ nth i (statuses (nodes st')) pending = completed
  /\ outputs st' = set_field (id n) input (outputs st)
  /\ errors st' = errors st
  /\ runLog st' = runLog st ++
                  [{| log_node_id := id n; log_status := "ok"; log_attempts := 1;
                      log_fallback_used := Some false; log_error := None |}]
  /\ exists e1 e2,
       events st' = events st ++ [e1; e2]
       /\ ev_name e1 = "node_start" /\ ev_name e2 = "node_complete".
Proof.
  intros E Ht Hfn n input st'.
  assert (R : runTransformNode pf n (outputs st) = Return input).
  { unfold runTransformNode.
    rewrite !(not_in_eqb _ _ _ Hfn) by (simpl; auto 6). reflexivity. }
  split; [exact R|].
  assert (B : node_body pf useMocks ctx_context i n st o
              = ([], [], 0%Z, Return (input, 1%Z, false))).
  { unfold node_body. fold n in Ht. rewrite Ht. simpl. now rewrite R. }
  subst st'. unfold exec_node. rewrite E. fold n. rewrite B. simpl.
  rewrite !set_status_statuses, replace_nth_twice, app_nil_r.
  repeat split; auto.
  - apply nth_replace_nth_eq. unfold statuses. rewrite length_map.
    apply nth_error_Some. congruence.
  - eexists; eexists; repeat split.
Qed.

Lemma unknown_transform_returns_input_witness :
  let st := exec_node offline false VUndefined VUndefined
                      (initial_state two_nodes []) 0 in
  let n := transform_node "t9" "median" (VObj [("from", VStr "outputs.n1")]) in
  let st' := exec_node offline false VUndefined VUndefined st 1 in
  runTransformNode offline n (outputs st) = Return VNull
  /\ nth 1 (statuses (nodes st')) pending = completed
  /\ outputs st' = set_field "t9" VNull (outputs st)
  /\ errors st' = errors st
  /\ runLog st' = runLog st ++
                  [{| log_node_id := "t9"; log_status := "ok"; log_attempts := 1;
                      log_fallback_used := Some false; log_error := None |}]
  /\ exists e1 e2,
       events st' = events st ++ [e1; e2]
       /\ ev_name e1 = "node_start" /\ ev_name e2 = "node_complete".
Proof.
  exact (unknown_transform_returns_input offline false VUndefined VUndefined
           (exec_node offline false VUndefined VUndefined (initial_state two_nodes []) 0)
           1
           {| the_node := transform_node "t9" "median" (VObj [("from", VStr "outputs.n1")]);
              node_status := pending; error_message := None |}
           eq_refl eq_refl
           ltac:(simpl; intuition discriminate)).
Defined.

(** ** Invalid specifications *)

(** When the planner hands over a specification whose [nodes] are
    missing, not a list or an empty list, the [/run] handler rejects it
    before the engine is entered: besides [planning_start] it emits the
    top-level [error] event and the failed [pipeline_complete], nothing is
    published for any node, and the response has status 500. *)
Theorem invalid_spec_fails_fast
  {num : Type} `{JsNumber num} (pf : platform num) (useMocks : bool) (sp : spec num) :
  spec_nodes sp = Absent \/ spec_nodes sp = NotArray \/ spec_nodes sp = Items [] ->
  post_run pf useMocks (Return (Some sp))
  = ([planning_start; error invalid_spec_message;
      pipeline_complete_error invalid_spec_message],
     status_json 500 invalid_spec_message)
  /\ forall e, ~ In (published e) (fst (post_run pf useMocks (Return (Some sp)))).
Proof.
  intros Hn.
  assert (E : post_run pf useMocks (Return (Some sp))
              = ([planning_start; error invalid_spec_message;
                  pipeline_complete_error invalid_spec_message],
                 status_json 500 invalid_spec_message)).
  { unfold post_run, invalid_spec.
    destruct Hn as [-> | [-> | ->]]; reflexivity. }
  split; [exact E|].
  intros e. rewrite E. simpl. intuition discriminate.
Qed.

Lemma invalid_spec_fails_fast_witness :
  post_run offline false
    (Return (Some {| spec_nodes := Items []; spec_edges := Items [];
                     _origin := VUndefined |}))
  = ([planning_start; error invalid_spec_message;
      pipeline_complete_error invalid_spec_message],
     status_json 500 invalid_spec_message)
  /\ forall e, ~ In (published e)
                 (fst (post_run offline false
                         (Return (Some {| spec_nodes := Items []; spec_edges := Items [];
                                          _origin := VUndefined |})))).
Proof.
  apply (invalid_spec_fails_fast offline false). right; right; reflexivity.
Defined.

(** The engine entered directly has no such guard.  [executePipeline]
    clones [spec.nodes] before its own check, which the clone then always
    passes: a specification without a list of nodes ends in the
    [TypeError] of the clone, and an empty list of nodes is run to the
    end, the call returning with nothing published, nothing logged and no
    error. *)
Theorem executePipeline_alone_has_no_guard
  {num : Type} `{JsNumber num} (pf : platform num) (useMocks : bool)
  (ctx_context o : value num) (e : field edge) (es : list edge) :
  executePipeline pf useMocks ctx_context
    (Some {| spec_nodes := Absent; spec_edges := e; _origin := o |})
  = Throw "Cannot read properties of undefined (reading 'map')"
  /\ executePipeline pf useMocks ctx_context
       (Some {| spec_nodes := NotArray; spec_edges := e; _origin := o |})
     = Throw "spec.nodes.map is not a function"
  /\ exists r,
       executePipeline pf useMocks ctx_context
         (Some {| spec_nodes := Items []; spec_edges := Items es; _origin := o |})
       = Return r
       /\ events (final r) = [] /\ rec_log r = [] /\ rec_errors r = []
       /\ nodes (final r) = [].
Proof.
  split; [|split].
  - destruct e; reflexivity.
  - destruct e; reflexivity.
  - eexists. split; [reflexivity|]. cbn. auto.
Qed.

(** C8.  The engine does not fail fast.  The guard of [executePipeline]
    stands behind the clones of [spec.nodes] and [spec.edges] and tests
    nothing about the number of nodes.  So a specification with an empty
    list of nodes is not rejected but run, the call returning the result
    of a successful run with an empty log, no error and the empty
    aggregates; a specification whose nodes are missing or not a list
    ends in the [TypeError] of the clone; and no specification whatever
    makes the engine throw the error of its guard. *)
Theorem executePipeline_guard_is_dead
  {num : Type} `{JsNumber num} (pf : platform num) (useMocks : bool)
  (ctx_context : value num) :
  (forall sp : spec num,
      match spec_nodes sp, spec_edges sp with
      | Items [], Items es =>
          executePipeline pf useMocks ctx_context (Some sp)
          = Return {| rec_outputs :=
                        [("ranked_list", VArr []);
                         ("correlation",
                          VObj [("x", VStr "quality"); ("y", VStr "eta_seconds");
                                ("pearson_r", VNum (of_Z 0)); ("n", VNum (of_Z 0))]);
                         ("count", VNum (of_Z 0))];
                      rec_log := [];
                      rec_errors := [];
                      rec_apiCalls := 0;
                      final := initial_state [] es |}
      | Absent, _ =>
          executePipeline pf useMocks ctx_context (Some sp)
          = Throw "Cannot read properties of undefined (reading 'map')"
      | NotArray, _ =>
          executePipeline pf useMocks ctx_context (Some sp)
          = Throw "spec.nodes.map is not a function"
      | Items _, _ => True
      end)
  /\ forall sp, executePipeline pf useMocks ctx_context sp <> Throw engine_guard_message.
Proof.
  split.
  - intros [[| |[|n ns]] [| |es] o]; cbn [spec_nodes spec_edges]; auto; reflexivity.
  - intros [[[| |ns] [| |es] o]|]; cbn [executePipeline spec_nodes spec_edges];
      discriminate.
Qed.

(** ** Retries *)

Section RetryFacts.
Context {num : Type} `{JsNumber num}.
Variable pf : platform num.
Variable n : node num.
Variable scope o : value num.
Variable site : nat * option nat.

(** The loop entered with [attempts = a0] and [left] turns to go makes
    some [k] attempts, the last of which returns or is the one that
    exhausts the budget. *)
Lemma http_attempts_spec (maxRetries backoff : Z) (left a0 : nat) :
  Z.of_nat (a0 + left) = (maxRetries + 1)%Z -> 1 <= left ->
  let r := compile_request pf n scope o in
  let res := http_attempts pf n scope o site maxRetries backoff left a0 in
  exists k,
    1 <= k <= left
    /\ fst res = backoff_trace site r backoff (S a0) k
    /\ (forall a, a0 < a < a0 + k ->
          exists m, axios pf (attempt_call site a) r = Throw m)
    /\ match axios pf (attempt_call site (a0 + k)) r with
       | Return resp =>
           snd res = Return {| data := applyMap pf resp (map_ n);
                               attempts := Z.of_nat (a0 + k);
                               fallbackUsed := false |}
       | Throw m =>
           k = left /\ snd res = Throw (exhausted_error n (a0 + k) m)
       end.
Proof.
  intros Hsum Hleft r res; subst res.
  revert a0 Hsum Hleft.
  induction left as [|left' IH]; intros a0 Hsum Hleft; [lia|].
  cbn [http_attempts]. fold r.
  change {| call_node := fst site; call_item := snd site; call_attempt := S a0 |}
    with (attempt_call site (S a0)).
  destruct (axios pf (attempt_call site (S a0)) r) as [resp|m] eqn:Ea.
  - exists 1. replace (a0 + 1) with (S a0) by lia.
    rewrite Ea. unfold backoff_trace; simpl. rewrite Nat.add_0_r.
    repeat split; auto; try lia.
  - destruct (maxRetries <? Z.of_nat (S a0))%Z eqn:Elt.
    + apply Z.ltb_lt in Elt. assert (left' = 0) by lia. subst left'.
      exists 1. replace (a0 + 1) with (S a0) by lia.
      rewrite Ea. unfold backoff_trace, exhausted_error; simpl. rewrite Nat.add_0_r.
      repeat split; auto; try lia.
      destruct (fallback n); reflexivity.
    + apply Z.ltb_ge in Elt. assert (1 <= left') by lia.
      destruct (IH (S a0) ltac:(lia) ltac:(lia)) as (k & Hk & Ht & Hfail & Hlast).
      destruct (http_attempts pf n scope o site maxRetries backoff left' (S a0))
        as [trace res].
      exists (S k). simpl in Ht, Hlast |- *.
      replace (a0 + S k) with (S a0 + k) by lia.
      repeat split; try lia.
      * rewrite Ht. unfold backoff_trace.
        replace (S k - 1) with (S (k - 1)) by lia.
        simpl. repeat f_equal; lia.
      * intros a Ha. destruct (Nat.eq_dec a (S a0)) as [->|Hne].
        -- now exists m.
        -- apply Hfail. lia.
      * simpl. destruct (axios pf (attempt_call site (S (a0 + k))) r).
        -- exact Hlast.
        -- destruct Hlast as [-> Hlast]. split; auto.
Qed.

End RetryFacts.

(** C3 as stated fails: a node without [fallback] whose two attempts both
    fail throws the error of the last attempt as it is; its message holds
    no attempt count. *)
Lemma exhausted_retries_rethrow_last_error :
  runHttpNode offline (retried_node false) (VObj []) false VUndefined (0, None)
  = ([Request (attempt_call (0, None) 1) plain_request;
      Sleep 10;
      Request (attempt_call (0, None) 2) plain_request],
     Throw "connect ECONNREFUSED").
Proof.
  vm_compute. reflexivity.
Qed.

(** C3, amended.  In live mode a node whose [retry.times] is not negative
    makes some [k] attempts, at least one and at most [times + 1]; every
    attempt before the last failed and is followed by the delay
    [backoff_ms * 2^(attempt - 1)].  If the last attempt succeeds the node
    returns its mapped response with [attempts = k].  If it fails, then
    [k = times + 1] and the node fails: a node that declares no [fallback]
    rethrows the last error unchanged (its message, no attempt count), a
    node that declares one throws
    ["Node <id> failed after <k> attempts: <last message>"]. *)
Theorem runHttpNode_retry_policy
  {num : Type} `{JsNumber num} (pf : platform num) (n : node num)
  (scope o : value num) (site : nat * option nat) :
  (0 <= retry_times n)%Z ->
  let r := compile_request pf n scope o in
  let res := runHttpNode pf n scope false o site in
  exists k,
    1 <= k /\ (Z.of_nat k <= retry_times n + 1)%Z
    /\ fst res = backoff_trace site r (retry_backoff n) 1 k
    /\ (forall a, 1 <= a < k -> exists m, axios pf (attempt_call site a) r = Throw m)
    /\ match axios pf (attempt_call site k) r with
       | Return resp =>
           snd res = Return {| data := applyMap pf resp (map_ n);
                               attempts := Z.of_nat k;
                               fallbackUsed := false |}
       | Throw m =>
           Z.of_nat k = (retry_times n + 1)%Z
           /\ snd res = Throw (exhausted_error n k m)
       end.
Proof.
  intros Ht r res. subst res. unfold runHttpNode.
  destruct (http_attempts_spec pf n scope o site (retry_times n) (retry_backoff n)
              (Z.to_nat (retry_times n + 1)) 0 ltac:(simpl; lia) ltac:(lia))
    as (k & Hk & Htr & Hfail & Hlast).
  exists k. simpl in Hlast.
  split; [lia|]. split; [lia|]. split; [exact Htr|]. split.
  - intros a Ha. apply Hfail. lia.
  - fold r in Hlast |- *.
    destruct (axios pf (attempt_call site k) r); [exact Hlast|].
    destruct Hlast as [-> Hlast]. split; [lia | exact Hlast].
Qed.

Lemma runHttpNode_retry_policy_witness :
  let n := retried_node true in
  let r := compile_request offline n (VObj []) VUndefined in
  let res := runHttpNode offline n (VObj []) false VUndefined (0, None) in
  exists k,
    1 <= k /\ (Z.of_nat k <= retry_times n + 1)%Z
    /\ fst res = backoff_trace (0, None) r (retry_backoff n) 1 k
    /\ (forall a, 1 <= a < k ->
          exists m, axios offline (attempt_call (0, None) a) r = Throw m)
    /\ match axios offline (attempt_call (0, None) k) r with
       | Return resp =>
           snd res = Return {| data := applyMap offline resp (map_ n);
                               attempts := Z.of_nat k;
                               fallbackUsed := false |}
       | Throw m =>
           Z.of_nat k = (retry_times n + 1)%Z
           /\ snd res = Throw (exhausted_error n k m)
       end.
Proof.
  apply (runHttpNode_retry_policy offline (retried_node true) (VObj []) VUndefined
           (0, None)).
  vm_compute. discriminate.
Defined.

(** With a declared fallback the two attempts end in the error that names
    the count. *)
Example exhausted_retries_with_fallback :
  snd (runHttpNode offline (retried_node true) (VObj []) false VUndefined (0, None))
  = Throw "Node n2_eta failed after 2 attempts: connect ECONNREFUSED".
Proof.
  vm_compute. reflexivity.
Qed.

(** ** Fan-out *)

Lemma in_combine_seq {A} (l : list A) (a j : nat) (x : A) :
  In (j, x) (combine (seq a (List.length l)) l) ->
  a <= j /\ nth_error l (j - a) = Some x.
Proof.
  revert a; induction l as [|y l IH]; intros a Hin; simpl in Hin; [contradiction|].
  destruct Hin as [E|Hin].
  - inversion E; subst. rewrite Nat.sub_diag. split; auto.
  - apply IH in Hin as [Hle Hn]. split; [lia|].
    replace (j - a) with (S (j - S a)) by lia. exact Hn.
Qed.

Lemma snd_combine_seq {A} (l : list A) (a : nat) :
  map snd (combine (seq a (List.length l)) l) = l.
Proof.
  revert a; induction l as [|x l IH]; intros a; simpl; auto.
  now rewrite IH.
Qed.

Lemma fold_left_invariant {A B} (P : A -> Prop) (f : A -> B -> A) (l : list B) (a : A) :
  P a -> (forall acc x, In x l -> P acc -> P (f acc x)) -> P (fold_left f l a).
Proof.
  revert a; induction l as [|x l IH]; intros a Ha Hstep; simpl; auto.
  apply IH.
  - apply Hstep; [now left | exact Ha].
  - intros acc y Hy. apply Hstep. now right.
Qed.

Section FanoutFacts.
Context {num : Type} `{JsNumber num}.
Variable n : node num.
Variable cap : nat.

Lemma put_cell_ok (bad : nat -> Prop) (k : string) (j : nat) (x : value num)
  (m : list (string * value num)) :
  (forall j', bad j' -> j' < cap) ->
  columns_ok cap bad m -> (x = VNull \/ ~ bad j) ->
  columns_ok cap bad (put_cell cap k j x m).
Proof.
  intros Hb Hm Hx k' col. unfold put_cell. rewrite lookup_set_field.
  destruct (String.eqb k' k) eqn:Ek; [|apply Hm].
  intros E; inversion E; subst col; clear E.
  assert (Hc : exists l, (match lookup k m with
                          | Some (VArr col) => col
                          | _ => repeat VNull cap
                          end) = l
                         /\ List.length l = cap
                         /\ forall j', bad j' -> nth j' l VUndefined = VNull).
  { destruct (lookup k m) as [c|] eqn:El.
    - destruct (Hm _ _ El) as (l & -> & Hl & Hn). exists l. auto.
    - exists (repeat VNull cap). repeat split; [apply repeat_length|].
      intros j' Hj'. apply nth_repeat_lt. auto. }
  destruct Hc as (l & -> & Hl & Hn).
  exists (replace_nth j x l). repeat split.
  - now rewrite replace_nth_length.
  - intros j' Hj'. destruct (Nat.eq_dec j j') as [->|Hne].
    + destruct Hx as [->|Hx]; [|contradiction].
      apply nth_replace_nth_eq. rewrite Hl. auto.
    + rewrite nth_replace_nth_ne by assumption. auto.
Qed.

Lemma merge_call_ok (bad : nat -> Prop) (acc : fan_acc (num := num)) (j : nat)
  (s : outcome (http_result num)) :
  (forall j', bad j' -> j' < cap) ->
  (bad j -> exists m, s = Throw m) ->
  columns_ok cap bad (merged acc) ->
  columns_ok cap bad (merged (merge_call n cap acc (j, s))).
Proof.
  intros Hb Hs Hm. unfold merge_call; simpl.
  destruct s as [r|m]; simpl.
  - apply fold_left_invariant; auto.
    intros m kv _ Hm'. apply put_cell_ok; auto.
    right. intros Hj. destruct (Hs Hj) as (m' & Hm''). discriminate.
  - apply fold_left_invariant; auto.
    intros m' kv _ Hm'. apply put_cell_ok; auto.
Qed.

Lemma merge_calls_columns (settled : list (outcome (http_result num))) :
  cap = List.length settled ->
  columns_ok cap (fun j => exists m, nth_error settled j = Some (Throw m))
             (merged (merge_calls n cap settled)).
Proof.
  intros Hcap. unfold merge_calls.
  apply (fold_left_invariant
           (fun acc => columns_ok cap
                         (fun j => exists m, nth_error settled j = Some (Throw m))
                         (merged acc))).
  - intros k col; simpl; discriminate.
  - intros acc [j s] Hin Hacc.
    apply in_combine_seq in Hin as [_ Hn]. rewrite Nat.sub_0_r in Hn.
    apply merge_call_ok; auto.
    + intros j' (m & Hj'). rewrite Hcap. apply nth_error_Some. congruence.
    + intros (m & Hj). exists m. congruence.
Qed.

Lemma merge_fold_errors (xs : list (nat * outcome (http_result num)))
  (acc : fan_acc (num := num)) :
  fan_errors (fold_left (merge_call n cap) xs acc)
  = fan_errors acc ++
    flat_map (fun js => match snd js with
                        | Throw m => [{| err_node_id := id n ++ "[" ++ show_nat (fst js) ++ "]";
                                         err_error := error_text m |}]
                        | Return _ => []
                        end) xs.
Proof.
  revert acc; induction xs as [|[j s] xs IH]; intros acc; cbn [fold_left flat_map].
  - now rewrite app_nil_r.
  - rewrite IH. destruct s; simpl; [reflexivity | now rewrite <- app_assoc].
Qed.

Lemma merge_fold_attempts (xs : list (nat * outcome (http_result num)))
  (acc : fan_acc (num := num)) :
  maxAttempts (fold_left (merge_call n cap) xs acc)
  = fold_left Z.max (map (fun js => call_attempts n (snd js)) xs) (maxAttempts acc).
Proof.
  revert acc; induction xs as [|[j s] xs IH]; intros acc; cbn [fold_left map]; auto.
  rewrite IH. destruct s; reflexivity.
Qed.

End FanoutFacts.

Lemma requests_made_backoff_trace {num : Type} (site : nat * option nat)
  (r : request num) (backoff : Z) (first k : nat) :
  requests_made (backoff_trace site r backoff first k) = S (k - 1).
Proof.
  unfold requests_made, backoff_trace. rewrite filter_app, length_app. simpl.
  generalize (k - 1) as m. intros m. revert first.
  induction m as [|m IH]; intros first; simpl; [reflexivity | now rewrite IH].
Qed.

(** In live mode the merge charges every call with the attempts it made. *)
Lemma live_call_attempts {num : Type} `{JsNumber num} (pf : platform num)
  (n : node num) (scope o : value num) (site : nat * option nat) :
  (0 <= retry_times n)%Z ->
  let res := runHttpNode pf n scope false o site in
  call_attempts n (snd res) = Z.of_nat (requests_made (fst res)).
Proof.
  intros Ht res. subst res. unfold runHttpNode.
  destruct (http_attempts_spec pf n scope o site (retry_times n) (retry_backoff n)
              (Z.to_nat (retry_times n + 1)) 0 ltac:(simpl; lia) ltac:(lia))
    as (k & Hk & Htr & _ & Hlast).
  rewrite Htr, requests_made_backoff_trace.
  replace (S (k - 1)) with k by lia.
  simpl in Hlast.
  destruct (axios pf (attempt_call site k) (compile_request pf n scope o)).
  - now rewrite Hlast.
  - destruct Hlast as [Ek ->]. simpl. lia.
Qed.

(** C4, amended.  A fan-out over a collection of [L] rows dispatches
    [min(max, L)] calls when [max] is positive and [L] calls when [max] is
    0 or absent.  Every call settles on its own, the node never fails, and
    its result is columnar: every column has one cell per call, the cell
    of a rejected call is [null] in every column, each rejected call adds
    exactly one error scoped to [id[j]], and the attempt count reported is
    the largest count charged to a call (1 at least), which in live mode is
    the largest number of attempts a call made. *)
Theorem fanout_dispatch_and_merge
  {num : Type} `{JsNumber num} (pf : platform num) (useMocks : bool)
  (ctx_context o : value num) (i : nat) (n : node num) (st : run_state num)
  (f : fanout_spec) :
  type n = "http" -> fanout n = Some f -> over f <> "" ->
  (0 <= retry_times n)%Z ->
  let scope := VObj [("outputs", VObj (outputs st));
                     ("context", or_else ctx_context (VObj []));
                     ("_origin", o)] in
  let base := fanout_base pf f scope in
  let L := List.length base in
  let calls := fanout_calls pf useMocks i n f scope o in
  let cap := List.length calls in
  (forall m, max f = Some m -> (0 < m)%Z -> Z.of_nat cap = Z.min m (Z.of_nat L))
  /\ (max f = None \/ max f = Some 0%Z -> cap = L)
  /\ map snd calls
     = map (fun j => snd (runHttpNode pf n (subScope scope f (nth j base VUndefined))
                                      useMocks o (i, Some j)))
           (seq 0 cap)
  /\ exists merged_ attempts_ anyFallback_,
       node_body pf useMocks ctx_context i n st o
       = (map (fun jc => {| site_node := i; site_item := Some (fst jc);
                            trace := fst (snd jc) |})
              (combine (seq 0 cap) calls),
          scoped_errors n (map snd calls), 1%Z,
          Return (VObj merged_, attempts_, anyFallback_))
       /\ (forall k col, lookup k merged_ = Some col ->
             exists l, col = VArr l /\ List.length l = cap
                       /\ forall j m, nth_error (map snd calls) j = Some (Throw m) ->
                                      nth j l VUndefined = VNull)
       /\ attempts_ = fold_left Z.max (map (call_attempts n) (map snd calls)) 1%Z
       /\ (useMocks = false ->
           attempts_ = fold_left Z.max
                         (map (fun c => Z.of_nat (requests_made (fst c))) calls) 1%Z).
Proof.
  intros Ht Hf Ho Hr scope base L calls cap.
  assert (Hcap : cap = Z.to_nat (fanout_cap f L)).
  { subst cap calls. unfold fanout_calls. fold base. fold L.
    now rewrite length_map, length_seq. }
  assert (Hsnd : map snd calls
                 = map (fun j => snd (runHttpNode pf n
                                        (subScope scope f (nth j base VUndefined))
                                        useMocks o (i, Some j)))
                       (seq 0 cap)).
  { rewrite Hcap. subst calls. unfold fanout_calls. fold base. fold L.
    rewrite map_map. apply map_ext. intros j.
    destruct (runHttpNode pf n (subScope scope f (nth j base VUndefined)) useMocks o
                          (i, Some j)); reflexivity. }
  split; [|split; [|split; [exact Hsnd|]]].
  - intros m Hm Hpos. rewrite Hcap. unfold fanout_cap. rewrite Hm.
    assert (Hne : (m =? 0)%Z = false) by (apply Z.eqb_neq; lia).
    rewrite Hne. lia.
  - intros Hm. rewrite Hcap. unfold fanout_cap.
    destruct Hm as [-> | ->]; simpl; lia.
  - set (acc := merge_calls n cap (map snd calls)).
    exists (merged acc), (maxAttempts acc), (anyFallback acc).
    assert (Hatt : maxAttempts acc
                   = fold_left Z.max (map (call_attempts n) (map snd calls)) 1%Z).
    { subst acc. unfold merge_calls. rewrite merge_fold_attempts. simpl.
      f_equal. rewrite <- (map_map snd (call_attempts n)).
      f_equal. apply snd_combine_seq. }
    split; [|split; [|split; [exact Hatt|]]].
    + unfold node_body. rewrite Ht, Hf. simpl.
      assert (Hne : String.eqb (over f) "" = false) by now apply String.eqb_neq.
      rewrite Hne. simpl. fold scope. fold base. fold L. fold calls.
      rewrite <- Hcap. fold cap. fold acc.
      f_equal. f_equal. f_equal.
      subst acc. unfold merge_calls, scoped_errors.
      now rewrite merge_fold_errors.
    + intros k col Hl.
      destruct (merge_calls_columns n cap (map snd calls)
                  ltac:(now rewrite length_map) k col Hl) as (l & -> & Hlen & Hbad).
      exists l. repeat split; auto. intros j m Hj. apply Hbad. now exists m.
    + intros ->. rewrite Hatt, map_map. f_equal.
      apply map_ext_in. intros [t s] Hin. simpl.
      unfold fanout_calls in Hin. apply in_map_iff in Hin as (j & Ej & _).
      pose proof (live_call_attempts pf n (subScope scope f (nth j base VUndefined)) o
                    (i, Some j) Hr) as Hlive.
      cbv zeta in Hlive, Ej. fold base in Ej.
      destruct (runHttpNode pf n (subScope scope f (nth j base VUndefined)) false o
                            (i, Some j)) as [t' s'].
      inversion Ej; subst. exact Hlive.
Qed.

(** C4 as stated fails: with [max = 0] the five places get five calls, not
    [min(0, 5)]. *)
Lemma fanout_max_zero_is_no_cap :
  List.length (fanout_base second_times_out (weather_fanout (Some 0%Z)) places_scope) = 5
  /\ List.length (fanout_calls second_times_out false 2 (weather_node (Some 0%Z))
                               (weather_fanout (Some 0%Z)) places_scope VUndefined) = 5
  /\ Z.min 0 5 = 0%Z.
Proof.
  vm_compute. repeat split; reflexivity.
Qed.

(** Five places, [max = 3], the second call rejected: three calls, one
    column of three cells with [null] in the second, one scoped error. *)
Example fanout_scenario :
  node_body second_times_out false VUndefined 2 (weather_node (Some 3%Z))
            after_places VUndefined
  = (map (fun j =>
            {| site_node := 2; site_item := Some j;
               trace :=
                 [SleepJitter;
                  Request (attempt_call (2, Some j) 1)
                    {| req_method := "GET";
                       req_url := "http://weather.test/v1?latitude="
                                  ++ show_nat (S j) ++ "&longitude=" ++ show_nat (10 * S j);
                       req_headers := None; req_params := None;
                       req_data := VUndefined; req_timeout := 9000 |}] |})
         [0; 1; 2],
     [{| err_node_id := "n3_weather[1]"; err_error := "timeout of 9000ms exceeded" |}],
     1%Z,
     Return (VObj [("temp_c", VArr [VNum (float_of_Z 20); VNull; VNum (float_of_Z 22)])],
             1%Z, false)).
Proof.
  vm_compute. reflexivity.
Qed.

Lemma fanout_dispatch_and_merge_witness :
  let n := weather_node (Some 3%Z) in
  let f := weather_fanout (Some 3%Z) in
  let base := fanout_base second_times_out f places_scope in
  let calls := fanout_calls second_times_out false 2 n f places_scope VUndefined in
  let cap := List.length calls in
  (forall m, max f = Some m -> (0 < m)%Z ->
             Z.of_nat cap = Z.min m (Z.of_nat (List.length base)))
  /\ (max f = None \/ max f = Some 0%Z -> cap = List.length base)
  /\ map snd calls
     = map (fun j => snd (runHttpNode second_times_out n
                            (subScope places_scope f (nth j base VUndefined))
                            false VUndefined (2, Some j)))
           (seq 0 cap)
  /\ exists merged_ attempts_ anyFallback_,
       node_body second_times_out false VUndefined 2 n after_places VUndefined
       = (map (fun jc => {| site_node := 2; site_item := Some (fst jc);
                            trace := fst (snd jc) |})
              (combine (seq 0 cap) calls),
          scoped_errors n (map snd calls), 1%Z,
          Return (VObj merged_, attempts_, anyFallback_))
       /\ (forall k col, lookup k merged_ = Some col ->
             exists l, col = VArr l /\ List.length l = cap
                       /\ forall j m, nth_error (map snd calls) j = Some (Throw m) ->
                                      nth j l VUndefined = VNull)
       /\ attempts_ = fold_left Z.max (map (call_attempts n) (map snd calls)) 1%Z
       /\ (false = false ->
           attempts_ = fold_left Z.max
                         (map (fun c => Z.of_nat (requests_made (fst c))) calls) 1%Z).
Proof.
  apply (fanout_dispatch_and_merge second_times_out false VUndefined VUndefined 2
           (weather_node (Some 3%Z)) after_places (weather_fanout (Some 3%Z))).
  - reflexivity.
  - reflexivity.
  - discriminate.
  - vm_compute. discriminate.
Defined.

(** ** Sorting *)

Section InsertionSort.
Context {num : Type} `{JsNumber num}.
Variable cmp : value num -> value num -> num.

Hypothesis after_asym : forall a b, after cmp a b = true -> after cmp b a = false.
Hypothesis after_negtrans :
  forall a b c, after cmp a b = false -> after cmp b c = false -> after cmp a c = false.

Lemma insert_sorted_perm (x : value num) (l : list (value num)) :
  Permutation (insert_sorted cmp x l) (x :: l).
Proof.
  induction l as [|y l IH]; simpl; auto.
  fold (after cmp y x). destruct (after cmp y x); auto.
  rewrite IH. apply perm_swap.
Qed.

Lemma insert_sorted_sorted (x : value num) (l : list (value num)) :
  StronglySorted (in_order cmp) l -> StronglySorted (in_order cmp) (insert_sorted cmp x l).
Proof.
  induction l as [|y l IH]; intros Hs; simpl.
  - constructor; constructor.
  - fold (after cmp y x). inversion Hs as [|? ? Hl Hy]; subst.
    destruct (after cmp y x) eqn:E.
    + constructor; auto. constructor.
      * now apply after_asym.
      * rewrite Forall_forall in *. intros z Hz.
        apply (after_negtrans x y z); [now apply after_asym | now apply Hy].
    + constructor; auto.
      rewrite Forall_forall in *. intros z Hz.
      apply (Permutation_in _ (insert_sorted_perm x l)) in Hz as [<-|Hz]; auto.
Qed.

Lemma insert_sorted_stable (r x : value num) (l : list (value num)) :
  StronglySorted (in_order cmp) l ->
  filter (same cmp r) (insert_sorted cmp x l) = filter (same cmp r) l ++ filter (same cmp r) [x].
Proof.
  induction l as [|y l IH]; intros Hs; [reflexivity|].
  cbn [insert_sorted]. fold (after cmp y x). inversion Hs as [|? ? Hl Hy]; subst.
  destruct (after cmp y x) eqn:E.
  - change (x :: y :: l) with ([x] ++ y :: l). rewrite filter_app.
    destruct (filter (same cmp r) [x]) as [|x' l'] eqn:Ex; [now rewrite app_nil_r|].
    assert (Ex' : same cmp r x = true).
    { simpl in Ex. destruct (same cmp r x); [reflexivity | discriminate]. }
    assert (Hnone : forall z, In z (y :: l) -> same cmp r z = false).
    { intros z Hz. destruct (same cmp r z) eqn:Ez; auto. exfalso.
      unfold same in Ex', Ez.
      apply andb_true_iff in Ex' as [Ex1 Ex2], Ez as [Ez1 Ez2].
      apply negb_true_iff in Ex1, Ex2, Ez1, Ez2.
      assert (Hyz : after cmp y z = false).
      { destruct Hz as [<-|Hz].
        - destruct (after cmp y y) eqn:Eyy; auto.
          pose proof (after_asym _ _ Eyy). congruence.
        - rewrite Forall_forall in Hy. now apply Hy. }
      assert (after cmp y x = false).
      { apply (after_negtrans y r x); auto. apply (after_negtrans y z r); auto. }
      congruence. }
    assert (Hnil : filter (same cmp r) (y :: l) = []).
    { clear -Hnone. induction (y :: l) as [|z l0 IH']; [reflexivity|].
      cbn [filter]. rewrite (Hnone z) by now left.
      apply IH'. intros z' Hz'. apply Hnone. now right. }
    rewrite Hnil, app_nil_r. reflexivity.
  - cbn [filter]. rewrite IH by assumption.
    destruct (same cmp r y); reflexivity.
Qed.

Lemma sort_fold (l done acc : list (value num)) :
  StronglySorted (in_order cmp) acc ->
  Permutation acc done ->
  (forall r, filter (same cmp r) acc = filter (same cmp r) done) ->
  let res := fold_left (fun sorted x => insert_sorted cmp x sorted) l acc in
  StronglySorted (in_order cmp) res
  /\ Permutation res (done ++ l)
  /\ forall r, filter (same cmp r) res = filter (same cmp r) (done ++ l).
Proof.
  revert done acc; induction l as [|x l IH]; intros done acc Hs Hp Hf; simpl.
  - rewrite app_nil_r. auto.
  - replace (done ++ x :: l) with ((done ++ [x]) ++ l) by now rewrite <- app_assoc.
    apply IH.
    + now apply insert_sorted_sorted.
    + rewrite insert_sorted_perm. rewrite Hp. apply Permutation_cons_append.
    + intros r. rewrite insert_sorted_stable by assumption.
      now rewrite filter_app, Hf.
Qed.

(** On rows none of which is [undefined], [js_sort] returns the rows in
    comparator order, ties in their original order. *)
Lemma js_sort_spec (l : list (value num)) :
  Forall (fun r => is_undefined r = false) l ->
  StronglySorted (in_order cmp) (js_sort cmp l)
  /\ Permutation (js_sort cmp l) l
  /\ forall r, filter (same cmp r) (js_sort cmp l) = filter (same cmp r) l.
Proof.
  intros Hu. unfold js_sort.
  assert (E : filter (fun v => negb (is_undefined v)) l = l
              /\ filter is_undefined l = []).
  { induction Hu as [|r l Hr _ [IH1 IH2]]; simpl; auto.
    now rewrite Hr, IH1, IH2. }
  destruct E as [E1 E2].
  rewrite E1, E2, app_nil_r.
  apply (sort_fold l [] []); auto. constructor.
Qed.


End InsertionSort.

(** ** Ranking *)

(** *** The order of binary64

    The comparison and the subtraction of the primitive floats are those
    of [SpecFloat]; what follows derives the order laws from these
    definitions.  A subtraction rounds an integer multiple of a power of
    two no smaller than [2 ^ emin], which never rounds to zero and keeps
    its sign. *)

Local Open Scope Z_scope.

Lemma digits2_pos_bounds (m : BinNums.positive) :
  2 ^ (Zpos (digits2_pos m) - 1) <= Zpos m < 2 ^ Zpos (digits2_pos m).
Proof.
  induction m as [m IH|m IH|]; cbn [digits2_pos].
  - rewrite Pos2Z.inj_succ.
    replace (Z.succ (Zpos (digits2_pos m)) - 1) with (Z.succ (Zpos (digits2_pos m) - 1)) by lia.
    rewrite !Z.pow_succ_r by lia. lia.
  - rewrite Pos2Z.inj_succ.
    replace (Z.succ (Zpos (digits2_pos m)) - 1) with (Z.succ (Zpos (digits2_pos m) - 1)) by lia.
    rewrite !Z.pow_succ_r by lia. lia.
  - simpl. lia.
Qed.

Lemma shr_1_m (mrs : shr_record) :
  0 <= shr_m mrs -> shr_m (shr_1 mrs) = shr_m mrs / 2.
Proof.
  destruct mrs as [m r s]; simpl. intros Hm.
  destruct m as [|p|p]; [reflexivity| |lia].
  destruct p as [p|p|]; cbn [shr_m].
  - rewrite Pos2Z.inj_xI. apply Z.div_unique with 1; lia.
  - rewrite Pos2Z.inj_xO. apply Z.div_unique with 0; lia.
  - reflexivity.
Qed.

Lemma iter_shr_1_m (n : BinNums.positive) (mrs : shr_record) :
  0 <= shr_m mrs ->
  shr_m (iter_pos shr_1 n mrs) = shr_m mrs / 2 ^ Zpos n.
Proof.
  revert mrs; induction n as [n IH|n IH|]; intros mrs Hm; cbn [iter_pos];
    try assert (P : 0 < 2 ^ Zpos n) by (apply Z.pow_pos_nonneg; lia).
  - assert (H1 : 0 <= shr_m (shr_1 mrs)).
    { rewrite shr_1_m by lia. apply Z.div_pos; lia. }
    assert (H2 : 0 <= shr_m (iter_pos shr_1 n (shr_1 mrs))).
    { rewrite IH by lia. apply Z.div_pos; lia. }
    rewrite IH, IH, shr_1_m by lia.
    rewrite !Z.div_div by lia.
    f_equal. rewrite <- Z.pow_add_r, <- (Z.pow_succ_r 2) by lia.
    f_equal. lia.
  - assert (H2 : 0 <= shr_m (iter_pos shr_1 n mrs)).
    { rewrite IH by lia. apply Z.div_pos; lia. }
    rewrite IH, IH by lia.
    rewrite !Z.div_div by lia.
    f_equal. rewrite <- Z.pow_add_r by lia. f_equal. lia.
  - rewrite shr_1_m by lia. reflexivity.
Qed.

Lemma shr_record_of_loc_m (m : Z) (l : location) : shr_m (shr_record_of_loc m l) = m.
Proof.
  destruct l as [|[]]; reflexivity.
Qed.

Lemma shr_fexp_pos (m e : Z) (l : location) :
  0 < m -> emin <= e ->
  0 < shr_m (fst (shr_fexp prec emax m e l))
  /\ emin <= snd (shr_fexp prec emax m e l).
Proof.
  intros Hm He. destruct m as [|p|p]; try lia.
  unfold shr_fexp, shr. cbn [Zdigits2].
  pose proof (digits2_pos_bounds p) as [Hlo _].
  set (d := Zpos (digits2_pos p)) in *.
  destruct (fexp prec emax (d + e) - e) as [|q|q] eqn:En; cbn [fst snd];
    rewrite ?shr_record_of_loc_m; try (split; lia).
  assert (Hq : Zpos q <= d - 1).
  { unfold fexp, SpecFloat.emin, prec, emax in *. lia. }
  rewrite iter_shr_1_m by (rewrite shr_record_of_loc_m; lia).
  rewrite shr_record_of_loc_m. split.
  - apply Z.div_str_pos. split; [apply Z.pow_pos_nonneg; lia|].
    apply Z.le_trans with (2 ^ (d - 1)); [|exact Hlo].
    apply Z.pow_le_mono_r; lia.
  - unfold fexp in En. lia.
Qed.

Lemma round_nearest_even_pos (m : Z) (l : location) :
  0 < m -> 0 < round_nearest_even m l.
Proof.
  intros Hm. destruct l as [|[]]; simpl; try lia.
  destruct (Z.even m); lia.
Qed.

Lemma binary_round_aux_positive (mx ex : Z) (lx : location) :
  0 < mx -> emin <= ex ->
  SFltb (S754_zero false) (binary_round_aux prec emax false mx ex lx) = true.
Proof.
  intros Hm He. unfold binary_round_aux.
  pose proof (shr_fexp_pos mx ex lx Hm He) as [H1 H2].
  destruct (shr_fexp prec emax mx ex lx) as [mrs' e']. cbn [fst snd] in *.
  pose proof (shr_fexp_pos _ e' loc_Exact
                (round_nearest_even_pos _ (loc_of_shr_record mrs') H1) H2) as [H3 _].
  destruct (shr_fexp prec emax _ e' loc_Exact) as [mrs'' e'']. cbn [fst] in *.
  destruct (shr_m mrs'') as [|m|m]; try lia.
  destruct (e'' <=? emax - prec); reflexivity.
Qed.

Lemma iter_xO (d m : BinNums.positive) : Zpos (Pos.iter xO m d) = Zpos m * 2 ^ Zpos d.
Proof.
  induction d as [|d IH] using Pos.peano_ind.
  - simpl. lia.
  - rewrite Pos.iter_succ, Pos2Z.inj_xO, IH, Pos2Z.inj_succ, Z.pow_succ_r by lia. lia.
Qed.

Lemma shl_align_spec (mx : BinNums.positive) (ex ex' : Z) :
  snd (shl_align mx ex ex') = Z.min ex ex'
  /\ Zpos (fst (shl_align mx ex ex')) = Zpos mx * 2 ^ (ex - Z.min ex ex').
Proof.
  unfold shl_align. destruct (ex' - ex) as [|d|d] eqn:E; cbn [fst snd].
  - replace (Z.min ex ex') with ex by lia. rewrite Z.sub_diag. simpl. lia.
  - replace (Z.min ex ex') with ex by lia. rewrite Z.sub_diag. simpl. lia.
  - replace (Z.min ex ex') with ex' by lia. rewrite iter_xO.
    replace (ex - ex') with (Zpos d) by lia. lia.
Qed.

Lemma binary_round_positive (m : BinNums.positive) (e : Z) :
  emin <= e ->
  SFltb (S754_zero false) (binary_round prec emax false m e) = true.
Proof.
  intros He. unfold binary_round.
  pose proof (shl_align_spec m e (fexp prec emax (Zpos (digits2_pos m) + e))) as [Hs _].
  destruct (shl_align m e _) as [mz ez]. cbn [snd] in Hs.
  apply binary_round_aux_positive; [lia|].
  unfold fexp in Hs. lia.
Qed.

Lemma binary_round_negative (m : BinNums.positive) (e : Z) :
  SFltb (S754_zero false) (binary_round prec emax true m e) = false.
Proof.
  unfold binary_round. destruct (shl_align m e _) as [mz ez].
  unfold binary_round_aux.
  destruct (shr_fexp prec emax (Zpos mz) ez loc_Exact) as [mrs' e'].
  destruct (shr_fexp prec emax _ e' loc_Exact) as [mrs'' e''].
  destruct (shr_m mrs'') as [|p|p]; try reflexivity.
  destruct (e'' <=? emax - prec); reflexivity.
Qed.

(** The sign of a normalised integer multiple of [2 ^ e]. *)
Lemma binary_normalize_sign (m e : Z) :
  emin <= e ->
  SFltb (S754_zero false) (binary_normalize prec emax m e false) = (0 <? m).
Proof.
  intros He. destruct m as [|p|p]; cbn [binary_normalize].
  - reflexivity.
  - now apply binary_round_positive.
  - apply binary_round_negative.
Qed.

Lemma bounded_canonical (m : BinNums.positive) (e : Z) :
  bounded prec emax m e = true ->
  emin <= e /\ Zpos (digits2_pos m) <= prec
  /\ (emin < e -> Zpos (digits2_pos m) = prec).
Proof.
  unfold bounded, canonical_mantissa, fexp. intros H.
  apply andb_prop in H as [H _]. apply Z.eqb_eq in H. lia.
Qed.

(** Of two canonical mantissas, the one with the larger exponent denotes
    the larger number. *)
Lemma larger_exponent (mx my : BinNums.positive) (ex ey : Z) :
  bounded prec emax mx ex = true -> bounded prec emax my ey = true ->
  ex < ey ->
  Zpos mx < Zpos my * 2 ^ (ey - ex).
Proof.
  intros Bx By Hlt.
  apply bounded_canonical in Bx as (Hx & Dx & _).
  apply bounded_canonical in By as (Hy & _ & Dy).
  specialize (Dy ltac:(lia)).
  pose proof (digits2_pos_bounds mx) as [_ Ux].
  pose proof (digits2_pos_bounds my) as [Ly _].
  rewrite Dy in Ly.
  assert (U : Zpos mx < 2 ^ prec).
  { apply Z.lt_le_trans with (1 := Ux). apply Z.pow_le_mono_r; lia. }
  assert (P : 2 ^ 1 <= 2 ^ (ey - ex)) by (apply Z.pow_le_mono_r; lia).
  assert (Q : 2 ^ prec = 2 * 2 ^ (prec - 1)).
  { unfold prec. reflexivity. }
  change (2 ^ 1) with 2 in P. nia.
Qed.

Lemma SFsub_sign (x y : spec_float) :
  valid_binary x = true -> valid_binary y = true ->
  x <> S754_nan -> y <> S754_nan ->
  SFltb (S754_zero false) (SFsub prec emax y x) = SFltb x y.
Proof.
  intros Vx Vy Nx Ny.
  destruct x as [sx|sx| |sx mx ex], y as [sy|sy| |sy my ey];
    try congruence;
    try (destruct sx, sy; reflexivity);
    try (destruct sx; reflexivity);
    try (destruct sy; reflexivity).
  cbn [valid_binary] in Vx, Vy.
  cbn [SFsub]. cbv zeta.
  pose proof (bounded_canonical _ _ Vx) as (Hx & _).
  pose proof (bounded_canonical _ _ Vy) as (Hy & _).
  rewrite binary_normalize_sign by lia.
  destruct (shl_align_spec my ey (Z.min ey ex)) as [_ ->].
  destruct (shl_align_spec mx ex (Z.min ey ex)) as [_ ->].
  unfold SFltb, SFcompare, cond_Zopp.
  destruct (Z.compare_spec ex ey) as [E|E|E].
  - subst ey. rewrite !Z.min_id, Z.sub_diag. change (2 ^ 0) with 1.
    change (Pos.compare_cont Eq mx my) with (Pos.compare mx my).
    destruct (Pos.compare_spec mx my) as [F|F|F], sx, sy; simpl CompOpp; cbv iota;
      try subst my; first [apply Z.ltb_lt; lia | apply Z.ltb_ge; lia].
  - pose proof (larger_exponent _ _ _ _ Vx Vy E).
    replace (Z.min ey (Z.min ey ex)) with ex by lia.
    replace (Z.min ex (Z.min ey ex)) with ex by lia.
    rewrite Z.sub_diag. change (2 ^ 0) with 1.
    destruct sx, sy; first [apply Z.ltb_lt; lia | apply Z.ltb_ge; lia].
  - pose proof (larger_exponent _ _ _ _ Vy Vx E).
    replace (Z.min ey (Z.min ey ex)) with ey by lia.
    replace (Z.min ex (Z.min ey ex)) with ey by lia.
    rewrite Z.sub_diag. change (2 ^ 0) with 1.
    destruct sx, sy; first [apply Z.ltb_lt; lia | apply Z.ltb_ge; lia].
Qed.

Lemma SFltb_rank (x y : spec_float) :
  x <> S754_nan -> y <> S754_nan ->
  (SFltb x y = true <-> below (rank x) (rank y)).
Proof.
  intros Nx Ny.
  destruct x as [sx|sx| |sx mx ex], y as [sy|sy| |sy my ey]; try congruence;
    unfold SFltb, SFcompare, rank, below;
    try (destruct sx; split; intros; try discriminate; try reflexivity; lia);
    try (destruct sy; split; intros; try discriminate; try reflexivity; lia);
    try (destruct sx, sy; split; intros; try discriminate; try reflexivity; lia).
  change (Pos.compare_cont Eq mx my) with (Pos.compare mx my).
  destruct sx, sy, (Z.compare_spec ex ey) as [E|E|E],
    (Pos.compare_spec mx my) as [F|F|F]; simpl CompOpp; cbv iota;
    split; intros; try discriminate; try reflexivity; try lia.
Qed.

Lemma SFltb_asym (x y : spec_float) :
  x <> S754_nan -> y <> S754_nan ->
  SFltb x y = true -> SFltb y x = false.
Proof.
  intros Nx Ny H. apply (SFltb_rank x y Nx Ny) in H.
  destruct (SFltb y x) eqn:E; [|reflexivity].
  apply (SFltb_rank y x Ny Nx) in E.
  unfold below in *. destruct (rank x) as [[a1 a2] a3], (rank y) as [[b1 b2] b3]. lia.
Qed.

Lemma SFltb_negtrans (x y z : spec_float) :
  x <> S754_nan -> y <> S754_nan -> z <> S754_nan ->
  SFltb x y = false -> SFltb y z = false -> SFltb x z = false.
Proof.
  intros Nx Ny Nz H1 H2.
  destruct (SFltb x z) eqn:E; [|reflexivity].
  apply (SFltb_rank x z Nx Nz) in E.
  assert (G1 : ~ below (rank x) (rank y)).
  { intros G. apply (SFltb_rank x y Nx Ny) in G. congruence. }
  assert (G2 : ~ below (rank y) (rank z)).
  { intros G. apply (SFltb_rank y z Ny Nz) in G. congruence. }
  unfold below in *.
  destruct (rank x) as [[a1 a2] a3], (rank y) as [[b1 b2] b3], (rank z) as [[c1 c2] c3].
  lia.
Qed.

Lemma is_nan_Prim2SF (a : float) : PrimFloat.is_nan a = false -> Prim2SF a <> S754_nan.
Proof.
  unfold PrimFloat.is_nan. rewrite eqb_spec. intros H E.
  rewrite E in H. discriminate.
Qed.

Local Close Scope Z_scope.

Lemma float_zero_ltb (a b : float) :
  PrimFloat.eqb a (float_of_Z 0) = true ->
  PrimFloat.ltb a b = PrimFloat.ltb (float_of_Z 0) b
  /\ PrimFloat.ltb b a = PrimFloat.ltb b (float_of_Z 0).
Proof.
  rewrite eqb_spec, !ltb_spec.
  change (Prim2SF (float_of_Z 0)) with (S754_zero false).
  destruct (Prim2SF a) as [s| s| |s m e]; try discriminate.
  - intros _. split; destruct (Prim2SF b) as [t|t| |t m e]; reflexivity.
  - destruct s; discriminate.
  - destruct s; discriminate.
Qed.

#[export] Instance exact_order : OrderLaws R.
Proof.
  split; simpl; unfold Rltb, Reqb; intros;
    repeat match goal with
           | |- context [Rlt_dec ?a ?b] => destruct (Rlt_dec a b)
           | H : context [Rlt_dec ?a ?b] |- _ => destruct (Rlt_dec a b)
           | |- context [Req_dec_T ?a ?b] => destruct (Req_dec_T a b)
           | H : context [Req_dec_T ?a ?b] |- _ => destruct (Req_dec_T a b)
           end; try split; try reflexivity; try discriminate; exfalso; lra.
Qed.

#[export] Instance binary64_order : OrderLaws float.
Proof.
  split; cbn [isNaN ltb eqb sub of_Z NaN ieee].
  - reflexivity.
  - reflexivity.
  - exact float_zero_ltb.
  - intros a b Na Nb. rewrite !ltb_spec.
    apply SFltb_asym; now apply is_nan_Prim2SF.
  - intros a b c Na Nb Nc. rewrite !ltb_spec.
    apply SFltb_negtrans; now apply is_nan_Prim2SF.
  - intros a b Na Nb. rewrite !ltb_spec, sub_spec.
    change (Prim2SF (float_of_Z 0)) with (S754_zero false).
    apply SFsub_sign; try apply Prim2SF_valid; now apply is_nan_Prim2SF.
Qed.

Section Ranking.
Context {num : Type} `{OrderLaws num}.
Variable pf : platform num.
Variable by_ : value num.








End Ranking.











Section RankedValue.
Context {num : Type} {N : JsNumber num} {O : OrderLaws num}.
Variable pf : platform num.
Variable by_ : string.





End RankedValue.




(** On binary64: the two rows with score 3 come first, in input order. *)
Example top_n_on_doubles :
  t_top_n offline (VArr three_rows) 2 (VStr "score") true
  = [scored "b" 3; scored "c" 3].
Proof.
  vm_compute. reflexivity.
Qed.

(** ** Rows and quality *)

(** [asRows] returns a list of rows as it is, turns columns of one length
    into one row per position, and cuts columns of different lengths to
    the shortest. *)
Example asRows_rows_and_columns {num : Type} `{JsNumber num} :
  (forall rows : list (value num), asRows (VArr rows) = rows)
  /\ asRows (VObj [("a", VArr [VNum (of_Z 1); VNum (of_Z 2)]);
                   ("b", VArr [VNum (of_Z 3); VNum (of_Z 4)])])
     = [VObj [("a", VNum (of_Z 1)); ("b", VNum (of_Z 3))];
        VObj [("a", VNum (of_Z 2)); ("b", VNum (of_Z 4))]]
  /\ asRows (VObj [("a", VArr [VNum (of_Z 1); VNum (of_Z 2); VNum (of_Z 3)]);
                   ("b", VArr [VNum (of_Z 4)])])
     = [VObj [("a", VNum (of_Z 1)); ("b", VNum (of_Z 4))]].
Proof.
  repeat split; reflexivity.
Qed.

(** On binary64, every row [t_compute_osm_quality] returns carries a
    [quality] that is a number between 3.5 and 5. *)
Theorem quality_between_3_5_and_5 (pf : platform float) (arr fields : value float) :
  Forall (fun row =>
            exists q, lookup "quality" (fields_of row) = Some (VNum q)
                      /\ isNaN q = false
                      /\ (q <? dec 35 1)%js = false
                      /\ (of_Z 5 <? q)%js = false)
         (t_compute_osm_quality pf arr fields).
Proof.
  unfold t_compute_osm_quality. apply Forall_map, Forall_forall. intros row _.
  eexists. split; [cbn [fields_of]; rewrite lookup_set_field; reflexivity|].
  destruct (truthy (tag pf (or_else fields (VObj [])) row "cuisine")),
    (truthy (tag pf (or_else fields (VObj [])) row "opening_hours")),
    (yes pf (tag pf (or_else fields (VObj [])) row "outdoor_seating")),
    (yes pf (tag pf (or_else fields (VObj [])) row "wheelchair"));
    vm_compute; auto.
Qed.

(** ** Interpolation *)

Lemma chars_of_chars (l : list ascii) : chars (of_chars l) = l.
Proof. induction l; simpl; congruence. Qed.

Lemma of_chars_chars (s : string) : of_chars (chars s) = s.
Proof. induction s; simpl; congruence. Qed.

Lemma chars_append (a b : string) : chars (a ++ b) = chars a ++ chars b.
Proof. induction a; simpl; congruence. Qed.







Lemma replace_placeholders_0 (f : string -> string) (c : ascii) (l : list ascii) :
  replace_placeholders f 0 (c :: l)
  = match placeholder_at (c :: l) with
    | Some (code, len) => chars (f (of_chars code)) ++ replace_placeholders f (len - 1) l
    | None => c :: replace_placeholders f 0 l
    end.
Proof. reflexivity. Qed.

















(** The earlier revision of the interpolator (src/unnamed/part_001) never
    puts the origin first: its [join_coords] joins the destination pairs
    alone, and answers the scenario with ["10,1;20,2"]. *)
Theorem part_001_join_coords_leaves_origin_out :
  (forall (num : Type) (N : JsNumber num) (pf : platform num) (scope : value num)
          (latPath lonPath : string),
      Part_001.join_coords pf scope latPath lonPath
      = match resolvePathLike pf scope (VStr latPath),
              resolvePathLike pf scope (VStr lonPath) with
        | VArr lats, VArr lons => join ";" (coord_pairs pf lats lons)
        | _, _ => ""
        end)
  /\ Part_001.interpolate offline "{{join_coords(outputs.a.lat, outputs.a.lon)}}"
       scenario_scope
     = "10,1;20,2".
Proof.
  split.
  - intros num N pf scope latPath lonPath. unfold Part_001.join_coords.
    destruct (resolvePathLike pf scope (VStr latPath)); try reflexivity.
    destruct (resolvePathLike pf scope (VStr lonPath)); try reflexivity.
    cbv zeta. destruct (String.eqb _ ""); reflexivity.
  - vm_compute. reflexivity.
Qed.

(** ** Correlation *)

(** *** Symmetry *)

Section Symmetry.
Context {num : Type} `{JsNumber num}.
Hypothesis mul_comm : forall a b : num, (a * b)%js = (b * a)%js.

Lemma moments_swap (X Y : list num) (mx my : num) (l : list nat) (s a b : num) :
  fold_left
    (fun acc i =>
       let '(num_, dx, dy) := acc in
       let vx := (nth i Y (of_Z 0) - my)%js in
       let vy := (nth i X (of_Z 0) - mx)%js in
       ((num_ + vx * vy)%js, (dx + vx * vx)%js, (dy + vy * vy)%js))
    l (s, b, a)
  = let '(s', a', b') :=
      fold_left
        (fun acc i =>
           let '(num_, dx, dy) := acc in
           let vx := (nth i X (of_Z 0) - mx)%js in
           let vy := (nth i Y (of_Z 0) - my)%js in
           ((num_ + vx * vy)%js, (dx + vx * vx)%js, (dy + vy * vy)%js))
        l (s, a, b) in
    (s', b', a').
Proof.
  revert s a b; induction l as [|i l IH]; intros s a b; [reflexivity|].
  cbn [fold_left]. cbv zeta.
  rewrite (mul_comm (nth i Y (of_Z 0) - my)%js (nth i X (of_Z 0) - mx)%js).
  apply IH.
Qed.

Lemma pearson_sym (X Y : list num) : pearson X Y = pearson Y X.
Proof.
  unfold pearson. rewrite (Nat.min_comm (List.length Y)).
  destruct (_ <? 2)%nat; [reflexivity|].
  unfold moments. rewrite moments_swap.
  destruct (fold_left _ _ _) as [[s a] b].
  now rewrite (mul_comm b a).
Qed.

End Symmetry.

(** Multiplication of doubles is commutative. *)
Lemma SFmul_comm (prec emax : Z) (x y : spec_float) :
  SFmul prec emax x y = SFmul prec emax y x.
Proof.
  destruct x as [sx|sx| |sx mx ex], y as [sy|sy| |sy my ey]; simpl;
    rewrite ?(xorb_comm sx sy), ?(Pos.mul_comm mx my), ?(Z.add_comm ex ey);
    reflexivity.
Qed.

Lemma float_mul_comm (a b : float) : (a * b)%float = (b * a)%float.
Proof.
  apply Prim2SF_inj. rewrite !mul_spec. apply SFmul_comm.
Qed.

(** *** Exact arithmetic *)

Local Open Scope R_scope.

Lemma cauchy_step (s a b x y : R) :
  s * s <= a * b -> 0 <= a -> 0 <= b ->
  (s + x * y) * (s + x * y) <= (a + x * x) * (b + y * y).
Proof.
  intros Hs Ha Hb.
  assert (Hk : 0 <= a * (y * y) + b * (x * x) - 2 * s * x * y).
  { destruct (Req_dec a 0) as [Ea|Ea].
    - subst a. assert (s = 0) by nra. subst s. nra.
    - assert (0 < a) by lra.
      assert (0 <= a * (a * (y * y) + b * (x * x) - 2 * s * x * y)).
      { replace (a * (a * (y * y) + b * (x * x) - 2 * s * x * y))
          with ((a * y - s * x) * (a * y - s * x) + (a * b - s * s) * (x * x)) by ring.
        apply Rplus_le_le_0_compat.
        - apply Rle_0_sqr.
        - apply Rmult_le_pos; [lra | apply Rle_0_sqr]. }
      apply Rmult_le_reg_l with a; [assumption | now rewrite Rmult_0_r]. }
  replace ((a + x * x) * (b + y * y))
    with ((s + x * y) * (s + x * y) + (a * b - s * s)
          + (a * (y * y) + b * (x * x) - 2 * s * x * y)) by ring.
  lra.
Qed.

Lemma moments_exact (X Y : list R) (n : nat) (mx my : R) :
  moments (num := R) X Y n mx my = fold_left (exact_step X Y mx my) (seq 0 n) (0, 0, 0).
Proof. reflexivity. Qed.

Lemma exact_step_cauchy (X Y : list R) (mx my : R) (l : list nat) (s a b : R) :
  s * s <= a * b -> 0 <= a -> 0 <= b ->
  let '(s', a', b') := fold_left (exact_step X Y mx my) l (s, a, b) in
  s' * s' <= a' * b' /\ 0 <= a' /\ 0 <= b'.
Proof.
  revert s a b; induction l as [|i l IH]; intros s a b Hs Ha Hb; cbn [fold_left].
  - auto.
  - unfold exact_step at 2. apply IH.
    + now apply cauchy_step.
    + apply Rplus_le_le_0_compat; [assumption | apply Rle_0_sqr].
    + apply Rplus_le_le_0_compat; [assumption | apply Rle_0_sqr].
Qed.

(** With all deviations of [X] null the sum of their squares stays null. *)
Lemma exact_step_flat (X Y : list R) (mx my : R) (l : list nat) (s b : R) :
  (forall i, In i l -> nth i X 0 = mx) ->
  let '(_, a', _) := fold_left (exact_step X Y mx my) l (s, 0, b) in a' = 0.
Proof.
  revert s b; induction l as [|i l IH]; intros s b Hl; cbn [fold_left].
  - reflexivity.
  - unfold exact_step at 2. rewrite (Hl i) by now left.
    replace (0 + (mx - mx) * (mx - mx)) with 0 by ring.
    apply IH. intros j Hj. apply Hl. now right.
Qed.

Lemma sum_exact (l : list R) (acc : R) :
  fold_left Rplus l acc = acc + fold_right Rplus 0 l.
Proof.
  revert acc; induction l as [|x l IH]; intros acc; simpl; [lra|].
  rewrite IH. lra.
Qed.

Lemma sum_constant (l : list R) (c : R) :
  (forall x, In x l -> x = c) -> fold_right Rplus 0 l = INR (List.length l) * c.
Proof.
  induction l as [|x l IH]; intros Hl.
  - simpl. lra.
  - cbn [fold_right]. rewrite IH by (intros y Hy; apply Hl; now right).
    rewrite (Hl x) by now left.
    cbn [List.length]. rewrite S_INR. lra.
Qed.

Lemma pearson_bounded (X Y : list R) : -1 <= pearson X Y <= 1.
Proof.
  unfold pearson. destruct (_ <? 2)%nat; [simpl; lra|].
  rewrite moments_exact.
  set (n := Nat.min (List.length X) (List.length Y)).
  pose proof (exact_step_cauchy X Y
                (sum (firstn n X) / of_Z (Z.of_nat n))%js
                (sum (firstn n Y) / of_Z (Z.of_nat n))%js
                (seq 0 n) 0 0 0 ltac:(lra) ltac:(lra) ltac:(lra)) as Hc.
  destruct (fold_left _ _ _) as [[s a] b]. destruct Hc as (Hs & Ha & Hb).
  simpl. unfold Rltb.
  destruct (Rlt_dec _ _) as [Hd|Hd]; [|lra].
  set (den := R_sqrt.sqrt (a * b)) in *.
  assert (Hden : 0 < den).
  { assert (0 < 1 / 1000000) by lra. simpl in Hd. lra. }
  assert (Hsq : den * den = a * b) by (apply sqrt_sqrt; nra).
  assert (Hq : s / den * den = s) by (field; lra).
  set (q := s / den) in *.
  assert (Hqq : q * q <= 1).
  { apply Rmult_le_reg_r with (den * den); [nra|].
    replace (q * q * (den * den)) with ((q * den) * (q * den)) by ring.
    rewrite Hq. lra. }
  split; nra.
Qed.

(** A series all of whose paired values are equal has no variance, and the
    coefficient is 0. *)
Lemma pearson_flat (X Y : list R) (c : R) :
  (forall i, (i < Nat.min (List.length X) (List.length Y))%nat -> nth i X 0 = c) ->
  pearson X Y = 0.
Proof.
  intros Hc. unfold pearson.
  destruct (_ <? 2)%nat eqn:En; [reflexivity|].
  apply Nat.ltb_ge in En.
  set (n := Nat.min (List.length X) (List.length Y)) in *.
  assert (Hmx : (sum (firstn n X) / of_Z (Z.of_nat n))%js = c).
  { unfold sum. simpl. rewrite sum_exact, (sum_constant _ c).
    - rewrite length_firstn, <- INR_IZR_INZ.
      replace (Nat.min n (List.length X)) with n by (subst n; lia).
      field. apply not_0_INR. lia.
    - intros x Hx. apply In_nth with (d := 0) in Hx as (i & Hi & <-).
      rewrite length_firstn in Hi. rewrite nth_firstn.
      destruct (i <? n)%nat eqn:Ei.
      + apply Hc. now apply Nat.ltb_lt.
      + apply Nat.ltb_ge in Ei. lia. }
  rewrite Hmx, moments_exact.
  pose proof (exact_step_flat X Y c (sum (firstn n Y) / of_Z (Z.of_nat n))%js
                (seq 0 n) 0 0) as Hf.
  destruct (fold_left _ _ _) as [[s a] b].
  rewrite Hf.
  - simpl. rewrite Rmult_0_l, sqrt_0. unfold Rltb.
    destruct (Rlt_dec _ _) as [Hd|Hd]; [|reflexivity]. exfalso. lra.
  - intros i Hi. apply in_seq in Hi. apply Hc. lia.
Qed.

Local Close Scope R_scope.

(** *** Pairing *)

(** C1 fails on the code.  [xs = [1, "n/a", 2, 3]] and
    [ys = [1, 3, "n/a", 2]] have two index-aligned numeric pairs, [(1, 1)]
    and [(3, 2)], whose coefficient is 1; the code filters each array on
    its own, pairs [[1, 2, 3]] with [[1, 3, 2]] and returns 0.5. *)
Theorem correlation_filters_before_pairing :
  numeric offline shifted_xs = [float_of_Z 1; float_of_Z 2; float_of_Z 3]
  /\ numeric offline shifted_ys = [float_of_Z 1; float_of_Z 3; float_of_Z 2]
  /\ t_correlation offline shifted_xs shifted_ys = dec 5 1
  /\ correlation_by_index offline shifted_xs shifted_ys = float_of_Z 1.
Proof.
  vm_compute. repeat split; reflexivity.
Qed.

Lemma aligned_filter {num : Type} `{JsNumber num} (A B : list num) :
  List.length A = List.length B ->
  Forall (fun a => isNaN a = false) A ->
  Forall (fun b => isNaN b = false) B ->
  let pairs := filter (fun p => negb (isNaN (fst p)) && negb (isNaN (snd p)))
                      (combine A B) in
  filter (fun x => negb (isNaN x)) A = map fst pairs
  /\ filter (fun x => negb (isNaN x)) B = map snd pairs.
Proof.
  revert B; induction A as [|a A IH]; intros [|b B] Hl HA HB; simpl in *;
    try discriminate; auto.
  inversion HA as [|? ? Ha HA']; inversion HB as [|? ? Hb HB']; subst.
  rewrite Ha, Hb; simpl.
  destruct (IH B ltac:(congruence) HA' HB') as [-> ->]. auto.
Qed.

(** Where the two series have the same length and every entry is numeric,
    nothing is filtered and the code computes the coefficient of the
    index-aligned pairs. *)
Theorem correlation_agrees_on_numeric_series
  {num : Type} `{JsNumber num} (pf : platform num) (xs ys : list (value num)) :
  List.length xs = List.length ys ->
  Forall (fun v => isNaN (Number pf v) = false) xs ->
  Forall (fun v => isNaN (Number pf v) = false) ys ->
  t_correlation pf (VArr xs) (VArr ys) = correlation_by_index pf (VArr xs) (VArr ys).
Proof.
  intros Hl Hx Hy. unfold t_correlation, correlation_by_index, numeric.
  cbn [items_of].
  destruct (aligned_filter (map (Number pf) xs) (map (Number pf) ys)) as [-> ->];
    try reflexivity.
  - now rewrite !length_map.
  - apply Forall_map. exact Hx.
  - apply Forall_map. exact Hy.
Qed.

Lemma correlation_agrees_on_numeric_series_witness :
  t_correlation offline
    (VArr [VNum (float_of_Z 1); VNum (float_of_Z 2); VNum (float_of_Z 3)])
    (VArr [VNum (float_of_Z 2); VNum (float_of_Z 4); VNum (float_of_Z 6)])
  = correlation_by_index offline
      (VArr [VNum (float_of_Z 1); VNum (float_of_Z 2); VNum (float_of_Z 3)])
      (VArr [VNum (float_of_Z 2); VNum (float_of_Z 4); VNum (float_of_Z 6)]).
Proof.
  apply (correlation_agrees_on_numeric_series offline).
  - reflexivity.
  - repeat constructor.
  - repeat constructor.
Defined.

(** *** Symmetry, zero cases and bound *)

Lemma pearson_short {num : Type} `{JsNumber num} (X Y : list num) :
  List.length X < 2 \/ List.length Y < 2 -> pearson X Y = of_Z 0.
Proof.
  intros Hs. unfold pearson.
  assert (E : (Nat.min (List.length X) (List.length Y) <? 2)%nat = true)
    by (apply Nat.ltb_lt; lia).
  now rewrite E.
Qed.

(** C6 as stated fails on doubles: for [xs = [0.1, 0.7]] and
    [ys = [1, 7]] rounding makes the coefficient 1.0000000000000002, above
    1; for [xs = ys = [1e200, -1e200]] the sums overflow and it is NaN. *)
Lemma correlation_exceeds_one_on_doubles :
  (of_Z 1 <? t_correlation offline (VArr [VNum (dec 1 1); VNum (dec 7 1)])
                                   (VArr [VNum (of_Z 1); VNum (of_Z 7)]))%js = true
  /\ isNaN (t_correlation offline
              (VArr [VNum (of_Z (10 ^ 200)); VNum (of_Z (- 10 ^ 200))])
              (VArr [VNum (of_Z (10 ^ 200)); VNum (of_Z (- 10 ^ 200))])) = true.
Proof.
  vm_compute. split; reflexivity.
Qed.

(** C6, amended.  On doubles, [correlation(xs, ys)] and
    [correlation(ys, xs)] are the same value (the same double, or NaN both)
    and [correlation([1,2,3], [2,4,6])] is 1.  In any arithmetic the result
    is 0 when fewer than two entries of [xs] or of [ys] are numeric.  In
    exact arithmetic the result lies in [-1, 1], and it is 0 when the
    paired values of either series are all equal (zero variance).  On
    doubles the bound is not kept: rounding can take the result past 1 and
    overflow can make it NaN. *)
Theorem correlation_symmetric_zero_and_exactly_bounded :
  (forall (pf : platform float) (xs ys : value float),
      t_correlation pf xs ys = t_correlation pf ys xs)
  /\ t_correlation offline
       (VArr [VNum (of_Z 1); VNum (of_Z 2); VNum (of_Z 3)])
       (VArr [VNum (of_Z 2); VNum (of_Z 4); VNum (of_Z 6)]) = float_of_Z 1
  /\ (forall (num : Type) (N : JsNumber num) (pf : platform num) (xs ys : value num),
        List.length (numeric pf xs) < 2 \/ List.length (numeric pf ys) < 2 ->
        t_correlation pf xs ys = of_Z 0)
  /\ (forall (pf : platform R) (xs ys : value R),
        (-1 <= t_correlation pf xs ys <= 1)%R)
  /\ (forall (pf : platform R) (xs ys : value R) (c : R),
        let n := Nat.min (List.length (numeric pf xs)) (List.length (numeric pf ys)) in
        (forall i, i < n -> nth i (numeric pf xs) 0%R = c)
        \/ (forall i, i < n -> nth i (numeric pf ys) 0%R = c) ->
        t_correlation pf xs ys = 0%R).
Proof.
  split; [|split; [|split; [|split]]].
  - intros pf xs ys. unfold t_correlation.
    apply (pearson_sym (H := ieee) float_mul_comm).
  - vm_compute. reflexivity.
  - intros num N pf xs ys Hs. unfold t_correlation. now apply pearson_short.
  - intros pf xs ys. unfold t_correlation. apply pearson_bounded.
  - intros pf xs ys c n [Hx|Hy]; unfold t_correlation.
    + now apply (pearson_flat _ _ c).
    + rewrite (pearson_sym (H := exact) Rmult_comm).
      apply (pearson_flat _ _ c). now rewrite Nat.min_comm.
Qed.

Lemma correlation_symmetric_zero_and_exactly_bounded_witness :
  t_correlation offline (VArr [VNum (float_of_Z 5); VStr "n/a"])
                (VArr [VNum (float_of_Z 1); VNum (float_of_Z 2)])
  = float_of_Z 0.
Proof.
  apply (proj1 (proj2 (proj2 correlation_symmetric_zero_and_exactly_bounded))).
  left. vm_compute. lia.
Defined.

(** ** Dotted paths and plain templates *)

Lemma split_chars_app (sep : ascii) (a b cur : list ascii) :
  split_chars sep cur (a ++ sep :: b)
  = split_chars sep cur a ++ split_chars sep [] b.
Proof.
  revert cur; induction a as [|c a IH]; intros cur; simpl.
  - now rewrite Ascii.eqb_refl.
  - destruct (Ascii.eqb c sep); simpl; now rewrite IH.
Qed.

Lemma split_app (sep : ascii) (p q : string) :
  split sep (p ++ String sep q) = split sep p ++ split sep q.
Proof.
  unfold split. rewrite chars_append. simpl. apply split_chars_app.
Qed.

Lemma split_chars_none (sep : ascii) (a cur : list ascii) :
  forallb (is_not sep) a = true ->
  split_chars sep cur a = [of_chars (rev cur ++ a)].
Proof.
  revert cur; induction a as [|c a IH]; intros cur Ha; simpl in *.
  - now rewrite app_nil_r.
  - apply andb_true_iff in Ha as [Hc Ha]. unfold is_not in Hc.
    apply negb_true_iff in Hc. rewrite Hc, IH by assumption.
    simpl. now rewrite <- app_assoc.
Qed.

Lemma split_none (sep : ascii) (k : string) :
  forallb (is_not sep) (chars k) = true -> split sep k = [k].
Proof.
  intros Hk. unfold split. rewrite split_chars_none by assumption.
  simpl. now rewrite of_chars_chars.
Qed.

Lemma walk_nullish {num : Type} `{JsNumber num} (cur : value num) (q : list string) :
  is_nullish cur = true -> walk cur q = VUndefined \/ (q = [] /\ walk cur q = cur).
Proof.
  intros Hn. destruct q; simpl; [now right | rewrite Hn; now left].
Qed.

Lemma walk_app {num : Type} `{JsNumber num} (cur : value num) (p q : list string) :
  walk cur (p ++ q) = walk (walk cur p) q.
Proof.
  revert cur; induction p as [|a p IH]; intros cur; simpl; auto.
  destruct (is_nullish cur); auto.
  destruct q; reflexivity.
Qed.

(** A dotted path is resolved part by part. *)
Theorem resolvePathLike_dotted_compose {num : Type} `{JsNumber num}
  (pf : platform num) (scope : value num) (p q : string) :
  dotted p = true -> dotted q = true -> dotted (p ++ "." ++ q) = true ->
  resolvePathLike pf scope (VStr (p ++ "." ++ q))
  = resolvePathLike pf (resolvePathLike pf scope (VStr p)) (VStr q).
Proof.
  unfold dotted, resolvePathLike. intros Hp Hq Hpq.
  apply negb_true_iff in Hp, Hq, Hpq. rewrite Hp, Hq, Hpq.
  change (p ++ "." ++ q)%string with (p ++ String "."%char q)%string.
  rewrite split_app. apply walk_app.
Qed.

Lemma resolvePathLike_dotted_compose_witness :
  resolvePathLike offline scenario_scope (VStr ("outputs.a" ++ "." ++ "lat"))
  = resolvePathLike offline (resolvePathLike offline scenario_scope (VStr "outputs.a"))
      (VStr "lat").
Proof.
  apply (resolvePathLike_dotted_compose offline scenario_scope "outputs.a" "lat");
    reflexivity.
Defined.

Lemma from_outputs_key {num : Type} `{JsNumber num} (pf : platform num)
  (outs : list (string * value num)) (k : string) :
  dot_free k ->
  from_outputs pf outs (VStr ("outputs." ++ k))
  = match lookup k outs with Some v => v | None => VUndefined end.
Proof.
  intros Hk. unfold from_outputs, resolvePathLike.
  change (startsWith "$." ("outputs." ++ k) || startsWith "$[" ("outputs." ++ k))
    with false. cbv iota.
  change ("outputs." ++ k)%string with ("outputs" ++ String "."%char k)%string.
  rewrite split_app, (split_none "."%char k Hk).
  reflexivity.
Qed.

(** What a node stored under its id is what the path [outputs.<id>] gives
    the nodes after it, and storing it changes no other entry. *)
Theorem stored_output_is_resolved {num : Type} `{JsNumber num} (pf : platform num)
  (outs : list (string * value num)) (k : string) (v : value num) :
  dot_free k ->
  from_outputs pf (set_field k v outs) (VStr ("outputs." ++ k)) = v
  /\ forall k', dot_free k' -> k' <> k ->
       from_outputs pf (set_field k v outs) (VStr ("outputs." ++ k'))
       = from_outputs pf outs (VStr ("outputs." ++ k')).
Proof.
  intros Hk. split.
  - rewrite from_outputs_key, lookup_set_field, String.eqb_refl by assumption.
    reflexivity.
  - intros k' Hk' Hne. rewrite !from_outputs_key, lookup_set_field by assumption.
    apply String.eqb_neq in Hne. now rewrite Hne.
Qed.

Lemma stored_output_is_resolved_witness :
  from_outputs offline (set_field "n1" (VNum (float_of_Z 7)) five_places)
    (VStr ("outputs." ++ "n1")) = VNum (float_of_Z 7)
  /\ forall k', dot_free k' -> k' <> "n1" ->
       from_outputs offline (set_field "n1" (VNum (float_of_Z 7)) five_places)
         (VStr ("outputs." ++ k'))
       = from_outputs offline five_places (VStr ("outputs." ++ k')).
Proof.
  apply (stored_output_is_resolved offline five_places "n1"). reflexivity.
Defined.

(** *** Interpolation *)

Lemma placeholder_at_plain (c : ascii) (l : list ascii) :
  is_not "{" c = true -> placeholder_at (c :: l) = None.
Proof.
  unfold is_not, placeholder_at. intros Hc. apply negb_true_iff in Hc.
  change (chars "{{") with ["{"%char; "{"%char]. cbn [strip_prefix].
  rewrite Ascii.eqb_sym in Hc. now rewrite Hc.
Qed.

Lemma replace_placeholders_plain (f : string -> string) (a t : list ascii) :
  forallb (is_not "{") a = true ->
  replace_placeholders f 0 (a ++ t) = a ++ replace_placeholders f 0 t.
Proof.
  induction a as [|c a IH]; intros Ha; [reflexivity|].
  simpl in Ha. apply andb_true_iff in Ha as [Hc Ha].
  change ((c :: a) ++ t) with (c :: a ++ t).
  rewrite replace_placeholders_0, placeholder_at_plain by assumption.
  now rewrite IH.
Qed.


(** A template without an opening brace is returned as it is. *)
Theorem interpolate_plain_text {num : Type} `{JsNumber num} (pf : platform num)
  (scope : value num) (template : string) :
  brace_free template -> interpolate pf template scope = template.
Proof.
  intros Hb. unfold interpolate.
  destruct (String.eqb template ""); [reflexivity|].
  rewrite <- (app_nil_r (chars template)), replace_placeholders_plain by exact Hb.
  simpl. rewrite app_nil_r. apply of_chars_chars.
Qed.

Lemma interpolate_plain_text_witness :
  interpolate offline "https://api.open-meteo.com/v1/forecast" scenario_scope
  = "https://api.open-meteo.com/v1/forecast".
Proof.
  apply (interpolate_plain_text offline). reflexivity.
Defined.









Example interpolate_scenario_values :
  interpolate offline "lat={{outputs.a.lat.0}}&x={{outputs.b}}" scenario_scope = "lat=1&x=".
Proof. vm_compute. reflexivity. Qed.

(** ** Response maps and columns *)

(** *** Decimal indices *)

Lemma nat_of_digit (n : nat) : n < 10 -> nat_of_ascii (digit n) = 48 + n.
Proof.
  intros Hn. unfold digit. apply nat_ascii_embedding. lia.
Qed.

Lemma index_digits_digits_fuel (f n : nat) (acc : list ascii) :
  n < f -> index_digits (digits_fuel f n acc) 0 = index_digits acc n.
Proof.
  revert n acc; induction f as [|f IH]; intros n acc Hn; [lia|].
  cbn [digits_fuel].
  assert (Hm : n mod 10 < 10) by (apply Nat.mod_upper_bound; lia).
  destruct (n <? 10)%nat eqn:E.
  - apply Nat.ltb_lt in E. rewrite Nat.mod_small by assumption.
    cbn [index_digits]. rewrite nat_of_digit by assumption.
    replace ((48 <=? 48 + n)%nat && (48 + n <=? 57)%nat) with true.
    + f_equal. lia.
    + symmetry. apply andb_true_iff. split; apply Nat.leb_le; lia.
  - apply Nat.ltb_ge in E.
    assert (Hd : n / 10 < f).
    { assert (n / 10 < n) by (apply Nat.div_lt; lia). lia. }
    rewrite IH by assumption.
    cbn [index_digits]. rewrite nat_of_digit by assumption.
    replace ((48 <=? 48 + n mod 10)%nat && (48 + n mod 10 <=? 57)%nat) with true.
    + f_equal. pose proof (Nat.div_mod_eq n 10). lia.
    + symmetry. apply andb_true_iff. split; apply Nat.leb_le; lia.
Qed.

Lemma digits_fuel_head (f n : nat) (acc : list ascii) :
  n < f -> 0 < n ->
  exists c l, digits_fuel f n acc = c :: l /\ Ascii.eqb c "0" = false
              /\ (10 <= n -> l <> []).
Proof.
  revert n acc; induction f as [|f IH]; intros n acc Hn Hp; [lia|].
  cbn [digits_fuel].
  destruct (n <? 10)%nat eqn:E.
  - apply Nat.ltb_lt in E. rewrite Nat.mod_small by assumption.
    exists (digit n), acc. split; [reflexivity|]. split; [|intros; lia].
    apply Ascii.eqb_neq. intros Hc.
    apply (f_equal nat_of_ascii) in Hc. rewrite nat_of_digit in Hc by assumption.
    change (nat_of_ascii "0") with 48 in Hc. lia.
  - apply Nat.ltb_ge in E.
    assert (Hd : n / 10 < f).
    { assert (n / 10 < n) by (apply Nat.div_lt; lia). lia. }
    assert (Hq : 0 < n / 10) by (apply Nat.div_str_pos; lia).
    destruct (IH (n / 10) (digit (n mod 10) :: acc) Hd Hq) as (c & l & El & Hc & Hl).
    exists c, l. repeat split; auto. intros _.
    destruct (n / 10 <? 10)%nat eqn:E2.
    + destruct f as [|f]; [lia|]. cbn [digits_fuel] in El. rewrite E2 in El.
      inversion El; subst. discriminate.
    + apply Hl. now apply Nat.ltb_ge in E2.
Qed.

(** The decimal rendering of a position is the property name of that
    position. *)
Lemma parse_index_show_nat (n : nat) : parse_index (show_nat n) = Some n.
Proof.
  unfold parse_index, show_nat. rewrite chars_of_chars.
  pose proof (index_digits_digits_fuel (S n) n [] ltac:(lia)) as Hv.
  cbn [index_digits] in Hv.
  destruct n as [|n]; [reflexivity|].
  destruct (digits_fuel_head (S (S n)) (S n) [] ltac:(lia) ltac:(lia))
    as (c & l & El & Hc & Hl).
  rewrite El in *. destruct l as [|d l]; [exact Hv|].
  rewrite Hc. exact Hv.
Qed.

Lemma show_nat_not_length (n : nat) : String.eqb (show_nat n) "length" = false.
Proof.
  apply String.eqb_neq. intros E.
  pose proof (parse_index_show_nat n) as P. rewrite E in P. discriminate.
Qed.

Lemma get_index {num : Type} `{JsNumber num} (l : list (value num)) (i : nat) :
  get (VArr l) (show_nat i) = nth i l VUndefined.
Proof.
  unfold get. now rewrite show_nat_not_length, parse_index_show_nat.
Qed.

(** *** [applyMap] *)

Lemma has_field_cons {num : Type} (k k0 : string) (v0 : value num)
  (m : list (string * value num)) :
  has_field k ((k0, v0) :: m) = String.eqb k k0 || has_field k m.
Proof.
  unfold has_field. simpl. destruct (String.eqb k k0); reflexivity.
Qed.

Lemma has_field_fold_set_field {num : Type} {A : Type} (key : A -> string)
  (val : A -> value num) (k : string) (xs : list A) (acc : list (string * value num)) :
  has_field k (fold_left (fun out x => set_field (key x) (val x) out) xs acc)
  = has_field k acc || existsb (fun x => String.eqb k (key x)) xs.
Proof.
  revert acc; induction xs as [|x xs IH]; intros acc; simpl.
  - now rewrite orb_false_r.
  - rewrite IH, has_field_set_field.
    destruct (String.eqb k (key x)), (has_field k acc); reflexivity.
Qed.

Lemma has_field_existsb {num : Type} (k : string) (m : list (string * value num)) :
  has_field k m = existsb (fun kv => String.eqb k (fst kv)) m.
Proof.
  induction m as [|[k0 v0] m IH]; [reflexivity|].
  rewrite has_field_cons, IH. reflexivity.
Qed.

Lemma lookup_fold_set_field_all {num : Type} {A : Type} (P : value num -> Prop)
  (key : A -> string) (val : A -> value num) (xs : list A)
  (acc : list (string * value num)) :
  (forall x, P (val x)) ->
  (forall k v, lookup k acc = Some v -> P v) ->
  forall k v,
    lookup k (fold_left (fun out x => set_field (key x) (val x) out) xs acc) = Some v ->
    P v.
Proof.
  intros Hval. revert acc; induction xs as [|x xs IH]; intros acc Hacc k v; simpl.
  - apply Hacc.
  - apply IH. intros k' v'. rewrite lookup_set_field.
    destruct (String.eqb k' (key x)).
    + intros E; inversion E; subst. apply Hval.
    + apply Hacc.
Qed.

(** [applyMap] with an object map returns an object with exactly the keys
    of the map, none of which holds [undefined]: a path that finds nothing,
    or that [JSONPath] rejects, leaves [null].  Any other map returns the
    response as it is. *)
Theorem applyMap_keys_and_nulls {num : Type} `{JsNumber num} (pf : platform num)
  (json : value num) :
  (forall m, exists out,
      applyMap pf json (VObj m) = VObj out
      /\ (forall k, has_field k out = has_field k m)
      /\ (forall k v, lookup k out = Some v -> v <> VUndefined))
  /\ (forall map_, isObj map_ = false -> applyMap pf json map_ = json).
Proof.
  split.
  - intros m. eexists. split; [reflexivity|]. split.
    + intros k. rewrite has_field_fold_set_field, (has_field_existsb k m). reflexivity.
    + apply (lookup_fold_set_field_all (fun v => v <> VUndefined)).
      * intros [k jp]. cbn [snd]. destruct jp; try discriminate.
        destruct (JSONPath pf false s json) as [[]|]; discriminate.
      * intros k v. discriminate.
  - intros map_ Hm. destruct map_; try reflexivity. discriminate.
Qed.

(** *** [asRows] *)

Lemma fold_min_spec {A} (f : A -> nat) (l : list A) (a : nat) :
  let m := fold_left (fun m x => Nat.min m (f x)) l a in
  m <= a /\ (forall x, In x l -> m <= f x)
  /\ (m = a \/ exists x, In x l /\ m = f x).
Proof.
  revert a; induction l as [|y l IH]; intros a; simpl.
  - repeat split; auto. intros x [].
  - destruct (IH (Nat.min a (f y))) as (H1 & H2 & H3). repeat split.
    + lia.
    + intros x [<-|Hx]; [lia | now apply H2].
    + destruct H3 as [E|(x & Hx & E)].
      * destruct (Nat.min_spec a (f y)) as [[_ E']|[_ E']].
        -- left. lia.
        -- right. exists y. split; [now left | lia].
      * right. exists x. split; [now right | exact E].
Qed.

Lemma lookup_fold_skip {num : Type} {A : Type} (key : A -> string)
  (val : A -> value num) (k : string) (xs : list A) (acc : list (string * value num)) :
  ~ In k (map key xs) ->
  lookup k (fold_left (fun out x => set_field (key x) (val x) out) xs acc)
  = lookup k acc.
Proof.
  revert acc; induction xs as [|x xs IH]; intros acc Hk; simpl in *; auto.
  rewrite IH by tauto. rewrite lookup_set_field.
  destruct (String.eqb k (key x)) eqn:E; auto.
  apply String.eqb_eq in E. exfalso. apply Hk. left. now symmetry.
Qed.

Lemma lookup_fold_hit {num : Type} {A : Type} (key : A -> string)
  (val : A -> value num) (xs : list A) (acc : list (string * value num)) (x : A) :
  NoDup (map key xs) -> In x xs ->
  lookup (key x) (fold_left (fun out x => set_field (key x) (val x) out) xs acc)
  = Some (val x).
Proof.
  revert acc; induction xs as [|y xs IH]; intros acc Hnd Hx; [contradiction|].
  simpl in *. inversion Hnd as [|? ? Hy Hnd']; subst.
  destruct Hx as [->|Hx].
  - rewrite lookup_fold_skip by assumption.
    now rewrite lookup_set_field, String.eqb_refl.
  - now apply IH.
Qed.

Lemma nth_map_seq {B} (f : nat -> B) (n i : nat) (d : B) :
  i < n -> nth i (map f (seq 0 n)) d = f i.
Proof.
  intros Hi. rewrite (nth_indep _ d (f 0)) by now rewrite length_map, length_seq.
  rewrite map_nth, seq_nth by assumption. reflexivity.
Qed.

(** Columns to rows: an object whose values are all arrays gives as many
    rows as its shortest column has cells, and row [i] holds under every
    key the cell [i] of that column; with a value that is no array there
    are no rows. *)
Theorem asRows_columns {num : Type} `{JsNumber num} (cols : list (string * value num)) :
  NoDup (map fst cols) ->
  let rows := asRows (VObj cols) in
  if forallb (fun kc => isArray (snd kc)) cols then
    (forall kc, In kc cols -> List.length rows <= column_length (snd kc))
    /\ (cols <> [] -> exists kc, In kc cols /\ List.length rows = column_length (snd kc))
    /\ (forall i k col, i < List.length rows -> In (k, col) cols ->
          lookup k (fields_of (nth i rows VUndefined))
          = Some (nth i (items_of col) VUndefined))
  else rows = [].
Proof.
  intros Hnd rows. subst rows. unfold asRows.
  destruct (forallb (fun kc => isArray (snd kc)) cols) eqn:Ea; [|reflexivity].
  destruct cols as [|[k0 first] rest].
  { repeat split; try contradiction; intros i k col Hi; simpl in Hi; lia. }
  set (cols := (k0, first) :: rest) in *.
  set (len := column_length first).
  assert (Cell : forall n i k col, i < n -> In (k, col) cols ->
            lookup k (fields_of (nth i (map (row_at cols) (seq 0 n)) VUndefined))
            = Some (nth i (items_of col) VUndefined)).
  { intros n i k col Hi Hin. rewrite nth_map_seq by assumption.
    unfold row_at. cbn [fields_of].
    exact (lookup_fold_hit fst (fun kc => nth i (items_of (snd kc)) VUndefined)
             cols [] (k, col) Hnd Hin). }
  destruct (forallb (fun kc => (column_length (snd kc) =? len)%nat) cols) eqn:El.
  - rewrite length_map, length_seq. repeat split.
    + intros kc Hin. rewrite forallb_forall in El. specialize (El kc Hin).
      apply Nat.eqb_eq in El. lia.
    + intros _. exists (k0, first). split; [now left | reflexivity].
    + intros i k col Hi Hin. now apply Cell.
  - rewrite length_map, length_seq.
    destruct (fold_min_spec (fun kc : string * value num => column_length (snd kc))
                cols len) as (H1 & H2 & H3).
    repeat split.
    + intros kc Hin. now apply H2.
    + intros _. destruct H3 as [E|(x & Hx & E)].
      * exists (k0, first). split; [now left | exact E].
      * exists x. split; assumption.
    + intros i k col Hi Hin. now apply Cell.
Qed.

Lemma asRows_columns_witness :
  let cols := [("lat", VArr [VNum (float_of_Z 1); VNum (float_of_Z 2)]);
               ("lon", VArr [VNum (float_of_Z 10)])] in
  let rows := asRows (VObj cols) in
  if forallb (fun kc => isArray (snd kc)) cols then
    (forall kc, In kc cols -> List.length rows <= column_length (snd kc))
    /\ (cols <> [] -> exists kc, In kc cols /\ List.length rows = column_length (snd kc))
    /\ (forall i k col, i < List.length rows -> In (k, col) cols ->
          lookup k (fields_of (nth i rows VUndefined))
          = Some (nth i (items_of col) VUndefined))
  else rows = [].
Proof.
  apply (asRows_columns (num := float)).
  repeat constructor; simpl; intuition discriminate.
Defined.

(** ** Joining by index *)

Lemma lookup_None_keys {num : Type} (k : string) (m : list (string * value num)) :
  lookup k m = None -> ~ In k (map fst m).
Proof.
  induction m as [|[k0 v0] m IH]; simpl; [tauto|].
  destruct (String.eqb k k0) eqn:E; [discriminate|].
  apply String.eqb_neq in E. intros Hn [E'|Hin]; [congruence | now apply IH].
Qed.

Lemma lookup_Some_In {num : Type} (k : string) (v : value num)
  (m : list (string * value num)) :
  lookup k m = Some v -> In (k, v) m.
Proof.
  induction m as [|[k0 v0] m IH]; simpl; [discriminate|].
  destruct (String.eqb k k0) eqn:E.
  - apply String.eqb_eq in E. intros E'; inversion E'; subst. now left.
  - intros E'. right. now apply IH.
Qed.

Lemma keys_set_field {num : Type} (k k' : string) (v : value num)
  (m : list (string * value num)) :
  In k' (map fst (set_field k v m)) <-> k' = k \/ In k' (map fst m).
Proof.
  induction m as [|[k0 v0] m IH]; simpl.
  - intuition.
  - destruct (String.eqb k k0) eqn:E; simpl.
    + apply String.eqb_eq in E. subst k0. intuition.
    + rewrite IH. intuition.
Qed.

Lemma NoDup_set_field {num : Type} (k : string) (v : value num)
  (m : list (string * value num)) :
  NoDup (map fst m) -> NoDup (map fst (set_field k v m)).
Proof.
  induction m as [|[k0 v0] m IH]; simpl; intros Hnd.
  - repeat constructor. simpl. tauto.
  - inversion Hnd as [|? ? Hk0 Hnd']; subst.
    destruct (String.eqb k k0) eqn:E; simpl.
    + apply String.eqb_eq in E. subst k0. now constructor.
    + constructor; [|now apply IH].
      rewrite keys_set_field. apply String.eqb_neq in E. intros [E'|Hin]; congruence.
Qed.

(** [{...a, ...b}]: the fields of [b], and those of [a] that [b] has not. *)
Lemma lookup_assign {num : Type} (a b : list (string * value num)) (k : string) :
  NoDup (map fst b) ->
  lookup k (assign a b)
  = match lookup k b with Some v => Some v | None => lookup k a end.
Proof.
  intros Hnd. unfold assign. destruct (lookup k b) as [v|] eqn:E.
  - apply lookup_Some_In in E.
    exact (lookup_fold_hit fst snd b a (k, v) Hnd E).
  - apply lookup_None_keys in E.
    exact (lookup_fold_skip fst snd k b a E).
Qed.

Section Conditional.
Context {num : Type} {A : Type}.
Variable c : A -> bool.
Variable key : A -> string.
Variable val : A -> value num.


Lemma put_if_NoDup (xs : list A) (acc : list (string * value num)) :
  NoDup (map fst acc) -> NoDup (map fst (fold_left (put_if c key val) xs acc)).
Proof.
  revert acc; induction xs as [|x xs IH]; intros acc Hnd; simpl; auto.
  apply IH. unfold put_if. destruct (c x); auto. now apply NoDup_set_field.
Qed.

Lemma put_if_skip (k : string) (xs : list A) (acc : list (string * value num)) :
  (forall x, In x xs -> c x = true -> key x <> k) ->
  lookup k (fold_left (put_if c key val) xs acc) = lookup k acc.
Proof.
  revert acc; induction xs as [|x xs IH]; intros acc Hk; simpl; auto.
  rewrite IH by (intros y Hy; apply Hk; now right).
  unfold put_if. destruct (c x) eqn:E; auto.
  rewrite lookup_set_field.
  destruct (String.eqb k (key x)) eqn:E'; auto.
  apply String.eqb_eq in E'. exfalso. apply (Hk x); auto. now left.
Qed.

Lemma put_if_hit (xs1 xs2 : list A) (x : A) (acc : list (string * value num)) :
  c x = true ->
  (forall y, In y xs2 -> c y = true -> key y <> key x) ->
  lookup (key x) (fold_left (put_if c key val) (xs1 ++ x :: xs2) acc) = Some (val x).
Proof.
  intros Hc Hk. rewrite fold_left_app. simpl.
  rewrite put_if_skip by assumption.
  unfold put_if at 1. rewrite Hc, lookup_set_field, String.eqb_refl. reflexivity.
Qed.

End Conditional.

Lemma in_combine_seq_nth {A} (l : list A) (d : A) (x : A) (j : nat) :
  In (x, j) (combine l (seq 0 (List.length l))) <-> (j < List.length l /\ x = nth j l d).
Proof.
  assert (G : forall a, In (x, j) (combine l (seq a (List.length l)))
                        <-> (a <= j < a + List.length l /\ x = nth (j - a) l d)).
  { induction l as [|y l IH]; intros a; simpl.
    - split; [tauto | lia].
    - rewrite IH. split.
      + intros [E|[Hj ->]].
        * inversion E; subst. rewrite Nat.sub_diag. split; [lia | reflexivity].
        * split; [lia|]. replace (j - a) with (S (j - S a)) by lia. reflexivity.
      + intros [Hj ->]. destruct (Nat.eq_dec j a) as [->|Hne].
        * left. now rewrite Nat.sub_diag.
        * right. split; [lia|]. replace (j - a) with (S (j - S a)) by lia. reflexivity. }
  rewrite G, Nat.sub_0_r. intuition lia.
Qed.

Lemma NoDup_combine_seq {A} (l : list A) (a : nat) :
  NoDup (combine l (seq a (List.length l))).
Proof.
  revert a; induction l as [|y l IH]; intros a; simpl; constructor; auto.
  intros Hin. apply in_combine_r in Hin. apply in_seq in Hin. lia.
Qed.

Lemma NoDup_app_later {A} (l1 l2 : list A) (x : A) :
  NoDup (l1 ++ x :: l2) -> ~ In x l2.
Proof.
  intros Hnd Hin. apply NoDup_remove_2 in Hnd. apply Hnd.
  apply in_or_app. now right.
Qed.

Lemma nth_mapi {A B} (f : A -> nat -> B) (l : list A) (i : nat) (da : A) (db : B) :
  i < List.length l -> nth i (mapi f l) db = f (nth i l da) i.
Proof.
  intros Hi. unfold mapi.
  rewrite (nth_indep _ db (f da 0)).
  - rewrite (map_nth (fun xi => f (fst xi) (snd xi)) _ (da, 0)).
    rewrite combine_nth by now rewrite length_seq.
    rewrite seq_nth by assumption. reflexivity.
  - rewrite length_map, length_combine, length_seq. lia.
Qed.

Lemma length_mapi {A B} (f : A -> nat -> B) (l : list A) :
  List.length (mapi f l) = List.length l.
Proof.
  unfold mapi. rewrite length_map, length_combine, length_seq. lia.
Qed.

(** [join_on_index] returns one row per left row; row [i] holds under
    every non-empty key the cell [i] of the right array at the key's
    position ([undefined] behind the end of that array, or when it is no
    array), and keeps every field of the left row that is no key. *)
Theorem t_join_on_index_rows {num : Type} `{JsNumber num} (pf : platform num)
  (left : value num) (rightArrays : list (value num)) (keys : list string) :
  NoDup keys ->
  let rows := asRows left in
  let out := t_join_on_index pf left rightArrays (VArr (map VStr keys)) in
  List.length out = List.length rows
  /\ (forall i j k, i < List.length rows -> j < List.length rightArrays ->
        nth_error keys j = Some k -> k <> "" ->
        lookup k (fields_of (nth i out VUndefined))
        = Some (nth i (items_of (nth j rightArrays VUndefined)) VUndefined))
  /\ (forall i k, i < List.length rows -> ~ In k keys ->
        lookup k (fields_of (nth i out VUndefined))
        = lookup k (spread (nth i rows VUndefined))).
Proof.
  intros Hnd rows out. subst out. unfold t_join_on_index. fold rows.
  set (arrays := map items_of rightArrays).
  set (xs := combine arrays (seq 0 (List.length arrays))).
  set (cond := fun x : list (value num) * nat =>
                 truthy (get_opt (VArr (map VStr keys)) (show_nat (snd x)))).
  set (key := fun x : list (value num) * nat =>
                String_ pf (get_opt (VArr (map VStr keys)) (show_nat (snd x)))).
  assert (Hkey : forall x, cond x = true ->
                   nth_error keys (snd x) = Some (key x) /\ key x <> "").
  { intros [a j] Hc. unfold cond, key in *. cbn [snd get_opt is_nullish] in *.
    rewrite get_index in *.
    destruct (nth_error keys j) as [k|] eqn:E.
    - rewrite (nth_error_nth _ _ _ (map_nth_error VStr _ _ E)) in *.
      simpl in *. split; auto. intros ->. discriminate.
    - apply nth_error_None in E.
      rewrite nth_overflow in Hc by now rewrite length_map. discriminate. }
  assert (Row : forall i,
            i < List.length rows ->
            fields_of (nth i (mapi (fun row i0 =>
                VObj (assign (spread row)
                        (fold_left
                           (fun extra arr_idx =>
                              let key0 := get_opt (VArr (map VStr keys))
                                                  (show_nat (snd arr_idx)) in
                              if truthy key0
                              then set_field (String_ pf key0)
                                             (nth i0 (fst arr_idx) VUndefined) extra
                              else extra) xs []))) rows) VUndefined)
            = assign (spread (nth i rows VUndefined))
                     (fold_left (put_if cond key (fun x => nth i (fst x) VUndefined))
                                xs [])).
  { intros i Hi. rewrite (nth_mapi _ _ _ VUndefined) by assumption. reflexivity. }
  split; [apply length_mapi|]. split.
  - intros i j k Hi Hj Ek Hne. rewrite Row by assumption.
    assert (Hnd' : NoDup (map fst (fold_left
                     (put_if cond key (fun x => nth i (fst x) VUndefined)) xs []))).
    { apply put_if_NoDup. constructor. }
    rewrite lookup_assign by assumption.
    assert (Hin : In (nth j arrays [], j) xs).
    { apply (in_combine_seq_nth arrays []). split; [|reflexivity].
      unfold arrays. now rewrite length_map. }
    apply in_split in Hin as (l1 & l2 & Ex).
    assert (Hc : cond (nth j arrays [], j) = true).
    { unfold cond. cbn [snd get_opt is_nullish]. rewrite get_index.
      rewrite (nth_error_nth _ _ _ (map_nth_error VStr _ _ Ek)). simpl.
      destruct k; [contradiction | reflexivity]. }
    assert (Ekey : key (nth j arrays [], j) = k).
    { destruct (Hkey _ Hc) as [E _]. cbn [snd] in E. congruence. }
    assert (Hlater : forall y, In y l2 -> cond y = true -> key y <> key (nth j arrays [], j)).
    { intros [a j'] Hy Hcy Eq.
      destruct (Hkey _ Hcy) as [E1 _]. destruct (Hkey _ Hc) as [E2 _].
      cbn [snd] in E1, E2. rewrite Eq in E1.
      assert (j' = j).
      { apply (proj1 (NoDup_nth_error keys) Hnd).
        - apply nth_error_Some. congruence.
        - congruence. }
      subst j'.
      assert (Hy' : In (a, j) xs) by (rewrite Ex; apply in_or_app; right; now right).
      apply (in_combine_seq_nth arrays []) in Hy' as [_ ->].
      pose proof (NoDup_combine_seq arrays 0) as Hx. fold xs in Hx. rewrite Ex in Hx.
      now apply NoDup_app_later in Hx. }
    rewrite Ex, <- Ekey.
    rewrite (put_if_hit cond key (fun x => nth i (fst x) VUndefined) l1 l2 _ [] Hc Hlater).
    cbn [fst]. unfold arrays.
    rewrite (nth_indep _ [] (items_of VUndefined)) by now rewrite length_map.
    now rewrite map_nth.
  - intros i k Hi Hk. rewrite Row by assumption.
    assert (Hnd' : NoDup (map fst (fold_left
                     (put_if cond key (fun x => nth i (fst x) VUndefined)) xs []))).
    { apply put_if_NoDup. constructor. }
    rewrite lookup_assign by assumption.
    rewrite put_if_skip; [reflexivity|].
    intros x _ Hc Eq. destruct (Hkey _ Hc) as [E _]. rewrite Eq in E.
    apply Hk. now apply nth_error_In in E.
Qed.

Lemma t_join_on_index_rows_witness :
  let left := VArr [VObj [("name", VStr "a")]; VObj [("name", VStr "b")]] in
  let rightArrays := [VArr [VNum (float_of_Z 60)]; VStr "none"] in
  let keys := ["eta_seconds"; "precip"] in
  let rows := asRows left in
  let out := t_join_on_index offline left rightArrays (VArr (map VStr keys)) in
  List.length out = List.length rows
  /\ (forall i j k, i < List.length rows -> j < List.length rightArrays ->
        nth_error keys j = Some k -> k <> "" ->
        lookup k (fields_of (nth i out VUndefined))
        = Some (nth i (items_of (nth j rightArrays VUndefined)) VUndefined))
  /\ (forall i k, i < List.length rows -> ~ In k keys ->
        lookup k (fields_of (nth i out VUndefined))
        = lookup k (spread (nth i rows VUndefined))).
Proof.
  intros left rightArrays keys.
  apply (t_join_on_index_rows offline left rightArrays keys).
  repeat constructor; simpl; intuition discriminate.
Defined.

(** ** Annotated rows and ascending ranking *)

Lemma nth_map_in {A B} (f : A -> B) (l : list A) (i : nat) (da : A) (db : B) :
  i < List.length l -> nth i (map f l) db = f (nth i l da).
Proof.
  intros Hi. rewrite (nth_indep _ db (f da)) by now rewrite length_map.
  apply map_nth.
Qed.

(** The two transforms that annotate rows return one row per input row,
    with the new field ([quality], [score]) holding a number and every
    other field of the row as it was. *)
Theorem annotations_keep_rows {num : Type} `{JsNumber num} (pf : platform num)
  (arr : value num) (i : nat) :
  i < List.length (asRows arr) ->
  let row := nth i (asRows arr) VUndefined in
  (forall fields,
      let out := t_compute_osm_quality pf arr fields in
      List.length out = List.length (asRows arr)
      /\ (exists q, lookup "quality" (fields_of (nth i out VUndefined)) = Some (VNum q))
      /\ forall k, k <> "quality" ->
           lookup k (fields_of (nth i out VUndefined)) = lookup k (spread row))
  /\ (forall ratingKey etaKey precipKey,
        let out := t_compute_score pf arr ratingKey etaKey precipKey in
        List.length out = List.length (asRows arr)
        /\ (exists s, lookup "score" (fields_of (nth i out VUndefined)) = Some (VNum s))
        /\ forall k, k <> "score" ->
             lookup k (fields_of (nth i out VUndefined)) = lookup k (spread row)).
Proof.
  intros Hi row. split.
  - intros fields out. subst out. unfold t_compute_osm_quality.
    rewrite length_map, (nth_map_in _ _ _ VUndefined) by assumption.
    cbn [fields_of]. split; [reflexivity|]. split.
    + eexists. rewrite lookup_set_field. reflexivity.
    + intros k Hk. rewrite lookup_set_field.
      apply String.eqb_neq in Hk. now rewrite Hk.
  - intros ratingKey etaKey precipKey out. subst out. unfold t_compute_score.
    rewrite length_map, (nth_map_in _ _ _ VUndefined) by assumption.
    cbn [fields_of]. split; [reflexivity|]. split.
    + eexists. rewrite lookup_set_field. reflexivity.
    + intros k Hk. rewrite lookup_set_field.
      apply String.eqb_neq in Hk. now rewrite Hk.
Qed.

Lemma annotations_keep_rows_witness :
  let arr := VArr (three_rows (num := float)) in
  let row := nth 1 (asRows arr) VUndefined in
  (forall fields,
      let out := t_compute_osm_quality offline arr fields in
      List.length out = List.length (asRows arr)
      /\ (exists q, lookup "quality" (fields_of (nth 1 out VUndefined)) = Some (VNum q))
      /\ forall k, k <> "quality" ->
           lookup k (fields_of (nth 1 out VUndefined)) = lookup k (spread row))
  /\ (forall ratingKey etaKey precipKey,
        let out := t_compute_score offline arr ratingKey etaKey precipKey in
        List.length out = List.length (asRows arr)
        /\ (exists s, lookup "score" (fields_of (nth 1 out VUndefined)) = Some (VNum s))
        /\ forall k, k <> "score" ->
             lookup k (fields_of (nth 1 out VUndefined)) = lookup k (spread row)).
Proof.
  apply (annotations_keep_rows offline (VArr three_rows) 1). simpl. lia.
Defined.


(** On binary64 the quality never goes down when more flags are set: of
    two rows, the one that has every flag of the other gets at least the
    other's quality. *)
Theorem quality_is_monotone (pf : platform float) (arr fields : value float)
  (i j : nat) (qi qj : float) :
  let out := t_compute_osm_quality pf arr fields in
  let rows := asRows arr in
  lookup "quality" (fields_of (nth i out VUndefined)) = Some (VNum qi) ->
  lookup "quality" (fields_of (nth j out VUndefined)) = Some (VNum qj) ->
  Forall2 (fun a b => a = true -> b = true)
          (quality_flags pf fields (nth i rows VUndefined))
          (quality_flags pf fields (nth j rows VUndefined)) ->
  (qj <? qi)%js = false.
Proof.
  intros out rows. subst out rows. unfold t_compute_osm_quality, quality_flags.
  intros Hi Hj Hf.
  match type of Hi with context [map ?g _] => set (g0 := g) in * end.
  assert (Li : i < List.length (asRows arr)).
  { destruct (Nat.lt_ge_cases i (List.length (asRows arr))) as [L|L]; auto.
    rewrite nth_overflow in Hi by now rewrite length_map. discriminate. }
  assert (Lj : j < List.length (asRows arr)).
  { destruct (Nat.lt_ge_cases j (List.length (asRows arr))) as [L|L]; auto.
    rewrite nth_overflow in Hj by now rewrite length_map. discriminate. }
  rewrite (nth_map_in g0 _ i VUndefined) in Hi by assumption.
  rewrite (nth_map_in g0 _ j VUndefined) in Hj by assumption.
  subst g0. cbv beta zeta in Hi, Hj.
  cbn [fields_of] in Hi, Hj. rewrite lookup_set_field in Hi, Hj.
  cbn [String.eqb Ascii.eqb Bool.eqb] in Hi, Hj.
  inversion Hi as [Ei]; inversion Hj as [Ej]; clear Hi Hj.
  inversion Hf as [|a1 b1 ? ? H1 Hf1]; subst.
  inversion Hf1 as [|a2 b2 ? ? H2 Hf2]; subst.
  inversion Hf2 as [|a3 b3 ? ? H3 Hf3]; subst.
  inversion Hf3 as [|a4 b4 ? ? H4 _]; subst.
  destruct (truthy (tag pf (or_else fields (VObj [])) (nth i (asRows arr) VUndefined) "cuisine"));
  destruct (truthy (tag pf (or_else fields (VObj [])) (nth j (asRows arr) VUndefined) "cuisine"));
    try (specialize (H1 eq_refl); discriminate);
  destruct (truthy (tag pf (or_else fields (VObj [])) (nth i (asRows arr) VUndefined) "opening_hours"));
  destruct (truthy (tag pf (or_else fields (VObj [])) (nth j (asRows arr) VUndefined) "opening_hours"));
    try (specialize (H2 eq_refl); discriminate);
  destruct (yes pf (tag pf (or_else fields (VObj [])) (nth i (asRows arr) VUndefined) "outdoor_seating"));
  destruct (yes pf (tag pf (or_else fields (VObj [])) (nth j (asRows arr) VUndefined) "outdoor_seating"));
    try (specialize (H3 eq_refl); discriminate);
  destruct (yes pf (tag pf (or_else fields (VObj [])) (nth i (asRows arr) VUndefined) "wheelchair"));
  destruct (yes pf (tag pf (or_else fields (VObj [])) (nth j (asRows arr) VUndefined) "wheelchair"));
    try (specialize (H4 eq_refl); discriminate);
    vm_compute; reflexivity.
Qed.

Lemma quality_is_monotone_witness :
  (((dec 35 1 + dec 6 1 + dec 2 1)%js : float) <? (dec 35 1 + dec 6 1)%js)%js = false.
Proof.
  apply (quality_is_monotone offline
           (VArr [VObj [("cuisine", VStr "thai")];
                  VObj [("cuisine", VStr "thai"); ("wheelchair", VStr "yes")]])
           VUndefined 0 1).
  - reflexivity.
  - reflexivity.
  - vm_compute.
    repeat (apply Forall2_cons; [intros E; try exact E; discriminate|]).
    apply Forall2_nil.
Defined.




(** [undefined] rows stay last in either direction: ascending, the row
    that counts as 0 still comes after the rows with scores 1 and 3. *)
Example top_n_ascending_with_an_undefined_row :
  t_top_n offline (VArr (VUndefined :: three_rows)) 4 (VStr "score") false
  = [scored "a" 1; scored "b" 3; scored "c" 3; VUndefined].
Proof. vm_compute. reflexivity. Qed.

Example top_n_drops_from_the_end :
  t_top_n offline (VArr three_rows) (-1) (VStr "score") false
  = [scored "a" 1; scored "b" 3].
Proof. vm_compute. reflexivity. Qed.

(** ** One turn of the loop, the log and the call counter *)

Section TurnFacts.
Context {num : Type} `{JsNumber num}.
Variable pf : platform num.
Variable useMocks : bool.
Variable ctx_context : value num.
Variable o : value num.

(** What one turn of the loop changes, in terms of what the [try] block
    computed. *)
Lemma exec_node_effect (st : run_state num) (i : nat) (nk : node_state num) :
  nth_error (nodes st) i = Some nk ->
  let n := the_node nk in
  let body := node_body pf useMocks ctx_context i n st o in
  let net := fst (fst (fst body)) in
  let scoped := snd (fst (fst body)) in
  let calls := snd (fst body) in
  let result := snd body in
  let t := match result with Return _ => completed | Throw _ => failed end in
  let st' := exec_node pf useMocks ctx_context o st i in
  map the_node (nodes st') = map the_node (nodes st)
  /\ statuses (nodes st') = replace_nth i t (statuses (nodes st))
  /\ edges st'
     = mark_edges (fun e => String.eqb (from e) (id n)) t
         (mark_edges (fun e => String.eqb (to e) (id n)) running (edges st))
  /\ outputs st' = match result with
                   | Return (d, _, _) => set_field (id n) d (outputs st)
                   | Throw _ => outputs st
                   end
  /\ (exists entry,
        runLog st' = runLog st ++ [entry]
        /\ log_node_id entry = id n
        /\ log_status entry = log_status_of t
        /\ log_attempts entry = match result with
                                | Return (_, a, _) => a
                                | Throw _ => 1%Z
                                end)
  /\ errors st' = errors st ++ scoped
                  ++ match result with
                     | Return _ => []
                     | Throw m => [{| err_node_id := id n; err_error := error_text m |}]
                     end
  /\ apiCalls st' = (apiCalls st + calls)%Z
  /\ network st' = network st ++ net.
Proof.
  intros E n body net scoped calls result t st'.
  subst st' net scoped calls result t. unfold exec_node. rewrite E. fold n. fold body.
  destruct body as [[[net scoped] calls] [[[d a] f]|m]]; cbn [fst snd];
    cbn [nodes edges outputs runLog errors apiCalls network];
    rewrite !set_status_the_node, !set_status_statuses, replace_nth_twice;
    repeat split; auto.
  - eexists. repeat split.
  - now rewrite app_nil_r.
  - eexists. repeat split.
Qed.

End TurnFacts.

Section RunInduction.
Context {num : Type} `{JsNumber num}.
Variable pf : platform num.
Variable useMocks : bool.
Variable ctx_context : value num.
Variable o : value num.
Variable ns : list (node num).
Variable es : list edge.

Lemma run_nodes (k : nat) :
  k <= List.length ns ->
  map the_node (nodes (run_upto pf useMocks ctx_context o ns es k)) = ns.
Proof.
  intros Hk. now destruct (run_invariant_upto pf useMocks ctx_context o ns es k Hk).
Qed.

Lemma run_node_at (k : nat) (n : node num) :
  nth_error ns k = Some n ->
  exists nk, nth_error (nodes (run_upto pf useMocks ctx_context o ns es k)) k = Some nk
             /\ the_node nk = n.
Proof.
  intros E.
  assert (Hk : k < List.length ns) by (apply nth_error_Some; congruence).
  pose proof (run_nodes k ltac:(lia)) as Hn.
  rewrite <- Hn in E. rewrite nth_error_map in E.
  destruct (nth_error (nodes _) k) as [nk|]; [|discriminate].
  exists nk. split; auto. simpl in E. congruence.
Qed.

(** Induction over the turns of a run. *)
Lemma run_induction (P : nat -> run_state num -> Prop) :
  P 0 (initial_state ns es) ->
  (forall k st nk,
      nth_error ns k = Some (the_node nk) ->
      nth_error (nodes st) k = Some nk ->
      st = run_upto pf useMocks ctx_context o ns es k ->
      P k st -> P (S k) (exec_node pf useMocks ctx_context o st k)) ->
  forall k, k <= List.length ns -> P k (run_upto pf useMocks ctx_context o ns es k).
Proof.
  intros H0 Hstep. induction k as [|k IH]; intros Hk; [exact H0|].
  rewrite run_upto_S.
  destruct (nth_error ns k) as [n|] eqn:E.
  2:{ apply nth_error_None in E. lia. }
  destruct (run_node_at k n E) as (nk & Enk & <-).
  apply (Hstep k _ nk); auto. apply IH. lia.
Qed.

End RunInduction.

Section LogFacts.
Context {num : Type} `{JsNumber num}.
Variable pf : platform num.
Variable useMocks : bool.
Variable ctx_context : value num.
Variable o : value num.
Variable ns : list (node num).
Variable es : list edge.


Lemma firstn_S_nth {A} (l : list A) (k : nat) (x : A) :
  nth_error l k = Some x -> firstn (S k) l = firstn k l ++ [x].
Proof.
  revert k; induction l as [|y l IH]; intros [|k] E; simpl in *; try discriminate.
  - now inversion E.
  - now rewrite (IH k E).
Qed.

Lemma firstn_replace_nth {A} (l : list A) (k : nat) (x : A) :
  firstn k (replace_nth k x l) = firstn k l.
Proof.
  revert k; induction l as [|y l IH]; intros [|k]; simpl; auto. now rewrite IH.
Qed.

Lemma node_body_calls (i : nat) (n : node num) (st : run_state num) :
  snd (fst (node_body pf useMocks ctx_context i n st o))
  = if is_http n then 1%Z else 0%Z.
Proof.
  unfold node_body, is_http.
  destruct (String.eqb (type n) "http").
  - destruct (fanout n) as [f|]; [destruct (negb (String.eqb (over f) ""))|];
      try reflexivity;
      destruct (runHttpNode pf n _ useMocks o (i, None)); reflexivity.
  - destruct (String.eqb (type n) "transform"); reflexivity.
Qed.

Lemma log_invariant_upto (k : nat) :
  k <= List.length ns ->
  log_invariant ns k (run_upto pf useMocks ctx_context o ns es k).
Proof.
  apply (run_induction pf useMocks ctx_context o ns es (log_invariant ns)).
  - unfold log_invariant, initial_state, statuses; simpl.
    rewrite !length_map. repeat split; auto.
  - intros j st nk En Enk _ (I1 & I2 & I3 & I4 & I5).
    destruct (exec_node_effect pf useMocks ctx_context o st j nk Enk)
      as (_ & Hs & _ & _ & (entry & Hl & Li & Ls & La) & _ & Hc & _).
    set (t := match snd (node_body pf useMocks ctx_context j (the_node nk) st o) with
              | Return _ => completed | Throw _ => failed end) in *.
    assert (Lj : j < List.length (statuses (nodes st))).
    { rewrite I5. apply nth_error_Some. congruence. }
    unfold log_invariant. rewrite Hl, Hs, Hc, !map_app. cbn [map]. repeat split.
    + rewrite I1, Li. symmetry. apply firstn_S_nth. now apply map_nth_error.
    + rewrite I2, Ls.
      rewrite (firstn_S_nth _ j t) by now apply nth_error_replace_nth_eq.
      now rewrite firstn_replace_nth, map_app.
    + apply Forall_app. split; auto. constructor; [|constructor].
      intros Es. rewrite La. rewrite Ls in Es. subst t.
      destruct (snd (node_body pf useMocks ctx_context j (the_node nk) st o));
        [discriminate | reflexivity].
    + rewrite I4, node_body_calls, (firstn_S_nth _ _ _ En), filter_app, length_app.
      cbn [filter]. destruct (is_http (the_node nk)); simpl; lia.
    + now rewrite replace_nth_length.
Qed.

End LogFacts.

(** The record a run returns, in terms of the state after the last turn. *)
Lemma executePipeline_run {num : Type} `{JsNumber num} (pf : platform num)
  (useMocks : bool) (ctx_context : value num) (ns : list (node num)) (es : list edge)
  (o : value num) :
  executePipeline pf useMocks ctx_context
    (Some {| spec_nodes := Items ns; spec_edges := Items es; _origin := o |})
  = let st := run_upto pf useMocks ctx_context o ns es (List.length ns) in
    Return {| rec_outputs := finalOutputs (outputs st);
              rec_log := runLog st;
              rec_errors := errors st;
              rec_apiCalls := apiCalls st;
              final := st |}.
Proof. reflexivity. Qed.

(** The run log has one entry per node, in node order: [ok] for a node
    that completed, [error] for one that failed, the latter always with
    [attempts = 1], however many attempts were made; and [apiCalls] is the
    number of nodes of type [http], a fan-out counting once. *)
Theorem executePipeline_log_and_metrics
  {num : Type} `{JsNumber num} (pf : platform num) (useMocks : bool)
  (ctx_context : value num) (ns : list (node num)) (es : list edge) (o : value num) :
  match executePipeline pf useMocks ctx_context
          (Some {| spec_nodes := Items ns; spec_edges := Items es; _origin := o |})
  with
  | Return r =>
      map log_node_id (rec_log r) = map id ns
      /\ map log_status (rec_log r) = map log_status_of (statuses (nodes (final r)))
      /\ Forall (fun l => log_status l = "error" -> log_attempts l = 1%Z) (rec_log r)
      /\ rec_apiCalls r = Z.of_nat (List.length (filter is_http ns))
  | Throw _ => False
  end.
Proof.
  cbn [executePipeline spec_nodes spec_edges _origin final rec_log rec_apiCalls].
  destruct (log_invariant_upto pf useMocks ctx_context o ns es (List.length ns)
              (le_n _)) as (I1 & I2 & I3 & I4 & I5).
  unfold run_upto in *.
  rewrite firstn_all2 in I1 by now rewrite length_map.
  rewrite firstn_all2 in I2 by lia.
  rewrite firstn_all in I4. auto.
Qed.

(** ** Runs on mocks *)



Section MockFacts.
Context {num : Type} `{JsNumber num}.
Variable pf : platform num.
Variable ctx_context : value num.
Variable o : value num.

Lemma mock_body (i : nat) (n : node num) (st : run_state num) :
  is_http n = true ->
  let body := node_body pf true ctx_context i n st o in
  Forall (fun d => trace d = [SleepJitter]) (fst (fst (fst body)))
  /\ snd (fst (fst body)) = []
  /\ exists v, snd body = Return v.
Proof.
  unfold is_http. intros Hh. unfold node_body. rewrite Hh.
  assert (Single : let (t, r) := runHttpNode pf n
                      (VObj [("outputs", VObj (outputs st));
                             ("context", or_else ctx_context (VObj []));
                             ("_origin", o)]) true o (i, None) in
                   Forall (fun d : dispatch num => trace d = [SleepJitter])
                     [{| site_node := i; site_item := None; trace := t |}]
                   /\ exists v, (r <- r ;; Return (data r, attempts r, fallbackUsed r))
                                = Return v).
  { unfold runHttpNode. split; [repeat constructor | eexists; reflexivity]. }
  destruct (fanout n) as [f|].
  - destruct (negb (String.eqb (over f) "")).
    + cbn [fst snd]. split; [|split].
      * apply Forall_forall. intros d Hd. apply in_map_iff in Hd as ([j c] & <- & Hin).
        cbn [trace fst snd]. apply in_combine_r in Hin.
        unfold fanout_calls in Hin. apply in_map_iff in Hin as (j' & <- & _).
        reflexivity.
      * assert (G : forall settled acc,
                  Forall (fun s : outcome (http_result num) => exists r, s = Return r)
                         (map snd settled) ->
                  fan_errors (fold_left (merge_call n
                     (Z.to_nat (fanout_cap f (List.length (fanout_base pf f
                        (VObj [("outputs", VObj (outputs st));
                               ("context", or_else ctx_context (VObj []));
                               ("_origin", o)]))))))
                     settled acc) = fan_errors acc).
        { induction settled as [|[j s] settled IH]; intros acc Hall; [reflexivity|].
          simpl in Hall. inversion Hall as [|? ? (r & ->) Hall']; subst.
          cbn [fold_left]. rewrite IH by assumption. reflexivity. }
        unfold merge_calls. rewrite G; [reflexivity|].
        rewrite snd_combine_seq. apply Forall_forall. intros s Hs.
        apply in_map_iff in Hs as ([t r] & <- & Hin). cbn [snd].
        unfold fanout_calls in Hin. apply in_map_iff in Hin as (j' & E & _).
        unfold runHttpNode in E. inversion E. eexists; reflexivity.
      * eexists; reflexivity.
    + destruct (runHttpNode pf n _ true o (i, None)) as [t r] eqn:E.
      cbn [fst snd]. tauto.
  - destruct (runHttpNode pf n _ true o (i, None)) as [t r] eqn:E.
    cbn [fst snd]. tauto.
Qed.

Variable ns : list (node num).
Variable es : list edge.


Lemma mock_invariant_upto (k : nat) :
  k <= List.length ns ->
  mock_invariant ns k (run_upto pf true ctx_context o ns es k).
Proof.
  apply (run_induction pf true ctx_context o ns es (mock_invariant ns)).
  - unfold mock_invariant, initial_state, statuses; simpl.
    rewrite !length_map. repeat split; auto. intros; lia.
  - intros j st nk En Enk _ (I1 & I2 & I3).
    destruct (exec_node_effect pf true ctx_context o st j nk Enk)
      as (_ & Hs & _ & _ & _ & _ & _ & Hn).
    assert (Lj : j < List.length (statuses (nodes st))).
    { rewrite I3. apply nth_error_Some. congruence. }
    unfold mock_invariant. rewrite Hs, Hn. repeat split.
    + apply Forall_app. split; auto.
      destruct (is_http (the_node nk)) eqn:Eh.
      * now destruct (mock_body j (the_node nk) st Eh) as (G & _).
      * unfold node_body. unfold is_http in Eh. rewrite Eh.
        destruct (String.eqb (type (the_node nk)) "transform"); constructor.
    + intros i n Hi Ei Hh. destruct (Nat.eq_dec i j) as [->|Hne].
      * rewrite nth_replace_nth_eq by assumption.
        assert (n = the_node nk) by congruence. subst n.
        destruct (mock_body j (the_node nk) st Hh) as (_ & _ & v & ->). reflexivity.
      * rewrite nth_replace_nth_ne by auto. apply (I2 i n); auto. lia.
    + now rewrite replace_nth_length.
Qed.

End MockFacts.

(** In mock mode no request leaves the engine: every call of the HTTP
    runner is a pause and nothing else, and every node of type [http]
    completes. *)
Theorem mock_run_makes_no_request
  {num : Type} `{JsNumber num} (pf : platform num)
  (ctx_context : value num) (ns : list (node num)) (es : list edge) (o : value num) :
  match executePipeline pf true ctx_context
          (Some {| spec_nodes := Items ns; spec_edges := Items es; _origin := o |})
  with
  | Return r =>
      Forall (fun d => trace d = [SleepJitter]) (network (final r))
      /\ forall i n, nth_error ns i = Some n -> is_http n = true ->
           nth i (statuses (nodes (final r))) pending = completed
  | Throw _ => False
  end.
Proof.
  cbn [executePipeline spec_nodes spec_edges _origin final].
  destruct (mock_invariant_upto pf ctx_context o ns es (List.length ns) (le_n _))
    as (I1 & I2 & _).
  unfold run_upto in *. split; auto.
  intros i n Ei Hh. apply (I2 i n); auto. apply nth_error_Some. congruence.
Qed.

(** ** Edges *)

Lemma position_Some (k : string) (ids : list string) (p : nat) :
  position k ids = Some p -> nth_error ids p = Some k.
Proof.
  revert p; induction ids as [|x ids IH]; intros p; simpl; [discriminate|].
  destruct (String.eqb k x) eqn:E.
  - apply String.eqb_eq in E. intros E'; inversion E'; subst. reflexivity.
  - destruct (position k ids) as [p'|]; [|discriminate].
    intros E'; inversion E'; subst. simpl. now apply IH.
Qed.

Lemma position_None (k : string) (ids : list string) :
  position k ids = None -> ~ In k ids.
Proof.
  induction ids as [|x ids IH]; simpl; [tauto|].
  destruct (String.eqb k x) eqn:E; [discriminate|].
  apply String.eqb_neq in E.
  destruct (position k ids); [discriminate|].
  intros _ [E'|Hin]; [congruence | now apply IH].
Qed.

Lemma eqb_position (ids : list string) (k : string) (j : nat) (idj : string) :
  NoDup ids -> nth_error ids j = Some idj ->
  String.eqb k idj
  = match position k ids with Some p => (p =? j)%nat | None => false end.
Proof.
  intros Hnd Ej. destruct (position k ids) as [p|] eqn:Ep.
  - apply position_Some in Ep.
    destruct (Nat.eqb_spec p j) as [->|Hne].
    + apply String.eqb_eq. congruence.
    + apply String.eqb_neq. intros ->. apply Hne.
      apply (proj1 (NoDup_nth_error ids) Hnd); [|congruence].
      apply nth_error_Some. congruence.
  - apply position_None in Ep. apply String.eqb_neq. intros ->.
    apply Ep. now apply nth_error_In in Ej.
Qed.

Section EdgeFacts.
Context {num : Type} `{JsNumber num}.
Variable pf : platform num.
Variable useMocks : bool.
Variable ctx_context : value num.
Variable o : value num.
Variable ns : list (node num).
Variable es : list edge.
Hypothesis ids_distinct : NoDup (map id ns).


Lemma edge_invariant_upto (k : nat) :
  k <= List.length ns ->
  edge_invariant ns es k (run_upto pf useMocks ctx_context o ns es k).
Proof.
  apply (run_induction pf useMocks ctx_context o ns es (edge_invariant ns es)).
  - unfold edge_invariant, initial_state, statuses; simpl.
    rewrite !length_map. split; auto.
    apply map_ext. intros e. f_equal. unfold edge_after.
    destruct (position (from e) (map id ns)), (position (to e) (map id ns)); reflexivity.
  - intros j st nk En Enk _ (I1 & I2).
    destruct (exec_node_effect pf useMocks ctx_context o st j nk Enk)
      as (_ & Hs & He & _).
    set (t := match snd (node_body pf useMocks ctx_context j (the_node nk) st o) with
              | Return _ => completed | Throw _ => failed end) in *.
    assert (Lj : j < List.length (statuses (nodes st))).
    { rewrite I2. apply nth_error_Some. congruence. }
    assert (Eid : nth_error (map id ns) j = Some (id (the_node nk)))
      by now apply map_nth_error.
    unfold edge_invariant. rewrite He, Hs, replace_nth_length. split; auto.
    rewrite I1. unfold mark_edges. rewrite !map_map. apply map_ext. intros e.
    cbn [from to edge_status].
    rewrite (eqb_position _ (to e) j _ ids_distinct Eid).
    assert (Efrom : forall s,
              String.eqb (from (if match position (to e) (map id ns) with
                                   | Some p => (p =? j)%nat | None => false end
                                then {| from := from e; to := to e; edge_status := running |}
                                else {| from := from e; to := to e; edge_status := s |}))
                         (id (the_node nk))
              = match position (from e) (map id ns) with
                | Some p => (p =? j)%nat | None => false end).
    { intros s. rewrite <- (eqb_position _ (from e) j _ ids_distinct Eid).
      destruct (match position (to e) (map id ns) with
                | Some p => (p =? j)%nat | None => false end); reflexivity. }
    rewrite Efrom. unfold edge_after.
    destruct (position (from e) (map id ns)) as [p|] eqn:Ep,
             (position (to e) (map id ns)) as [q|] eqn:Eq;
      repeat match goal with
             | |- context [(?a =? ?b)%nat] => destruct (Nat.eqb_spec a b); subst
             end;
      cbn [from to edge_status]; f_equal;
      repeat match goal with
             | |- context [(?a <? ?b)%nat] => destruct (Nat.ltb_spec a b)
             | |- context [(?a <=? ?b)%nat] => destruct (Nat.leb_spec a b)
             end;
      cbn [andb orb]; try lia; try reflexivity;
      try (rewrite nth_replace_nth_eq by assumption; reflexivity);
      try (rewrite nth_replace_nth_ne by lia; reflexivity).
Qed.

End EdgeFacts.

(** When the run ends, an edge whose target is a node stands at [running]
    unless its source is the same or a later node; only then, or when its
    target is no node, does it show the state its source ended in.  So an
    edge from an earlier node to a later one is left [running]. *)
Theorem engine_leaves_forward_edges_running
  {num : Type} `{JsNumber num} (pf : platform num) (useMocks : bool)
  (ctx_context : value num) (ns : list (node num)) (es : list edge) (o : value num) :
  NoDup (map id ns) ->
  match executePipeline pf useMocks ctx_context
          (Some {| spec_nodes := Items ns; spec_edges := Items es; _origin := o |})
  with
  | Return r =>
      let ts := statuses (nodes (final r)) in
      edges (final r)
      = map (fun e =>
               {| from := from e; to := to e;
                  edge_status :=
                    match position (from e) (map id ns), position (to e) (map id ns) with
                    | Some p, Some q => if (p <? q)%nat then running else nth p ts pending
                    | Some p, None => nth p ts pending
                    | None, Some _ => running
                    | None, None => pending
                    end |})
            es
  | Throw _ => False
  end.
Proof.
  intros Hnd.
  cbn [executePipeline spec_nodes spec_edges _origin final].
  destruct (edge_invariant_upto pf useMocks ctx_context o ns es Hnd (List.length ns)
              (le_n _)) as (I1 & I2).
  unfold run_upto in *. rewrite I1. apply map_ext. intros e. f_equal.
  unfold edge_after.
  destruct (position (from e) (map id ns)) as [p|] eqn:Ep,
           (position (to e) (map id ns)) as [q|] eqn:Eq; auto.
  - apply position_Some in Ep, Eq.
    assert (Lp : p < List.length ns).
    { rewrite <- (length_map id). apply nth_error_Some. congruence. }
    assert (Lq : q < List.length ns).
    { rewrite <- (length_map id). apply nth_error_Some. congruence. }
    replace (q <? List.length ns)%nat with true by (symmetry; apply Nat.ltb_lt; lia).
    replace (List.length ns <=? p)%nat with false by (symmetry; apply Nat.leb_gt; lia).
    replace (p <? List.length ns)%nat with true by (symmetry; apply Nat.ltb_lt; lia).
    reflexivity.
  - apply position_Some in Ep.
    assert (Lp : p < List.length ns).
    { rewrite <- (length_map id). apply nth_error_Some. congruence. }
    replace (p <? List.length ns)%nat with true by (symmetry; apply Nat.ltb_lt; lia).
    reflexivity.
  - apply position_Some in Eq.
    assert (Lq : q < List.length ns).
    { rewrite <- (length_map id). apply nth_error_Some. congruence. }
    replace (q <? List.length ns)%nat with true by (symmetry; apply Nat.ltb_lt; lia).
    reflexivity.
Qed.

Lemma engine_leaves_forward_edges_running_witness :
  let es := [{| from := "n1"; to := "t9"; edge_status := pending |};
             {| from := "t9"; to := "n1"; edge_status := pending |}] in
  match executePipeline offline false VUndefined
          (Some {| spec_nodes := Items two_nodes; spec_edges := Items es;
                   _origin := VUndefined |})
  with
  | Return r =>
      let ts := statuses (nodes (final r)) in
      edges (final r)
      = map (fun e =>
               {| from := from e; to := to e;
                  edge_status :=
                    match position (from e) (map id two_nodes),
                          position (to e) (map id two_nodes) with
                    | Some p, Some q => if (p <? q)%nat then running else nth p ts pending
                    | Some p, None => nth p ts pending
                    | None, Some _ => running
                    | None, None => pending
                    end |})
            es
  | Throw _ => False
  end.
Proof.
  intros es.
  apply (engine_leaves_forward_edges_running offline false VUndefined two_nodes es VUndefined).
  repeat constructor; simpl; intuition discriminate.
Defined.

(** ** Missing inputs, unknown node types and negative retries *)

(** A transform whose source has not been stored does not fail: the three
    row transforms return no rows and the correlation returns 0. *)
Theorem transforms_on_missing_input {num : Type} `{JsNumber num} (pf : platform num)
  (n : node num) (outputs : list (string * value num)) (src : string) :
  dot_free src -> lookup src outputs = None ->
  (In (fn n) ["compute_osm_quality"; "compute_score"; "top_n"] ->
   arg n "from" = VStr ("outputs." ++ src) ->
   runTransformNode pf n outputs = Return (VArr []))
  /\ (fn n = "correlation" ->
      arg n "xFrom" = VStr ("outputs." ++ src) \/ arg n "yFrom" = VStr ("outputs." ++ src) ->
      runTransformNode pf n outputs = Return (VNum (of_Z 0)))
  /\ (fn n = "join_on_index" ->
      arg n "left" = VStr ("outputs." ++ src) ->
      isArray (or_else (arg n "rightArrays") (VArr [])) = true ->
      runTransformNode pf n outputs = Return (VArr [])).
Proof.
  intros Hd Hl.
  assert (Src : from_outputs pf outputs (VStr ("outputs." ++ src)) = VUndefined).
  { rewrite from_outputs_key by assumption. now rewrite Hl. }
  assert (T : or_else (VStr ("outputs." ++ src)) = fun _ : value num => VStr ("outputs." ++ src)).
  { reflexivity. }
  split; [|split].
  - intros Hfn Ef. unfold runTransformNode. rewrite Ef.
    simpl in Hfn. destruct Hfn as [E|[E|[E|[]]]]; rewrite <- E; cbn [String.eqb Ascii.eqb Bool.eqb];
      change (or_else (VStr ("outputs." ++ src)) _) with (VStr ("outputs." ++ src) : value num);
      rewrite Src; try reflexivity.
    f_equal. f_equal. unfold t_top_n, slice0, js_sort. cbn [nullish_or is_nullish asRows filter fold_left app].
    apply firstn_nil.
  - intros Efn Ex. unfold runTransformNode. rewrite Efn. cbn [String.eqb Ascii.eqb Bool.eqb].
    unfold t_correlation. destruct Ex as [E|E]; rewrite E, Src; cbn [numeric].
    + now rewrite pearson_short by (left; simpl; lia).
    + now rewrite pearson_short by (right; simpl; lia).
  - intros Efn El Ha. unfold runTransformNode. rewrite Efn, El, Src.
    cbn [String.eqb Ascii.eqb Bool.eqb].
    destruct (or_else (arg n "rightArrays") (VArr [])); try discriminate.
    reflexivity.
Qed.

Lemma transforms_on_missing_input_witness :
  runTransformNode offline
    (transform_node "t2_score" "compute_score" (VObj [("from", VStr ("outputs." ++ "t_osm_quality"))]))
    [] = Return (VArr []).
Proof.
  apply (proj1 (transforms_on_missing_input offline
                  (transform_node "t2_score" "compute_score"
                     (VObj [("from", VStr ("outputs." ++ "t_osm_quality"))]))
                  [] "t_osm_quality" eq_refl eq_refl)).
  - simpl. auto.
  - reflexivity.
Defined.

(** A node whose type is neither [http] nor [transform] is not an error:
    its turn makes no call, stores [null] under its id and leaves it
    completed. *)
Theorem unknown_type_completes_with_null {num : Type} `{JsNumber num}
  (pf : platform num) (useMocks : bool) (ctx_context o : value num)
  (st : run_state num) (i : nat) (nk : node_state num) :
  nth_error (nodes st) i = Some nk ->
  String.eqb (type (the_node nk)) "http" = false ->
  String.eqb (type (the_node nk)) "transform" = false ->
  let st' := exec_node pf useMocks ctx_context o st i in
  nth i (statuses (nodes st')) pending = completed
  /\ lookup (id (the_node nk)) (outputs st') = Some VNull
  /\ apiCalls st' = apiCalls st
  /\ network st' = network st
  /\ errors st' = errors st.
Proof.
  intros E H1 H2 st'.
  assert (Li : i < List.length (nodes st)) by (apply nth_error_Some; congruence).
  destruct (exec_node_effect pf useMocks ctx_context o st i nk E)
    as (_ & Hs & _ & Ho & _ & He & Hc & Hn).
  fold st' in Hs, Ho, He, Hc, Hn.
  unfold node_body in *. rewrite H1, H2 in *. cbn [fst snd] in *.
  rewrite Hs, Ho, He, Hc, Hn, !app_nil_r, Z.add_0_r.
  rewrite nth_replace_nth_eq by (unfold statuses; now rewrite length_map).
  rewrite lookup_set_field, String.eqb_refl. auto.
Qed.

Lemma unknown_type_completes_with_null_witness :
  let st := initial_state [transform_node "s1" "noop" VUndefined;
                           {| id := "w1"; type := "wait"; method := None; url := "";
                              headers := None; params := None; body := None;
                              compose := None; map_ := VUndefined; retry := None;
                              timeout_ms := None; fanout := None; fallback := false;
                              fn := ""; args := VUndefined |}] [] in
  let st' := exec_node offline false VUndefined VUndefined st 1 in
  nth 1 (statuses (nodes st')) pending = completed
  /\ lookup "w1" (outputs st') = Some VNull
  /\ apiCalls st' = apiCalls st
  /\ network st' = network st
  /\ errors st' = errors st.
Proof.
  intros st.
  apply (unknown_type_completes_with_null offline false VUndefined VUndefined st 1
           {| the_node := {| id := "w1"; type := "wait"; method := None; url := "";
                             headers := None; params := None; body := None;
                             compose := None; map_ := VUndefined; retry := None;
                             timeout_ms := None; fanout := None; fallback := false;
                             fn := ""; args := VUndefined |};
              node_status := pending; error_message := None |});
    reflexivity.
Defined.

(** A negative [retry.times] leaves the loop no turn: no request is made
    and the call fails with the message of the statement behind the
    loop. *)
Theorem negative_retry_makes_no_request {num : Type} `{JsNumber num}
  (pf : platform num) (n : node num) (scope o : value num) (site : nat * option nat) :
  (retry_times n < 0)%Z ->
  runHttpNode pf n scope false o site
  = ([], Throw ("Node " ++ id n ++ " failed unexpectedly after all retries.")).
Proof.
  intros Ht. unfold runHttpNode.
  replace (Z.to_nat (retry_times n + 1)) with 0 by lia. reflexivity.
Qed.

Lemma negative_retry_makes_no_request_witness :
  runHttpNode offline
    (http_node "n1" "http://places.test/api"
       (Some {| times := Some (-1)%Z; backoff_ms := None |}) None VUndefined false)
    (VObj []) false VUndefined (0, None)
  = ([], Throw "Node n1 failed unexpectedly after all retries.").
Proof.
  apply (negative_retry_makes_no_request offline
           (http_node "n1" "http://places.test/api"
              (Some {| times := Some (-1)%Z; backoff_ms := None |}) None VUndefined false)).
  reflexivity.
Defined.

(** ** The stream and the response of the handler *)

Lemma find_by_key {A} (key : A -> string) (l : list A) (i : nat) (x : A) :
  NoDup (map key l) -> nth_error l i = Some x ->
  List.find (fun y => String.eqb (key y) (key x)) l = Some x.
Proof.
  revert i; induction l as [|y l IH]; intros i Hnd E; [destruct i; discriminate|].
  simpl in Hnd. inversion Hnd as [|? ? Hy Hnd']; subst.
  destruct i as [|i]; simpl in *.
  - inversion E; subst. now rewrite String.eqb_refl.
  - destruct (String.eqb (key y) (key x)) eqn:Ey.
    + apply String.eqb_eq in Ey. exfalso. apply Hy. rewrite Ey.
      apply in_map. now apply nth_error_In in E.
    + now apply (IH i).
Qed.

(** Whatever the planner and the engine do, the stream of a run opens
    with [planning_start] and closes with exactly one [pipeline_complete];
    the response is a 500 exactly when that last event carries an error,
    and then an [error] event goes right before it. *)
Theorem post_run_closes_the_stream {num : Type} `{JsNumber num} (pf : platform num)
  (useMocks : bool) (planned : outcome (option (spec num))) :
  exists body last,
    fst (post_run pf useMocks planned) = planning_start :: body ++ [last]
    /\ is_closing last = true
    /\ forallb (fun e => negb (is_closing e)) body = true
    /\ match snd (post_run pf useMocks planned) with
       | json _ _ => exists fns fes, last = pipeline_complete fns fes
       | status_json code message =>
           code = 500 /\ last = pipeline_complete_error message
           /\ exists before, body = before ++ [error message]
       end.
Proof.
  assert (Fail : forall emitted message,
            forallb (fun e : sse num => negb (is_closing e)) emitted = true ->
            exists body last,
              fst (fail_run (planning_start :: emitted) message)
              = planning_start :: body ++ [last]
              /\ is_closing last = true
              /\ forallb (fun e => negb (is_closing e)) body = true
              /\ match snd (fail_run (planning_start :: emitted) message) with
                 | json _ _ => exists fns fes, last = pipeline_complete fns fes
                 | status_json code message =>
                     code = 500 /\ last = pipeline_complete_error message
                     /\ exists before, body = before ++ [error message]
                 end).
  { intros emitted message He. unfold fail_run. cbn [fst snd].
    exists (emitted ++ [error (error_text message)]),
           (pipeline_complete_error (error_text message)).
    repeat split.
    - simpl. now rewrite <- app_assoc.
    - rewrite forallb_app, He. reflexivity.
    - now exists emitted. }
  unfold post_run. destruct planned as [sp|message].
  2:{ apply (Fail []). reflexivity. }
  destruct (invalid_spec sp).
  { apply (Fail []). reflexivity. }
  destruct sp as [[[| |ns] es o]|]; try (apply (Fail []); reflexivity).
  destruct (executePipeline pf useMocks VUndefined _) as [r|message].
  - cbn [fst snd app].
    exists ([planning_complete ns es; execution_start] ++ map published (events (final r))).
    eexists. repeat split.
    + rewrite forallb_app. cbn [forallb is_closing negb andb].
      clear. induction (events (final r)); simpl; auto.
    + eexists. eexists. reflexivity.
  - apply (Fail [planning_complete ns es; execution_start]). reflexivity.
Qed.

(** A specification with nodes and edges is answered with status 200
    whatever happens to its nodes; the log of the response has one entry
    per node, and the final state the handler publishes shows every node
    in the state the engine left it in. *)
Theorem node_failures_are_no_500 {num : Type} `{JsNumber num} (pf : platform num)
  (useMocks : bool) (n : node num) (ns : list (node num)) (es : list edge)
  (o : value num) :
  NoDup (map id (n :: ns)) ->
  let sp := {| spec_nodes := Items (n :: ns); spec_edges := Items es; _origin := o |} in
  exists r,
    executePipeline pf useMocks VUndefined (Some sp) = Return r
    /\ snd (post_run pf useMocks (Return (Some sp))) = json (rec_log r) (rec_errors r)
    /\ List.length (rec_log r) = S (List.length ns)
    /\ exists fns fes,
         last (fst (post_run pf useMocks (Return (Some sp)))) planning_start
         = pipeline_complete fns fes
         /\ map the_node fns = n :: ns
         /\ map node_status fns = statuses (nodes (final r)).
Proof.
  intros Hnd sp.
  set (st := run_upto pf useMocks VUndefined o (n :: ns) es (List.length (n :: ns))).
  destruct (log_invariant_upto pf useMocks VUndefined o (n :: ns) es
              (List.length (n :: ns)) (le_n _)) as (L1 & L2 & _ & _ & T1).
  destruct (run_invariant_upto pf useMocks VUndefined o (n :: ns) es
              (List.length (n :: ns)) (le_n _)) as (_ & ts0 & _ & T2 & Hs & _).
  fold st in L1, L2, T1, Hs.
  rewrite Nat.sub_diag in Hs. cbn [repeat] in Hs. rewrite app_nil_r in Hs.
  rewrite <- Hs in T2. clear Hs ts0.
  rewrite firstn_all2 in L1 by now rewrite length_map.
  rewrite firstn_all2 in L2 by lia.
  assert (E : executePipeline pf useMocks VUndefined (Some sp)
              = Return {| rec_outputs := finalOutputs (outputs st);
                          rec_log := runLog st;
                          rec_errors := errors st;
                          rec_apiCalls := apiCalls st;
                          final := st |}).
  { apply executePipeline_run. }
  eexists. split; [exact E|].
  unfold post_run. cbn [invalid_spec sp spec_nodes]. fold sp. rewrite E.
  cbn [fst snd rec_log rec_errors final].
  split; [reflexivity|]. split.
  { rewrite <- (length_map log_node_id), L1, length_map. reflexivity. }
  eexists. eexists. split.
  { apply last_last. }
  split.
  { unfold finalNodes. rewrite map_map. cbn [the_node]. apply map_id. }
  unfold finalNodes. rewrite map_map. cbn [node_status].
  set (ts := statuses (nodes st)) in *.
  apply nth_ext with (d := pending) (d' := pending).
  { now rewrite length_map, T1. }
  intros i Hi. rewrite length_map in Hi.
  destruct (nth_error (n :: ns) i) as [ni|] eqn:Ei.
  2:{ apply nth_error_None in Ei. lia. }
  rewrite (nth_map_in _ _ _ n) by assumption. rewrite (nth_error_nth _ _ _ Ei).
  destruct (nth_error (runLog st) i) as [li|] eqn:El.
  2:{ apply nth_error_None in El.
      rewrite <- (length_map log_node_id), L1, length_map in El. lia. }
  assert (Eid : log_node_id li = id ni).
  { apply (map_nth_error log_node_id) in El. rewrite L1 in El.
    apply (map_nth_error id) in Ei. congruence. }
  rewrite <- Eid.
  rewrite (find_by_key log_node_id (runLog st) i li); [|now rewrite L1|exact El].
  apply (map_nth_error log_status) in El. rewrite L2 in El.
  rewrite nth_error_map in El.
  destruct (nth_error ts i) as [t|] eqn:Et; [|discriminate].
  simpl in El. inversion El as [Es].
  rewrite (nth_error_nth _ _ _ Et).
  rewrite Forall_forall in T2. specialize (T2 t (nth_error_In _ _ Et)).
  destruct T2 as [->| ->]; reflexivity.
Qed.

Lemma node_failures_are_no_500_witness :
  let sp := {| spec_nodes := Items two_nodes;
               spec_edges := Items [{| from := "n1"; to := "t9"; edge_status := pending |}];
               _origin := VUndefined |} in
  exists r,
    executePipeline offline false VUndefined (Some sp) = Return r
    /\ snd (post_run offline false (Return (Some sp))) = json (rec_log r) (rec_errors r)
    /\ List.length (rec_log r) = 2
    /\ exists fns fes,
         last (fst (post_run offline false (Return (Some sp)))) planning_start
         = pipeline_complete fns fes
         /\ map the_node fns = two_nodes
         /\ map node_status fns = statuses (nodes (final r)).
Proof.
  apply (node_failures_are_no_500 offline false
           (http_node "n1" "http://places.test/api" None None VUndefined false)
           [transform_node "t9" "median" (VObj [("from", VStr "outputs.n1")])]
           [{| from := "n1"; to := "t9"; edge_status := pending |}] VUndefined).
  repeat constructor; simpl; intuition discriminate.
Defined.

(** ** Planned runs *)

Section PlannedRun.
Variable pf : platform float.
Variable useMocks : bool.
Variable ctx_context : value float.
Variable o : value float.
Variable overpassData : string.

(** [outputs.t_osm_quality.quality[*]] is walked as a dotted path: it asks
    the rows of [t_osm_quality] for a property named [quality[*]]. *)
Lemma quality_column_is_undefined (outs : list (string * value float)) :
  rows_or_nothing (lookup "t_osm_quality" outs) ->
  from_outputs pf outs (VStr "outputs.t_osm_quality.quality[*]") = VUndefined.
Proof.
  intros Hq. unfold from_outputs, resolvePathLike.
  change (startsWith "$." "outputs.t_osm_quality.quality[*]"
          || startsWith "$[" "outputs.t_osm_quality.quality[*]") with false.
  cbv iota.
  change (split "." "outputs.t_osm_quality.quality[*]")
    with ["outputs"; "t_osm_quality"; "quality[*]"].
  cbn [walk is_nullish get lookup String.eqb Ascii.eqb Bool.eqb].
  destruct Hq as [->|(l & ->)]; reflexivity.
Qed.

Lemma planned_node_at (k : nat) (n : node float) :
  nth_error (planned_nodes overpassData) k = Some n ->
  (id n = "t_osm_quality"
   /\ type n = "transform" /\ fn n = "compute_osm_quality")
  \/ String.eqb "t_osm_quality" (id n) = false.
Proof.
  intros E. do 8 (destruct k as [|k]; [inversion E; subst; auto|]).
  destruct k; discriminate.
Qed.

Lemma quality_rows_upto (k : nat) :
  k <= List.length (planned_nodes overpassData) ->
  rows_or_nothing
    (lookup "t_osm_quality"
       (outputs (run_upto pf useMocks ctx_context o (planned_nodes overpassData)
                          planned_edges k))).
Proof.
  apply (run_induction pf useMocks ctx_context o (planned_nodes overpassData) planned_edges
           (fun _ st => rows_or_nothing (lookup "t_osm_quality" (outputs st)))).
  - now left.
  - intros j st nk En Enk _ IH.
    destruct (exec_node_effect pf useMocks ctx_context o st j nk Enk)
      as (_ & _ & _ & Ho & _).
    rewrite Ho. clear Ho.
    destruct (planned_node_at j _ En) as [(Ei & Et & Ef)|Hne].
    + unfold node_body. rewrite Et. cbn [String.eqb Ascii.eqb Bool.eqb].
      unfold runTransformNode. rewrite Ef. cbn [String.eqb Ascii.eqb Bool.eqb bind snd].
      rewrite Ei, lookup_set_field, String.eqb_refl. right. eexists. reflexivity.
    + destruct (snd (node_body pf useMocks ctx_context j (the_node nk) st o))
        as [[[d a] f]|m]; auto.
      now rewrite lookup_set_field, Hne.
Qed.

End PlannedRun.

(** Every run of a planned specification computes the correlation 0,
    whatever the data: the planner writes the [xFrom] of [t4_corr] as
    [outputs.t_osm_quality.quality[*]], a path without the [$] of a
    JSONPath, so it is walked part by part, finds no property of that
    name on the rows and leaves [t_correlation] without an array. *)
Theorem planned_correlation_is_always_zero (pf : platform float) (useMocks : bool)
  (ctx_context context_origin context_radius_m : value float) :
  match plan pf context_origin context_radius_m useMocks with
  | Return sp =>
      match executePipeline pf useMocks ctx_context (Some sp) with
      | Return r =>
          lookup "t4_corr" (rec_outputs r) = Some (VNum (float_of_Z 0))
          /\ exists n,
               lookup "correlation" (rec_outputs r)
               = Some (VObj [("x", VStr "quality"); ("y", VStr "eta_seconds");
                             ("pearson_r", VNum (float_of_Z 0)); ("n", n)])
      | Throw _ => False
      end
  | Throw message =>
      message = "planner: invalid context.origin coordinates"
      \/ message = "context.origin.split is not a function"
  end.
Proof.
  unfold plan. cbv zeta.
  match goal with
  | |- context [if ?c then VStr "37.8715,-122.2730" else context_origin] =>
      destruct (if c then VStr "37.8715,-122.2730" else context_origin);
        try (right; reflexivity)
  end.
  match goal with
  | |- context [if ?c then Throw _ else _] => destruct c; [left; reflexivity|]
  end.
  set (data := join newline _).
  set (origin := VObj _).
  rewrite (executePipeline_run pf useMocks ctx_context (planned_nodes data) planned_edges
             origin).
  cbv iota beta. cbn [rec_outputs].
  change (Datatypes.length (planned_nodes data)) with 8.
  rewrite run_upto_S.
  pose proof (quality_rows_upto pf useMocks ctx_context origin data 7
                ltac:(simpl; lia)) as Q.
  set (st := run_upto pf useMocks ctx_context origin (planned_nodes data) planned_edges 7)
    in *.
  destruct (run_node_at pf useMocks ctx_context origin (planned_nodes data) planned_edges
              7 _ eq_refl) as (nk & Enk & En).
  fold st in Enk.
  destruct (exec_node_effect pf useMocks ctx_context origin st 7 nk Enk)
    as (_ & _ & _ & Ho & _).
  assert (Eo : outputs (exec_node pf useMocks ctx_context origin st 7)
               = set_field "t4_corr" (VNum (float_of_Z 0)) (outputs st)).
  { rewrite Ho, En. unfold node_body, planned_transform.
    cbn [type id String.eqb Ascii.eqb Bool.eqb].
    unfold runTransformNode. cbn [fn String.eqb Ascii.eqb Bool.eqb].
    change (arg _ "xFrom") with (VStr "outputs.t_osm_quality.quality[*]" : value float).
    rewrite (quality_column_is_undefined pf (outputs st) Q).
    unfold t_correlation. cbn [numeric].
    rewrite pearson_short by (left; simpl; lia). reflexivity. }
  unfold finalOutputs. rewrite Eo.
  rewrite !lookup_set_field. cbn [String.eqb Ascii.eqb Bool.eqb].
  split; [reflexivity|]. eexists. reflexivity.
Qed.

(** ** The origin of a plan and the fallback planner *)

(** An origin the planner cannot use (missing, empty, or without a comma
    once it is turned into a string) is not an error: where [Number]
    reads the two numerals of the default, the planner returns the plan
    around the default origin 37.8715,-122.2730. *)
Theorem plan_defaults_the_origin (pf : platform float)
  (context_origin context_radius_m : value float) (useMocks : bool) :
  let originStr := trim (String_ pf (or_else context_origin (VStr ""))) in
  let lat := StringToNumber pf "37.8715" in
  let lon := StringToNumber pf "-122.2730" in
  let radius := Number pf context_radius_m in
  let radius_m := if Number_isFinite radius then radius else float_of_Z 800 in
  let overpassData :=
    join newline
      ["[out:json][timeout:25];";
       ("node[" ++ double_quote ++ "amenity" ++ double_quote ++ "="
        ++ double_quote ++ "restaurant" ++ double_quote ++ "](around:"
        ++ NumberToString pf radius_m ++ "," ++ NumberToString pf lat ++ ","
        ++ NumberToString pf lon ++ ");")%string;
       "out;"] in
  originStr = "" \/ includes_comma originStr = false ->
  Number_isFinite lat = true -> Number_isFinite lon = true ->
  plan pf context_origin context_radius_m useMocks
  = Return {| spec_nodes := Items (planned_nodes overpassData);
              spec_edges := Items planned_edges;
              _origin := VObj [("lat", VNum lat); ("lon", VNum lon)] |}.
Proof.
  intros originStr lat lon radius radius_m overpassData Ho Hlat Hlon.
  unfold plan. fold originStr.
  assert (E : String.eqb originStr "" || negb (includes_comma originStr) = true).
  { destruct Ho as [-> | ->]; [reflexivity|]. apply orb_true_r. }
  rewrite E. cbv zeta.
  change (map trim (split "," "37.8715,-122.2730")) with ["37.8715"; "-122.2730"].
  cbn [map nth Number]. fold lat lon. rewrite Hlat, Hlon. reflexivity.
Qed.

Lemma plan_defaults_the_origin_witness :
  let pf := offline_decimal in
  let lat := StringToNumber pf "37.8715" in
  let lon := StringToNumber pf "-122.2730" in
  let overpassData :=
    join newline
      ["[out:json][timeout:25];";
       ("node[" ++ double_quote ++ "amenity" ++ double_quote ++ "="
        ++ double_quote ++ "restaurant" ++ double_quote ++ "](around:"
        ++ NumberToString pf (float_of_Z 800) ++ "," ++ NumberToString pf lat ++ ","
        ++ NumberToString pf lon ++ ");")%string;
       "out;"] in
  plan pf (VStr " Berkeley ") VUndefined false
  = Return {| spec_nodes := Items (planned_nodes overpassData);
              spec_edges := Items planned_edges;
              _origin := VObj [("lat", VNum lat); ("lon", VNum lon)] |}.
Proof.
  apply (plan_defaults_the_origin offline_decimal (VStr " Berkeley ") VUndefined false).
  - right. reflexivity.
  - reflexivity.
  - reflexivity.
Defined.

(** On a platform that reads decimals the origin [" Berkeley "] gives the
    default coordinates. *)
Example plan_without_coordinates :
  match plan offline_decimal (VStr " Berkeley ") VUndefined false with
  | Return sp => _origin sp = VObj [("lat", VNum (dec 378715 4));
                                    ("lon", VNum (dec (-1222730) 4))]
  | Throw _ => False
  end.
Proof. vm_compute. reflexivity. Qed.

(** The specification of the fallback planner cannot be run: it has
    nodes, so the handler accepts it, but no [edges], so the engine throws
    on [spec.edges.map] before any node starts and the run is answered
    with status 500, whatever the origin and the radius. *)
Theorem fallback_plan_is_answered_500 (pf : platform float) (useMocks : bool)
  (ctx_context context_origin context_radius_m : value float) :
  let sp := Fallback.plan pf context_origin context_radius_m useMocks in
  let message := "Cannot read properties of undefined (reading 'map')" in
  invalid_spec (Some sp) = false
  /\ executePipeline pf useMocks ctx_context (Some sp) = Throw message
  /\ exists ns,
       spec_nodes sp = Items ns
       /\ post_run pf useMocks (Return (Some sp))
          = ([planning_start; planning_complete ns Absent; execution_start;
              error message; pipeline_complete_error message],
             status_json 500 message).
Proof.
  intros sp message. subst sp. unfold Fallback.plan, Fallback.buildDefaultSpec.
  cbv zeta.
  split; [reflexivity|]. split; [reflexivity|].
  eexists. split; reflexivity.
Qed.
